(** * Fireball Drop: the front-end glue and its serverless handlers

    A shallow embedding of the parts of the repository that decide its
    testable properties:

    - [src/pages/DropDetailPage.tsx]: the amount formatters, the drop
      snapshot fetcher ([fetchAndSetDropInfo]) and the actions [joinDrop]
      and [selectWinnersManually];
    - the drop creation page: [validateInputs] and [handleSubmit];
    - the frame (unfurl) handler with its fallback [serveOriginalIndex];
    - the [send-notification] handler: [fetchFarcasterProfiles],
      [sendNeynarNotification] and [handleNotificationLogic].

    Conventions.

    - A JavaScript string is a [string] of bytes: for ASCII text a byte is a
      UTF-16 code unit, and a character outside ASCII stands as its UTF-8
      bytes.  Case mapping and the whitespace and word classes are the ASCII
      ones.
    - A [bigint], and a [number] that only ever holds an integer, is a [Z];
      the other numbers of the creation form are binary64 [float]s.
    - An [async] function is a computation over an environment that answers
      every external call (RPC read or write, HTTP request, dynamic import,
      file read) from the history of what happened so far.  Every call, toast,
      navigation and state update is appended to that history, so "no remote
      write was submitted" is a property of the history a computation leaves
      behind.  An exception is an explicit outcome, [Throw].
    - [viem] is modelled after its implementation ([isAddress],
      [getAddress] with the EIP-55 checksum over Keccak-256, [formatUnits]);
      [getContractConfig] hands out the client and the contract address and
      does not throw.
    - Console output is left out, except the fallback's log line; the event
      subscriptions and the rendering of the pages are not modelled. *)

From Stdlib Require Import ZArith List String Ascii Bool Lia DecimalString.
From Stdlib Require Import Floats Uint63.
From stdpp Require Import base gmap strings.
Import ListNotations.
Local Open Scope string_scope.
Local Open Scope list_scope.
Local Open Scope Z_scope.

(** ** JavaScript string primitives *)
Module Js.

Definition code (c : ascii) : Z := Z.of_nat (nat_of_ascii c).
Definition chr (z : Z) : ascii := ascii_of_nat (Z.to_nat z).

Definition between (lo hi : Z) (c : ascii) : bool :=
  (lo <=? code c) && (code c <=? hi).

Definition isDigit (c : ascii) : bool := between 48 57 c.
Definition isUpper (c : ascii) : bool := between 65 90 c.
Definition isLower (c : ascii) : bool := between 97 122 c.
Definition isHexDigit (c : ascii) : bool :=
  isDigit c || between 97 102 c || between 65 70 c.

Definition lowerChar (c : ascii) : ascii :=
  if isUpper c then chr (code c + 32) else c.
Definition upperChar (c : ascii) : ascii :=
  if isLower c then chr (code c - 32) else c.

Fixpoint mapString (f : ascii -> ascii) (s : string) : string :=
  match s with
  | EmptyString => EmptyString
  | String c r => String (f c) (mapString f r)
  end.

Definition toLowerCase : string -> string := mapString lowerChar.
Definition toUpperCase : string -> string := mapString upperChar.

Fixpoint allChars (p : ascii -> bool) (s : string) : bool :=
  match s with
  | EmptyString => true
  | String c r => p c && allChars p r
  end.

Definition chars (s : string) : list ascii := list_ascii_of_string s.
Definition ofChars (l : list ascii) : string := string_of_list_ascii l.

Definition strlen (s : string) : Z := Z.of_nat (String.length s).

(** [s.slice(a)] and [s.slice(a, b)] with JavaScript's treatment of negative
    and out-of-range bounds. *)
Definition clampIndex (len i : Z) : Z :=
  if i <? 0 then Z.max 0 (len + i) else Z.min i len.

Definition slice (s : string) (a b : Z) : string :=
  let len := strlen s in
  let from := clampIndex len a in
  let to := clampIndex len b in
  String.substring (Z.to_nat from) (Z.to_nat (to - from)) s.

Definition sliceFrom (s : string) (a : Z) : string := slice s a (strlen s).

(** A string is truthy when it is not empty; an absent (undefined) one is
    falsy. *)
Definition truthy (s : string) : bool :=
  match s with EmptyString => false | _ => true end.

Definition truthyOpt (o : option string) : bool :=
  match o with Some s => truthy s | None => false end.

(** [a || b] on strings. *)
Definition orElse (a : option string) (b : string) : string :=
  match a with
  | Some s => if truthy s then s else b
  | None => b
  end.

Definition eqb (a b : string) : bool := String.eqb a b.

(** [s.split(sep)] for a one-character separator. *)
Fixpoint splitChars (sep : ascii) (cur : list ascii) (cs : list ascii)
  : list string :=
  match cs with
  | [] => [string_of_list_ascii (rev cur)]
  | c :: r =>
      if Ascii.eqb c sep
      then string_of_list_ascii (rev cur) :: splitChars sep [] r
      else splitChars sep (c :: cur) r
  end.

Definition split (sep : ascii) (s : string) : list string :=
  splitChars sep [] (list_ascii_of_string s).

(** A template literal's rendering of a possibly undefined string. *)
Definition show (o : option string) : string :=
  match o with Some s => s | None => "undefined" end.

Fixpoint dropWhile {A} (p : A -> bool) (l : list A) : list A :=
  match l with
  | [] => []
  | x :: r => if p x then dropWhile p r else l
  end.

Fixpoint takeWhile {A} (p : A -> bool) (l : list A) : list A :=
  match l with
  | [] => []
  | x :: r => if p x then x :: takeWhile p r else []
  end.

(** The ASCII members of [StrWhiteSpaceChar]. *)
Definition isWhiteSpace (c : ascii) : bool :=
  between 9 13 c || (code c =? 32).

Definition digitValue (c : ascii) : Z :=
  if isDigit c then code c - 48
  else if between 97 102 c then code c - 87
  else code c - 55.

Definition digitsValue (radix : Z) (ds : list ascii) : Z :=
  fold_left (fun acc c => acc * radix + digitValue c) ds 0.

(** [parseInt(s)] (radix argument absent); [None] is [NaN].  The value is the
    exact integer the digits denote. *)
Definition parseInt (s : string) : option Z :=
  let cs := dropWhile isWhiteSpace (chars s) in
  let '(sign, cs) :=
    match cs with
    | "-"%char :: r => (-1, r)
    | "+"%char :: r => (1, r)
    | _ => (1, cs)
    end in
  let '(radix, cs) :=
    match cs with
    | "0"%char :: "x"%char :: r => (16, r)
    | "0"%char :: "X"%char :: r => (16, r)
    | _ => (10, cs)
    end in
  let ds := takeWhile (if radix =? 16 then isHexDigit else isDigit) cs in
  match ds with
  | [] => None
  | _ => Some (sign * digitsValue radix ds)
  end.

(** [BigInt(s)] on a string; [None] is the [SyntaxError] it throws. *)
Definition trim (cs : list ascii) : list ascii :=
  rev (dropWhile isWhiteSpace (rev (dropWhile isWhiteSpace cs))).

Definition allDigits (p : ascii -> bool) (cs : list ascii) : bool :=
  match cs with [] => false | _ => forallb p cs end.

Definition isBinDigit (c : ascii) : bool := between 48 49 c.
Definition isOctDigit (c : ascii) : bool := between 48 55 c.

Definition BigInt (s : string) : option Z :=
  match trim (chars s) with
  | [] => Some 0
  | "0"%char :: ("x" | "X")%char :: r =>
      if allDigits isHexDigit r then Some (digitsValue 16 r) else None
  | "0"%char :: ("o" | "O")%char :: r =>
      if allDigits isOctDigit r then Some (digitsValue 8 r) else None
  | "0"%char :: ("b" | "B")%char :: r =>
      if allDigits isBinDigit r then Some (digitsValue 2 r) else None
  | "-"%char :: r =>
      if allDigits isDigit r then Some (- digitsValue 10 r) else None
  | "+"%char :: r =>
      if allDigits isDigit r then Some (digitsValue 10 r) else None
  | cs => if allDigits isDigit cs then Some (digitsValue 10 cs) else None
  end.

(** [/^\d+$/.test(s)] *)
Definition isDecimalDigits (s : string) : bool :=
  truthy s && allChars isDigit s.

(** *** Searching and replacing *)

Definition ofCodes (l : list Z) : string := ofChars (map chr l).

Definition quote : string := ofCodes [34].
Definition newline : string := ofCodes [10].

(** [\w] *)
Definition isWordChar (c : ascii) : bool :=
  isDigit c || isUpper c || isLower c || (code c =? 95).

Definition eqCI (a b : ascii) : bool := Ascii.eqb (lowerChar a) (lowerChar b).

(** What is left of [s] after the prefix [pat], compared by [eq]. *)
Fixpoint afterPrefix (eq : ascii -> ascii -> bool) (pat s : list ascii)
  : option (list ascii) :=
  match pat, s with
  | [], _ => Some s
  | a :: pat', b :: s' => if eq a b then afterPrefix eq pat' s' else None
  | _ :: _, [] => None
  end.

(** [s.includes(pat)] and the split of [s] at the first occurrence of [pat]. *)
Fixpoint splitAtFirst (pat : list ascii) (before s : list ascii)
  : option (list ascii * list ascii) :=
  match afterPrefix Ascii.eqb pat s with
  | Some after => Some (rev before, after)
  | None =>
      match s with
      | [] => None
      | c :: r => splitAtFirst pat (c :: before) r
      end
  end.

Definition includes (s pat : string) : bool :=
  match splitAtFirst (chars pat) [] (chars s) with
  | Some _ => true
  | None => false
  end.

(** The replacement text of [s.replace(pattern, replacement)] for a string
    pattern: [$$], [$&], [$`] and [$'] are substituted. *)
Fixpoint substitution (matched before after : list ascii)
  (replacement : list ascii) : list ascii :=
  match replacement with
  | [] => []
  | "$"%char :: r =>
      match r with
      | "$"%char :: r' => "$"%char :: substitution matched before after r'
      | "&"%char :: r' => matched ++ substitution matched before after r'
      | "`"%char :: r' => before ++ substitution matched before after r'
      | "'"%char :: r' => after ++ substitution matched before after r'
      | _ => "$"%char :: substitution matched before after r
      end
  | c :: r => c :: substitution matched before after r
  end.

(** [s.replace(pat, replacement)] with a string pattern: the first
    occurrence only. *)
Definition replaceFirst (s pat replacement : string) : string :=
  match splitAtFirst (chars pat) [] (chars s) with
  | Some (before, after) =>
      ofChars (before
               ++ substitution (chars pat) before after (chars replacement)
               ++ after)
  | None => s
  end.

(** [s.replace(/re/g, replacement)] for a regular expression given by
    [matchAt], the length of its match at the head of the input if any
    (never 0), and a replacement without [$]. *)
Fixpoint replaceAllFrom (matchAt : list ascii -> option nat)
  (replacement : list ascii) (skip : nat) (s : list ascii) : list ascii :=
  match s with
  | [] => []
  | c :: r =>
      match skip with
      | S n => replaceAllFrom matchAt replacement n r
      | O =>
          match matchAt s with
          | Some (S n) => replacement ++ replaceAllFrom matchAt replacement n r
          | _ => c :: replaceAllFrom matchAt replacement O r
          end
      end
  end.

Definition replaceAll (matchAt : list ascii -> option nat)
  (replacement s : string) : string :=
  ofChars (replaceAllFrom matchAt (chars replacement) O (chars s)).

(** A literal, compared without case. *)
Definition literalCI (pat : string) (s : list ascii) : option nat :=
  match afterPrefix eqCI (chars pat) s with
  | Some _ => Some (String.length pat)
  | None => None
  end.

(** [/\bword\b/i.test(s)] for a [word] of word characters. *)
Fixpoint wordOccursFrom (word : list ascii) (prev : option ascii)
  (s : list ascii) : bool :=
  match s with
  | [] => false
  | c :: r =>
      (match prev with Some p => negb (isWordChar p) | None => true end
       && match afterPrefix eqCI word s with
          | Some (n :: _) => negb (isWordChar n)
          | Some [] => true
          | None => false
          end)
      || wordOccursFrom word (Some c) r
  end.

Definition wordOccurs (word s : string) : bool :=
  wordOccursFrom (chars word) None (chars s).

(** [JSON.stringify] of a string. *)
Definition hexDigit (n : Z) : ascii :=
  if n <? 10 then chr (48 + n) else chr (87 + n).

Definition jsonEscape (c : ascii) : list ascii :=
  let n := code c in
  if n =? 34 then chars "\" ++ [c]
  else if n =? 92 then [c; c]
  else if n =? 8 then chars "\b"
  else if n =? 9 then chars "\t"
  else if n =? 10 then chars "\n"
  else if n =? 12 then chars "\f"
  else if n =? 13 then chars "\r"
  else if n <? 32 then chars "\u00" ++ [hexDigit (n / 16); hexDigit (n mod 16)]
  else [c].

Definition jsonString (s : string) : string :=
  quote +:+ ofChars (flat_map jsonEscape (chars s)) +:+ quote.

(** [l.join(sep)] *)
Fixpoint join (sep : string) (l : list string) : string :=
  match l with
  | [] => ""
  | [x] => x
  | x :: r => x +:+ sep +:+ join sep r
  end.

(** [s.split(sep)[0]] for a separator of any length: the text before its
    first occurrence, or all of [s]. *)
Definition beforeFirst (sep s : string) : string :=
  match splitAtFirst (chars sep) [] (chars s) with
  | Some (before, _) => ofChars before
  | None => s
  end.

End Js.

(** ** The parts of [viem] the code calls

    [viem] is an external library; the definitions below follow its
    implementation of [isAddress], [getAddress] (EIP-55, over Keccak-256),
    [formatUnits] and [formatEther]. *)
Module Viem.

(** *** Keccak-256 *)
Definition mask64 : Z := 0xFFFFFFFFFFFFFFFF.

Definition rotl64 (x n : Z) : Z :=
  Z.land (Z.lor (Z.shiftl x n) (Z.shiftr x (64 - n))) mask64.

Definition lane (a : list Z) (x y : Z) : Z :=
  nth (Z.to_nat ((x mod 5) + 5 * (y mod 5))) a 0.

Definition rhoOffsets : list Z :=
  [ 0;  1; 62; 28; 27;
   36; 44;  6; 55; 20;
    3; 10; 43; 25; 39;
   41; 45; 15; 21;  8;
   18;  2; 61; 56; 14].

Definition roundConstants : list Z :=
  [0x0000000000000001; 0x0000000000008082; 0x800000000000808A;
   0x8000000080008000; 0x000000000000808B; 0x0000000080000001;
   0x8000000080008081; 0x8000000000008009; 0x000000000000008A;
   0x0000000000000088; 0x0000000080008009; 0x000000008000000A;
   0x000000008000808B; 0x800000000000008B; 0x8000000000008089;
   0x8000000000008003; 0x8000000000008002; 0x8000000000000080;
   0x000000000000800A; 0x800000008000000A; 0x8000000080008081;
   0x8000000000008080; 0x0000000080000001; 0x8000000080008008].

Definition coords : list (Z * Z) :=
  flat_map (fun y => map (fun x => (x, y)) [0; 1; 2; 3; 4]) [0; 1; 2; 3; 4].

Definition theta (a : list Z) : list Z :=
  let c := fun x =>
    Z.lxor (lane a x 0) (Z.lxor (lane a x 1) (Z.lxor (lane a x 2)
      (Z.lxor (lane a x 3) (lane a x 4)))) in
  let d := fun x => Z.lxor (c (x + 4)) (rotl64 (c (x + 1)) 1) in
  map (fun '(x, y) => Z.lxor (lane a x y) (d x)) coords.

Definition rhoPi (a : list Z) : list Z :=
  map (fun '(x, y) =>
         let sx := (x + 3 * y) mod 5 in
         rotl64 (lane a sx x) (lane rhoOffsets sx x)) coords.

Definition chi (b : list Z) : list Z :=
  map (fun '(x, y) =>
         Z.lxor (lane b x y)
           (Z.land (Z.lxor (lane b (x + 1) y) mask64) (lane b (x + 2) y)))
      coords.

Definition iota (rc : Z) (a : list Z) : list Z :=
  match a with
  | [] => []
  | a0 :: r => Z.lxor a0 rc :: r
  end.

Definition keccakRound (a : list Z) (rc : Z) : list Z :=
  iota rc (chi (rhoPi (theta a))).

Definition keccakF (a : list Z) : list Z :=
  fold_left keccakRound roundConstants a.

(** Bytes to little-endian 64-bit lanes and back. *)
Fixpoint leWord (bs : list Z) : Z :=
  match bs with
  | [] => 0
  | b :: r => b + 256 * leWord r
  end.

Fixpoint chunks {A} (fuel n : nat) (l : list A) : list (list A) :=
  match fuel with
  | O => []
  | S fuel' =>
      match l with
      | [] => []
      | _ => firstn n l :: chunks fuel' n (skipn n l)
      end
  end.

Definition rateBytes : nat := 136.

(** Keccak padding (domain byte 0x01, final bit 0x80). *)
Definition pad (msg : list Z) : list Z :=
  let r := (rateBytes - (List.length msg mod rateBytes))%nat in
  if (r =? 1)%nat then msg ++ [0x81]
  else msg ++ [0x01] ++ repeat 0 (r - 2) ++ [0x80].

Definition absorbBlock (st : list Z) (block : list Z) : list Z :=
  let lanes := map leWord (chunks 25 8 block) in
  let lanes' := lanes ++ repeat 0 (25 - List.length lanes) in
  keccakF (map (fun '(s, l) => Z.lxor s l) (combine st lanes')).

Definition wordBytes (w : Z) : list Z :=
  map (fun i => Z.land (Z.shiftr w (8 * i)) 255) [0; 1; 2; 3; 4; 5; 6; 7].

(** The 32 bytes of the digest. *)
Definition keccak256 (msg : list Z) : list Z :=
  let padded := pad msg in
  let st := fold_left absorbBlock
              (chunks (S (List.length padded)) rateBytes padded) (repeat 0 25%nat) in
  flat_map wordBytes (firstn 4 st).

Definition stringToBytes (s : string) : list Z := map Js.code (Js.chars s).

(** *** Addresses *)

(** [/^0x[a-fA-F0-9]{40}$/] *)
Definition addressRegex (s : string) : bool :=
  match s with
  | String "0" (String "x" r) =>
      (String.length r =? 40)%nat && Js.allChars Js.isHexDigit r
  | _ => false
  end.

Fixpoint checksumChars (hash : list Z) (cs : list ascii) : list ascii :=
  match cs, hash with
  | c1 :: c2 :: r, h :: hr =>
      (if 8 <=? Z.shiftr h 4 then Js.upperChar c1 else c1)
        :: (if 8 <=? Z.land h 15 then Js.upperChar c2 else c2)
        :: checksumChars hr r
  | _, _ => cs
  end.

Definition checksumAddress (address : string) : string :=
  let hexAddress := Js.toLowerCase (Js.sliceFrom address 2) in
  let hash := keccak256 (stringToBytes hexAddress) in
  "0x" +:+ Js.ofChars (checksumChars hash (Js.chars hexAddress)).

(** [isAddress(address)] in its default strict mode, on a string. *)
Definition isAddress (address : string) : bool :=
  if negb (addressRegex address) then false
  else if Js.eqb (Js.toLowerCase address) address then true
  else Js.eqb (checksumAddress address) address.

(** [getAddress(address)]: [None] stands for the [InvalidAddressError] it
    throws. *)
Definition getAddress (address : string) : option string :=
  if addressRegex address then Some (checksumAddress address) else None.

(** *** Amount formatting *)

(** [value.toString()] of a bigint. *)
Definition bigintToString (z : Z) : string :=
  DecimalString.NilZero.string_of_int (Z.to_int z).

Definition padStart0 (s : string) (n : Z) : string :=
  Js.ofChars (repeat "0"%char (Z.to_nat (n - Js.strlen s))) +:+ s.

(** [s.replace(/(0+)$/, '')] *)
Definition stripTrailingZeros (s : string) : string :=
  Js.ofChars (rev (Js.dropWhile (Ascii.eqb "0") (rev (Js.chars s)))).

Definition formatUnits (value decimals : Z) : string :=
  let display := bigintToString value in
  let negative := String.prefix "-" display in
  let display := if negative then Js.sliceFrom display 1 else display in
  let display := padStart0 display decimals in
  let integer := Js.slice display 0 (Js.strlen display - decimals) in
  let fraction := Js.sliceFrom display (Js.strlen display - decimals) in
  let fraction := stripTrailingZeros fraction in
  (if negative then "-" else "")
    +:+ (if Js.truthy integer then integer else "0")
    +:+ (if Js.truthy fraction then "." +:+ fraction else "").

Definition formatEther (wei : Z) : string := formatUnits wei 18.

End Viem.

(** ** Computations over an answering environment

    A computation reads the environment, extends the history of events and
    either returns or throws.  [call] is an external call: the event is
    recorded and the environment answers from the history before it. *)
Module Eff.

(** A thrown value: an [Error] with its [message], and the [shortMessage]
    that viem's errors carry. *)
Record JsError := mkError {
  shortMessage : option string;
  message : option string
}.

Definition Error (msg : string) : JsError :=
  {| shortMessage := None; message := Some msg |}.

Inductive Res (A : Type) : Type :=
| Ok (a : A)
| Throw (e : JsError).
Arguments Ok {A} a.
Arguments Throw {A} e.

Section Monad.
Context {Env Event : Type}.

Definition M (A : Type) : Type := Env -> list Event -> Res A * list Event.

Definition ret {A} (a : A) : M A := fun _ h => (Ok a, h).

Definition throw {A} (e : JsError) : M A := fun _ h => (Throw e, h).

Definition bind {A B} (m : M A) (k : A -> M B) : M B :=
  fun env h =>
    match m env h with
    | (Ok a, h') => k a env h'
    | (Throw e, h') => (Throw e, h')
    end.

(** [try { m } catch (e) { handler e }] *)
Definition tryCatch {A} (m : M A) (handler : JsError -> M A) : M A :=
  fun env h =>
    match m env h with
    | (Ok a, h') => (Ok a, h')
    | (Throw e, h') => handler e env h'
    end.

(** [try { m } finally { f }] *)
Definition tryFinally {A} (m : M A) (f : M unit) : M A :=
  fun env h =>
    match m env h with
    | (r, h') =>
        match f env h' with
        | (Ok _, h'') => (r, h'')
        | (Throw e, h'') => (Throw e, h'')
        end
    end.

Definition emit (e : Event) : M unit := fun _ h => (Ok tt, h ++ [e]).

Definition call {A} (e : Event) (answer : Env -> list Event -> Res A) : M A :=
  fun env h => (answer env h, h ++ [e]).

Definition ask {A} (f : Env -> A) : M A := fun env h => (Ok (f env), h).

(** A library function that throws where the model has [None]. *)
Definition orThrow {A} (o : option A) (e : JsError) : M A :=
  match o with
  | Some a => ret a
  | None => throw e
  end.

(** An answer already at hand, such as [response.json()]. *)
Definition liftRes {A} (r : Res A) : M A :=
  match r with
  | Ok a => ret a
  | Throw e => throw e
  end.

Fixpoint mapM {A B} (f : A -> M B) (l : list A) : M (list B) :=
  match l with
  | [] => ret []
  | x :: r =>
      bind (f x) (fun y => bind (mapM f r) (fun ys => ret (y :: ys)))
  end.

Definition when (b : bool) (m : M unit) : M unit := if b then m else ret tt.

End Monad.

Arguments M : clear implicits.

End Eff.

Notation "x <- m ;; k" := (Eff.bind m (fun x => k))
  (at level 100, m at next level, right associativity, only parsing).
Notation "m ;;; k" := (Eff.bind m (fun _ => k))
  (at level 100, right associativity, only parsing).

(** ** The notification request shared by the pages and the handler

    The JSON body posted to [/api/send-notification]: the declared
    [NotificationData] interface, with the further fields the handler reads
    ([creatorAddress], [targetFids], [tokenSymbol]) or the pages send.  An
    absent field is [None]. *)
Module Api.

(** Modelled from the spec: the [RewardType] enum of [src/types/global], which
    is not under src/ ("one of native-currency, stable-token, generic-token,
    non-fungible"); a number of the contract outside the enum is [Unlisted]. *)
Inductive RewardType := ETH | USDC | ERC20 | NFT | Unlisted (n : Z).

Definition isToken (t : RewardType) : bool :=
  match t with USDC | ERC20 => true | _ => false end.

Record NotificationData := {
  category : option string;
  dropId : option string;
  creatorAddress : option string;
  hostAddress : option string;
  sponsorAddress : option string;
  participantAddress : option string;
  participantName : option string;
  winnerAddresses : option (list string);
  rewardAmount : option string;
  tokenSymbol : option string;
  maxParticipants : option Z;
  numWinners : option Z;
  targetFids : option (list Z);
  prizeAmounts : option string;
  platformFee : option string;
  rewardType : option RewardType;
  entryFee : option string;
  transactionHash : option string
}.

Definition emptyData : NotificationData :=
  {| category := None; dropId := None; creatorAddress := None;
     hostAddress := None; sponsorAddress := None; participantAddress := None;
     participantName := None; winnerAddresses := None; rewardAmount := None;
     tokenSymbol := None; maxParticipants := None; numWinners := None;
     targetFids := None; prizeAmounts := None; platformFee := None;
     rewardType := None; entryFee := None; transactionHash := None |}.

(** What a caller of the endpoint sees of the response. *)
Record Response := {
  ok : bool;
  json : Eff.Res (bool * string)
}.

End Api.

(** ** The pages' environment: wallet, RPC node, toasts, router *)
Module Client.
Import Eff Api.

Definition ZERO_ADDRESS : string := "0x0000000000000000000000000000000000000000".

Record Participant := {
  p_address : string;
  p_name : string;
  p_slot : Z
}.

(** The tuple [getDropInfo] returns, field by position. *)
Record DropDetails := {
  d_host : string;
  d_sponsor : string;
  d_rawEntryFee : Z;
  d_rawRewardAmountFromContract : Z;
  d_rewardToken : string;
  d_rewardTypeNum : RewardType;
  d_rewardTokenIdsBigInt : list Z;
  d_maxParticipants : Z;
  d_currentParticipants : Z;
  d_isActive : bool;
  d_isCompleted : bool;
  d_isPaidEntry : bool;
  d_isManualSelection : bool;
  d_isSponsored : bool;
  d_numWinners : Z;
  d_fundingDeadline : Z;
  d_winnersAddresses : list string
}.

Record ExtendedDropInfo := {
  id : Z;
  host : string;
  sponsor : string;
  entryFee : string;
  rewardAmount : string;
  rawEntryFee : Z;
  rawRewardAmount : Z;
  rewardToken : string;
  rewardType : RewardType;
  rewardTokenIds : list string;
  maxParticipants : Z;
  currentParticipants : Z;
  isActive : bool;
  isCompleted : bool;
  isPaidEntry : bool;
  isManualSelection : bool;
  isSponsored : bool;
  numWinners : Z;
  fundingDeadline : Z;
  winners : list string
}.

Inductive Arg :=
| AInt (z : Z)
| AStr (s : string)
| AInts (l : list Z)
| ABool (b : bool)
| AReward (t : RewardType).

Inductive ToastKind := TError | TInfo | TSuccess | TWarn.

Inductive StateUpdate :=
| SetLoadingData (b : bool)
| SetActionInProgress (b : bool)
| SetError (e : option string)
| SetParticipants (l : list Participant)
| SetDropInfo (d : ExtendedDropInfo)
| SetDropInfoWinners (ws : list string)
| SetIsCancelledForUI (b : bool)
| SetWinnerIndices (l : list Z)
| SetAnimateWinners (b : bool)
| SetIsSubmitting (b : bool)
| SetErrorMessage (e : option string).

Inductive Event :=
| EReadContract (address functionName : string) (args : list Arg)
| EGetBalance (address : string)
| EWriteContract (address functionName : string) (args : list Arg)
    (value : option Z)
| EWaitForTransactionReceipt (hash : string)
| ESdkContext
| EFetchNotification (body : NotificationData)
| EToast (kind : ToastKind) (msg : string)
| ENavigate (path : string)
| ESet (u : StateUpdate)
| ERefetch (dropId : string)
| EGetProfilesByAddresses (addresses : list string).

Record WinnersSelectedArgs := {
  ev_dropId : Z;
  ev_winners : list string;
  ev_prizeAmounts : list Z;
  ev_platformFee : Z
}.

(** A receipt log with what [decodeEventLog] makes of it: against the single
    [WinnersSelected] event, and against the contract's whole ABI (event name
    and, when it is a bigint, [args.dropId]). *)
Record Log := {
  log_address : string;
  decodeWinnersSelected : Res WinnersSelectedArgs;
  decodeAbi : Res (string * option Z)
}.

Record FcUser := {
  displayName : option string;
  username : option string
}.

Record Env := {
  contractAddress : string;
  readDecimals : list Event -> string -> Res Z;
  readSymbol : list Event -> string -> Res string;
  readDropInfo : list Event -> Z -> Res DropDetails;
  readDropParticipants : list Event -> Z -> Res (list string * list string);
  readBalanceOf : list Event -> string -> string -> Res Z;
  getBalance : list Event -> string -> Res Z;
  writeContract :
    list Event -> string -> string -> list Arg -> option Z -> Res string;
  waitForTransactionReceipt : list Event -> string -> Res (list Log);
  sdkContext : list Event -> Res (option FcUser);
  fetchNotification : list Event -> NotificationData -> Res Response
}.

Definition M := Eff.M Env Event.

Definition toast (k : ToastKind) (msg : string) : M unit := emit (EToast k msg).
Definition set (u : StateUpdate) : M unit := emit (ESet u).

Definition publicClient_readDecimals (token : string) : M Z :=
  call (EReadContract token "decimals" [])
       (fun env h => readDecimals env h token).

Definition publicClient_readSymbol (token : string) : M string :=
  call (EReadContract token "symbol" [])
       (fun env h => readSymbol env h token).

Definition walletClient_writeContract
  (address functionName : string) (args : list Arg) (value : option Z)
  : M string :=
  call (EWriteContract address functionName args value)
       (fun env h => writeContract env h address functionName args value).

Definition publicClient_waitForTransactionReceipt (hash : string)
  : M (list Log) :=
  call (EWaitForTransactionReceipt hash)
       (fun env h => waitForTransactionReceipt env h hash).

Definition postNotification (body : NotificationData) : M Response :=
  call (EFetchNotification body) (fun env h => fetchNotification env h body).

(** The page's hooks and state, as an action reads them. *)
Record PageState := {
  st_dropId : option string;
  st_address : option string;
  st_isConnected : bool;
  st_isConnecting : bool;
  st_isWalletClientLoading : bool;
  st_walletClient : bool;
  st_dropInfo : option ExtendedDropInfo;
  st_participants : list Participant
}.

(** The guard both actions open with; when it passes, the address, the drop
    record and the drop id are at hand. *)
Definition ready (st : PageState)
  : option (string * ExtendedDropInfo * string) :=
  if st_isConnecting st || st_isWalletClientLoading st
     || negb (st_walletClient st)
  then None
  else
    match st_address st, st_dropInfo st, st_dropId st with
    | Some address, Some dropInfo, Some dropId =>
        if Js.truthy address && Js.truthy dropId
        then Some (address, dropInfo, dropId) else None
    | _, _, _ => None
    end.

(** viem's [InvalidAddressError] (its message cut to the first line). *)
Definition InvalidAddressError (address : string) : JsError :=
  let text :=
    "Address " +:+ Js.quote +:+ address +:+ Js.quote +:+ " is invalid." in
  {| shortMessage := Some text; message := Some text |}.

Definition getAddress (address : string) : M string :=
  orThrow (Viem.getAddress address) (InvalidAddressError address).

Definition SyntaxError (s : string) : JsError :=
  Error ("Cannot convert " +:+ s +:+ " to a BigInt").

Definition BigInt (s : string) : M Z := orThrow (Js.BigInt s) (SyntaxError s).

(** The first clause of an error, as the actions show it:
    [err.shortMessage || err.message?.split("(")[0] || fallback]. *)
Definition beforeParen (s : string) : string :=
  Js.ofChars (Js.takeWhile (fun c => negb (Ascii.eqb c "(")) (Js.chars s)).

Definition shortError (err : JsError) (fallback : string) : string :=
  if Js.truthyOpt (shortMessage err) then Js.orElse (shortMessage err) fallback
  else Js.orElse (option_map beforeParen (message err)) fallback.

End Client.

(** ** [src/pages/DropDetailPage.tsx] *)
Module DropDetailPage.
Import Eff Api Client.

Definition getTokenDecimals (tokenAddress : string) : M Z :=
  if Js.eqb tokenAddress ZERO_ADDRESS then ret 18
  else
    tryCatch
      (decimals <- publicClient_readDecimals tokenAddress ;;
       ret decimals)
      (fun _ => ret 18).

(** The symbol read of both formatters: the initial ["Tokens"] stays when the
    read throws; a symbol reading FIREBALL in any case becomes [fire-ball]. *)
Definition readSymbolOrDefault (token : string) : M string :=
  tryCatch
    (symbol <- publicClient_readSymbol token ;;
     ret (if Js.eqb (Js.toUpperCase symbol) "FIREBALL" then "fire-ball"
          else symbol))
    (fun _ => ret "Tokens").

Definition formatRewardDisplay
  (rawAmount : Z) (rewardType : RewardType) (rewardTokenAddress : string)
  (numWinners : Z) (rewardTokenIds : list string) : M string :=
  match rewardType with
  | ETH => ret (Viem.formatEther rawAmount +:+ " ETH")
  | USDC | ERC20 =>
      decimals <- getTokenDecimals rewardTokenAddress ;;
      symbol <- readSymbolOrDefault rewardTokenAddress ;;
      ret (Viem.formatUnits rawAmount decimals +:+ " " +:+ symbol)
  | NFT =>
      let count :=
        if 0 <? Z.of_nat (List.length rewardTokenIds)
        then Z.of_nat (List.length rewardTokenIds) else numWinners in
      ret (Viem.bigintToString count +:+ " NFT(s)")
  | Unlisted _ => ret "N/A"
  end.

Definition formatEntryFeeDisplay
  (rawAmount : Z) (isPaidEntry : bool) (dropRewardType : RewardType)
  (entryFeeTokenAddress : string) : M string :=
  if negb isPaidEntry || (rawAmount =? 0) then ret "Free"
  else if isToken dropRewardType then
    decimals <- getTokenDecimals entryFeeTokenAddress ;;
    symbol <- readSymbolOrDefault entryFeeTokenAddress ;;
    ret (Viem.formatUnits rawAmount decimals +:+ " " +:+ symbol)
  else ret (Viem.formatEther rawAmount +:+ " ETH").

(** [Set.add] on an insertion-ordered set of strings. *)
Definition setAdd (x : string) (l : list string) : list string :=
  if existsb (Js.eqb x) l then l else l ++ [x].

Definition addIfAddress (addr : string) (set : list string)
  : M (list string) :=
  if Viem.isAddress addr then
    a <- getAddress addr ;; ret (setAdd a set)
  else ret set.

Fixpoint addAllAddresses (addrs : list string) (set : list string)
  : M (list string) :=
  match addrs with
  | [] => ret set
  | a :: r => set' <- addIfAddress a set ;; addAllAddresses r set'
  end.

(** [getAddress(a) === getAddress(b)], evaluated left to right. *)
Definition sameAddress (a b : string) : M bool :=
  x <- getAddress a ;;
  y <- getAddress b ;;
  ret (Js.eqb x y).

(** [l.findIndex(pred)]: the first index at which [pred] holds, else -1. *)
Fixpoint findIndexFrom {A} (i : Z) (pred : A -> M bool) (l : list A) : M Z :=
  match l with
  | [] => ret (-1)
  | x :: r =>
      b <- pred x ;;
      if b then ret i else findIndexFrom (i + 1) pred r
  end.

Definition findIndex {A} (pred : A -> M bool) (l : list A) : M Z :=
  findIndexFrom 0 pred l.

(** [l.some(pred)] *)
Fixpoint some {A} (pred : A -> M bool) (l : list A) : M bool :=
  match l with
  | [] => ret false
  | x :: r => b <- pred x ;; if b then ret true else some pred r
  end.

(** [winners.map(w => addresses.findIndex(...)).filter(i => i !== -1)] *)
Definition winnerIndicesOf (winners participantAddresses : list string)
  : M (list Z) :=
  found <- mapM (fun winnerAddr =>
                   findIndex (fun pAddr => sameAddress pAddr winnerAddr)
                             participantAddresses) winners ;;
  ret (List.filter (fun index => negb (index =? -1)) found).

Fixpoint participantsFrom (index : Z) (addrs names : list string)
  : list Participant :=
  match addrs with
  | [] => []
  | addr :: r =>
      {| p_address := addr;
         p_name := Js.orElse (nth_error names (Z.to_nat index))
                     ("User-" +:+ Js.sliceFrom addr (-4));
         p_slot := index |} :: participantsFrom (index + 1) r names
  end.

Definition unfunded (isSponsored : bool) (sponsor : string) : bool :=
  isSponsored && Js.eqb sponsor ZERO_ADDRESS.

Definition fetchBody (currentDropId : string) : M unit :=
  contractAddress <- ask contractAddress ;;
  dropIdBig <- BigInt currentDropId ;;
  d <- call (EReadContract contractAddress "getDropInfo" [AInt dropIdBig])
            (fun env h => readDropInfo env h dropIdBig) ;;
  let currentRewardType := d_rewardTypeNum d in
  toFetch <- addIfAddress (d_host d) [] ;;
  toFetch <- (if d_isSponsored d
                 && negb (Js.eqb (d_sponsor d) ZERO_ADDRESS)
              then addIfAddress (d_sponsor d) toFetch else ret toFetch) ;;
  if unfunded (d_isSponsored d) (d_sponsor d) && d_isActive d then
    toast TError "This sponsored game is not funded yet." ;;;
    emit (ENavigate "/available") ;;;
    throw (Error "Unfunded sponsored game")
  else
    let tokenIdsStr := map Viem.bigintToString (d_rewardTokenIdsBigInt d) in
    let entryFeeTokenForFormatting :=
      if d_isPaidEntry d && isToken currentRewardType
      then d_rewardToken d else ZERO_ADDRESS in
    formattedEntryFee <-
      formatEntryFeeDisplay (d_rawEntryFee d) (d_isPaidEntry d)
        currentRewardType entryFeeTokenForFormatting ;;
    formattedRewardAmount <-
      formatRewardDisplay (d_rawRewardAmountFromContract d) currentRewardType
        (d_rewardToken d) (d_numWinners d) tokenIdsStr ;;
    ps <- call (EReadContract contractAddress "getDropParticipants"
                  [AInt dropIdBig])
               (fun env h => readDropParticipants env h dropIdBig) ;;
    let '(participantAddressesFromContract, participantNamesFromContract) :=
      ps in
    toFetch <- addAllAddresses participantAddressesFromContract toFetch ;;
    let participantList :=
      participantsFrom 0 participantAddressesFromContract
        participantNamesFromContract in
    set (SetParticipants participantList) ;;;
    toFetch <- addAllAddresses (d_winnersAddresses d) toFetch ;;
    let newDropInfoState :=
      {| id := dropIdBig; host := d_host d; sponsor := d_sponsor d;
         entryFee := formattedEntryFee; rewardAmount := formattedRewardAmount;
         rawEntryFee := d_rawEntryFee d;
         rawRewardAmount := d_rawRewardAmountFromContract d;
         rewardToken := d_rewardToken d; rewardType := currentRewardType;
         rewardTokenIds := tokenIdsStr;
         maxParticipants := d_maxParticipants d;
         currentParticipants := d_currentParticipants d;
         isActive := d_isActive d; isCompleted := d_isCompleted d;
         isPaidEntry := d_isPaidEntry d;
         isManualSelection := d_isManualSelection d;
         isSponsored := d_isSponsored d; numWinners := d_numWinners d;
         fundingDeadline := d_fundingDeadline d;
         winners := d_winnersAddresses d |} in
    set (SetDropInfo newDropInfoState) ;;;
    set (SetIsCancelledForUI
           (negb (d_isActive d) && d_isCompleted d
            && (Z.of_nat (List.length (d_winnersAddresses d)) =? 0))) ;;;
    (if d_isCompleted d && (0 <? Z.of_nat (List.length (d_winnersAddresses d)))
     then
       indices <- winnerIndicesOf (d_winnersAddresses d)
                    (map p_address participantList) ;;
       if 0 <? Z.of_nat (List.length indices) then
         set (SetWinnerIndices indices) ;;;
         set (SetAnimateWinners true)
       else ret tt
     else ret tt) ;;;
    if 0 <? Z.of_nat (List.length toFetch)
    then emit (EGetProfilesByAddresses toFetch)
    else ret tt.

Definition fetchAndSetDropInfo (currentDropId : string) (isInitialLoad : bool)
  : M unit :=
  when isInitialLoad (set (SetLoadingData true)) ;;;
  tryFinally
    (tryCatch (fetchBody currentDropId)
       (fun err =>
          let text := Js.orElse (message err) "Failed to fetch drop info" in
          set (SetError (Some text)) ;;;
          when (negb (match message err with
                      | Some m => Js.eqb m "Unfunded sponsored game"
                      | None => false
                      end))
               (toast TError text)))
    (when isInitialLoad (set (SetLoadingData false))).

Definition joinPayload
  (dropId address participantName : string) (dropInfo : ExtendedDropInfo)
  (hash : string) : NotificationData :=
  {| category := Some "game-joined";
     dropId := Some dropId;
     creatorAddress := None;
     hostAddress := None;
     sponsorAddress := None;
     participantAddress := Some address;
     participantName := Some participantName;
     winnerAddresses := None;
     Api.rewardAmount := None;
     tokenSymbol := None;
     Api.maxParticipants := None;
     Api.numWinners := None;
     targetFids := None;
     prizeAmounts := None;
     platformFee := None;
     Api.rewardType := Some (rewardType dropInfo);
     Api.entryFee := Some (entryFee dropInfo);
     transactionHash := Some hash |}.

(** The payment step of [joinDrop]; its value is [valueToSend]. *)
Definition joinPayment
  (contractAddress address : string) (dropInfo : ExtendedDropInfo) : M Z :=
  if isPaidEntry dropInfo && isToken (rewardType dropInfo) then
    let entryFeeTokenAddress := rewardToken dropInfo in
    let entryFeeInSmallestUnit := rawEntryFee dropInfo in
    if entryFeeInSmallestUnit =? 0 then
      throw (Error "Entry fee cannot be zero for a paid drop.")
    else
      balance <- call (EReadContract entryFeeTokenAddress "balanceOf"
                         [AStr address])
                      (fun env h =>
                         readBalanceOf env h entryFeeTokenAddress address) ;;
      if balance <? entryFeeInSmallestUnit then
        throw (Error ("Insufficient "
                      +:+ Js.show (nth_error (Js.split " " (entryFee dropInfo)) 1)
                      +:+ " balance to join."))
      else
        toast TInfo ("Approving " +:+ entryFee dropInfo
                     +:+ " for FireballDrop contract...") ;;;
        approveTx <- walletClient_writeContract entryFeeTokenAddress "approve"
                       [AStr contractAddress; AInt entryFeeInSmallestUnit]
                       None ;;
        publicClient_waitForTransactionReceipt approveTx ;;;
        toast TSuccess "Approval successful! Joining drop..." ;;;
        ret 0
  else if isPaidEntry dropInfo
          && match rewardType dropInfo with ETH => true | _ => false end then
    let valueToSend := rawEntryFee dropInfo in
    if valueToSend =? 0 then
      throw (Error "Entry fee cannot be zero for a paid ETH drop.")
    else
      ethBalance <- call (EGetBalance address)
                         (fun env h => getBalance env h address) ;;
      if ethBalance <? valueToSend then
        throw (Error "Insufficient ETH balance to join.")
      else ret valueToSend
  else ret 0.

(** [fcContext?.user?.field] *)
Definition userField (field : FcUser -> option string)
  (fcContext : option FcUser) : option string :=
  match fcContext with
  | Some user => field user
  | None => None
  end.

Definition joinBody (address : string) (dropInfo : ExtendedDropInfo)
  (dropId : string) : M unit :=
  contractAddress <- ask contractAddress ;;
  valueToSend <- joinPayment contractAddress address dropInfo ;;
  fcContext <- call ESdkContext (fun env h => sdkContext env h) ;;
  let participantName :=
    Js.orElse (userField displayName fcContext)
      (Js.orElse (userField username fcContext)
         ("User-" +:+ Js.sliceFrom address (-4))) in
  dropIdBig <- BigInt dropId ;;
  hash <- walletClient_writeContract contractAddress "joinDrop"
            [AInt dropIdBig; AStr participantName] (Some valueToSend) ;;
  publicClient_waitForTransactionReceipt hash ;;;
  tryCatch
    (response <- postNotification
                   (joinPayload dropId address participantName dropInfo hash) ;;
     if negb (ok response) then
       errorData <- liftRes (json response) ;; ret tt
     else ret tt)
    (fun notificationError => ret tt) ;;;
  toast TSuccess ("Joined Drop #" +:+ dropId +:+ " successfully!") ;;;
  emit (ERefetch dropId).

Definition joinDrop (st : PageState) : M unit :=
  match ready st with
  | None => toast TError "Wallet not ready or drop info missing."
  | Some (address, dropInfo, dropId) =>
      alreadyJoined <-
        some (fun p => sameAddress (p_address p) address)
             (st_participants st) ;;
      if negb (isActive dropInfo) then
        toast TError "This drop is no longer active."
      else if isCompleted dropInfo then
        toast TError "This drop has already ended."
      else if alreadyJoined then
        toast TError "You have already joined this drop."
      else if maxParticipants dropInfo <=? currentParticipants dropInfo then
        toast TError "This drop is full."
      else if unfunded (isSponsored dropInfo) (sponsor dropInfo) then
        toast TError "This sponsored game is not funded yet."
      else
        isHost <- (if Js.truthy (host dropInfo)
                   then sameAddress (host dropInfo) address
                   else ret false) ;;
        if isHost then
          toast TError "As the host, you cannot join your own drop."
        else
          set (SetActionInProgress true) ;;;
          set (SetError None) ;;;
          tryFinally
            (tryCatch (joinBody address dropInfo dropId)
               (fun err =>
                  let errorMessage := shortError err "Failed to join drop" in
                  set (SetError (Some errorMessage)) ;;;
                  toast TError errorMessage))
            (set (SetActionInProgress false))
  end.

(** The scan of the receipt's logs for the [WinnersSelected] event of this
    drop; an undecodable log is skipped. *)
Fixpoint parseWinners (contractAddress dropId : string) (logs : list Log)
  : list string :=
  match logs with
  | [] => []
  | log :: r =>
      if negb (Js.eqb (Js.toLowerCase (log_address log))
                      (Js.toLowerCase contractAddress))
      then parseWinners contractAddress dropId r
      else
        match decodeWinnersSelected log with
        | Ok ev =>
            if Js.eqb (Viem.bigintToString (ev_dropId ev)) dropId
            then ev_winners ev
            else parseWinners contractAddress dropId r
        | Throw _ => parseWinners contractAddress dropId r
        end
  end.

Definition selectBody (dropInfo : ExtendedDropInfo) (dropId : string)
  : M (list Z) :=
  contractAddress <- ask contractAddress ;;
  if currentParticipants dropInfo <? numWinners dropInfo then
    throw (Error "Not enough participants.")
  else if negb (isActive dropInfo) then throw (Error "Drop is not active.")
  else if isCompleted dropInfo then throw (Error "Drop is already completed.")
  else
    dropIdBig <- BigInt dropId ;;
    hash <- walletClient_writeContract contractAddress "selectWinnersManually"
              [AInt dropIdBig] None ;;
    toast TInfo "Selecting winners... please wait." ;;;
    logs <- publicClient_waitForTransactionReceipt hash ;;
    let parsed := parseWinners contractAddress dropId logs in
    newWinnerAddresses <-
      (if Z.of_nat (List.length parsed) =? 0 then
         latestDropInfo <-
           call (EReadContract contractAddress "getDropInfo" [AInt dropIdBig])
                (fun env h => readDropInfo env h dropIdBig) ;;
         ret (d_winnersAddresses latestDropInfo)
       else ret parsed) ;;
    ps <- call (EReadContract contractAddress "getDropParticipants"
                  [AInt dropIdBig])
               (fun env h => readDropParticipants env h dropIdBig) ;;
    indices <- winnerIndicesOf newWinnerAddresses (fst ps) ;;
    set (SetDropInfoWinners newWinnerAddresses) ;;;
    set (SetWinnerIndices indices) ;;;
    set (SetAnimateWinners true) ;;;
    ret indices.

Definition selectWinnersManually (st : PageState) : M (list Z) :=
  match ready st with
  | None =>
      toast TError "Wallet not ready or drop info missing." ;;; ret []
  | Some (address, dropInfo, dropId) =>
      set (SetActionInProgress true) ;;;
      set (SetError None) ;;;
      tryFinally
        (tryCatch (selectBody dropInfo dropId)
           (fun err =>
              let errorMessage :=
                shortError err "Failed to select winners" in
              set (SetError (Some errorMessage)) ;;;
              toast TError errorMessage ;;;
              throw err))
        (set (SetActionInProgress false))
  end.

(** *** The prize list of a [WinnersSelected] event *)

Definition formatPrizeAmounts (prizeAmounts : list Z) (rewardType : RewardType)
  (rewardToken : string) (numWinners : Z) : M string :=
  tryCatch
    (match rewardType with
     | NFT => ret (Viem.bigintToString numWinners +:+ " NFT(s)")
     | _ =>
         decimals <- getTokenDecimals rewardToken ;;
         symbol <- match rewardType with
                   | ETH => ret "ETH"
                   | _ => readSymbolOrDefault rewardToken
                   end ;;
         ret (Js.join ", "
                (map (fun amount =>
                        Viem.formatUnits amount decimals +:+ " " +:+ symbol)
                     prizeAmounts))
     end)
    (fun e => ret (Viem.bigintToString numWinners +:+ " Prize(s)")).

Definition winnersPayload (dropId : string) (ev : WinnersSelectedArgs)
  (dropInfo : ExtendedDropInfo)
  (formattedPrizeAmounts rewardAmount tokenSymbol transactionHash : string)
  : NotificationData :=
  {| category := Some "winners-selected";
     dropId := Some dropId;
     creatorAddress := None;
     hostAddress := None;
     sponsorAddress := None;
     participantAddress := None;
     participantName := None;
     winnerAddresses := Some (ev_winners ev);
     Api.rewardAmount := Some rewardAmount;
     tokenSymbol := Some tokenSymbol;
     Api.maxParticipants := None;
     Api.numWinners := None;
     targetFids := None;
     prizeAmounts := Some formattedPrizeAmounts;
     platformFee := Some (Viem.formatEther (ev_platformFee ev));
     Api.rewardType := Some (rewardType dropInfo);
     Api.entryFee := None;
     transactionHash := Some transactionHash |}.

(** The watcher's callback for a [WinnersSelected] log of this drop;
    [dropInfo] is the page's state as the effect captured it. *)
Definition onWinnersSelected (dropInfo : option ExtendedDropInfo)
  (dropId : string) (log : Log) (transactionHash : string) : M unit :=
  tryCatch
    (ev <- liftRes (decodeWinnersSelected log) ;;
     match dropInfo with
     | None => ret tt
     | Some dropInfo =>
         formattedPrizeAmounts <-
           formatPrizeAmounts (ev_prizeAmounts ev) (rewardType dropInfo)
             (rewardToken dropInfo) (numWinners dropInfo) ;;
         tokenSymbol <-
           match rewardType dropInfo with
           | ETH => ret "ETH"
           | USDC => ret "USDC"
           | ERC20 =>
               tryCatch (publicClient_readSymbol (rewardToken dropInfo))
                        (fun e => ret "Tokens")
           | _ => ret "NFT"
           end ;;
         let rewardAmount :=
           Js.beforeFirst " " (Js.beforeFirst ", " formattedPrizeAmounts) in
         response <- postNotification
                       (winnersPayload dropId ev dropInfo
                          formattedPrizeAmounts rewardAmount tokenSymbol
                          transactionHash) ;;
         (if negb (ok response) then
            errorData <- liftRes (json response) ;;
            toast TWarn ("Notification failed: " +:+ snd errorData)
          else ret tt) ;;;
         toast TSuccess ("Winners for Drop #" +:+ dropId +:+ " selected!") ;;;
         emit (ERefetch dropId)
     end)
    (fun e => toast TWarn "Failed to process winner selection").

(** *** Cancelling and refunding *)

Definition cancelDrop (st : PageState) : M unit :=
  match ready st with
  | None => toast TError "Wallet not ready or drop info missing."
  | Some (address, dropInfo, dropId) =>
      if (maxParticipants dropInfo <=? currentParticipants dropInfo)
         && negb (isCompleted dropInfo)
      then
        toast TError
          "Cannot cancel a drop that is full and not yet completed via winner selection."
      else if negb (isActive dropInfo) then
        toast TError "Drop is not active to be cancelled."
      else if isCompleted dropInfo then
        toast TError "Drop is already completed."
      else
        set (SetActionInProgress true) ;;;
        set (SetError None) ;;;
        tryFinally
          (tryCatch
             (contractAddress <- ask contractAddress ;;
              dropIdBig <- BigInt dropId ;;
              hash <- walletClient_writeContract contractAddress "cancelDrop"
                        [AInt dropIdBig] None ;;
              publicClient_waitForTransactionReceipt hash ;;;
              toast TSuccess "Drop cancelled successfully" ;;;
              emit (ERefetch dropId))
             (fun err =>
                let errorMessage := shortError err "Failed to cancel drop" in
                set (SetError (Some errorMessage)) ;;;
                toast TError errorMessage))
          (set (SetActionInProgress false))
  end.

Definition claimRefund (st : PageState) : M unit :=
  match ready st with
  | None => toast TError "Wallet not ready or drop info missing."
  | Some (address, dropInfo, dropId) =>
      if isActive dropInfo then
        toast TError "Drop is still active. Cannot claim refund yet."
      else if negb (isCompleted dropInfo) then
        toast TError "Drop is not yet marked as completed/cancelled."
      else if negb (isPaidEntry dropInfo) then
        toast TError "This was not a paid entry drop."
      else
        participated <-
          some (fun p => sameAddress (p_address p) address)
               (st_participants st) ;;
        if negb participated then
          toast TError "You did not participate in this drop."
        else
          set (SetActionInProgress true) ;;;
          set (SetError None) ;;;
          tryFinally
            (tryCatch
               (contractAddress <- ask contractAddress ;;
                dropIdBig <- BigInt dropId ;;
                hash <- walletClient_writeContract contractAddress
                          "claimRefund" [AInt dropIdBig] None ;;
                publicClient_waitForTransactionReceipt hash ;;;
                toast TSuccess "Refund claimed successfully!" ;;;
                emit (ERefetch dropId))
               (fun err =>
                  let errorMessage :=
                    shortError err "Failed to claim refund" in
                  set (SetError (Some errorMessage)) ;;;
                  toast TError errorMessage))
            (set (SetActionInProgress false))
  end.

(** *** What the page derives for its buttons *)

(** [address && participants.some(...)], as a condition. *)
Definition isUserParticipant (st : PageState) : M bool :=
  match st_address st with
  | Some address =>
      if Js.truthy address
      then some (fun p => sameAddress (p_address p) address)
                (st_participants st)
      else ret false
  | None => ret false
  end.

Definition isUserHost (st : PageState) (dropInfo : ExtendedDropInfo)
  : M bool :=
  match st_address st with
  | Some address =>
      if Js.truthy address && Js.truthy (host dropInfo)
      then sameAddress (host dropInfo) address
      else ret false
  | None => ret false
  end.

Definition uiIsEffectivelyCancelled (dropInfo : ExtendedDropInfo) : bool :=
  negb (isActive dropInfo) && isCompleted dropInfo
  && (Z.of_nat (List.length (winners dropInfo)) =? 0).

(** What a render derives, in the order the page computes it. *)
Record Derived := {
  userHost : bool;
  userParticipant : bool;
  effectivelyCancelled : bool
}.

Definition derive (st : PageState) (dropInfo : ExtendedDropInfo)
  : M Derived :=
  host <- isUserHost st dropInfo ;;
  participant <- isUserParticipant st ;;
  ret {| userHost := host; userParticipant := participant;
         effectivelyCancelled := uiIsEffectivelyCancelled dropInfo |}.

(** The Join Drop button is rendered and not disabled. *)
Definition joinButtonEnabled (st : PageState) (dropInfo : ExtendedDropInfo)
  (actionInProgress : bool) (d : Derived) : bool :=
  let shown :=
    negb (isCompleted dropInfo) && isActive dropInfo
    && negb (effectivelyCancelled d) in
  let disabled :=
    actionInProgress || negb (st_isConnected st)
    || negb (Js.truthyOpt (st_address st)) || userParticipant d
    || (maxParticipants dropInfo <=? currentParticipants dropInfo)
    || negb (isActive dropInfo) || isCompleted dropInfo in
  shown && negb disabled.

(** The Cancel Drop button is rendered and not disabled. *)
Definition cancelButtonEnabled (dropInfo : ExtendedDropInfo)
  (actionInProgress : bool) (d : Derived) : bool :=
  let shown :=
    userHost d && isActive dropInfo && negb (isCompleted dropInfo)
    && negb (effectivelyCancelled d) in
  let disabled :=
    actionInProgress || isCompleted dropInfo || negb (isActive dropInfo)
    || (maxParticipants dropInfo <=? currentParticipants dropInfo) in
  shown && negb disabled.

(** The Claim Refund button is rendered and not disabled. *)
Definition refundButtonEnabled (dropInfo : ExtendedDropInfo)
  (actionInProgress : bool) (d : Derived) : bool :=
  let shown :=
    userParticipant d && effectivelyCancelled d && isPaidEntry dropInfo in
  shown && negb actionInProgress.

End DropDetailPage.

(** ** The drop creation page *)
Module CreateDropPage.
Import Eff Api Client.

Definition USDC_BASE_ADDRESS : string :=
  "0x833589fCD6eDb6E08f4c7C32D4f71b54bdA02913".

Definition MAX_PARTICIPANTS_LIMIT : Z := 100.
Definition MAX_WINNERS_LIMIT : Z := 3.

(** JavaScript numbers that are not integers are binary64 [float]s.  The
    conversions between text and numbers, and viem's [parseUnits], are taken
    as given. *)
Record Numeric := {
  parseFloat : string -> float;
  toFixed : float -> Z -> string;
  parseUnits : string -> Z -> Res Z
}.

Definition parseEther (js : Numeric) (ether : string) : Res Z :=
  parseUnits js ether 18.

(** An integer-valued number as a [float]. *)
Definition ofInt (z : Z) : float := PrimFloat.of_uint63 (Uint63.of_Z z).

(** The literal [1e-9] (its nearest binary64 value). *)
Definition epsilon : float := 0x1.12e0be826d695p-30%float.

Inductive FundingType := HostFunded | ParticipantPaid.
Inductive SelectionType := Manual | Automatic.

(** The form's state.  [numWinners] is a [number] that the page only ever
    sets to integers (its initial 1, [parseInt] of an option value 1..3, or
    [Math.max(1, n - 1)] of a parsed integer). *)
Record FormState := {
  fundingType : FundingType;
  isSponsoredGame : bool;
  selectedRewardType : RewardType;
  entryFeeString : string;
  rewardAmountString : string;
  rewardTokenAddress : string;
  rewardTokenIdsString : string;
  fetchedTokenSymbol : string;
  maxParticipants : string;
  numWinners : Z;
  selectionType : SelectionType;
  errorMessage : option string
}.

Record Wallet := {
  isConnected : bool;
  walletClient : bool;
  address : option string
}.

Definition getTokenDecimals (tokenAddress : string) : M Z :=
  if Js.eqb tokenAddress ZERO_ADDRESS then ret 18
  else
    tryCatch
      (decimals <- publicClient_readDecimals tokenAddress ;;
       ret decimals)
      (fun _ => ret 18).

Definition reject (msg : string) : M bool :=
  set (SetErrorMessage (Some msg)) ;;; ret false.

(** [!s || parseFloat(s) <= 0] *)
Definition notPositive (js : Numeric) (s : string) : bool :=
  negb (Js.truthy s) || PrimFloat.leb (parseFloat js s) 0%float.

(** [ids.split(",").map(id => id.trim()).filter(Boolean)] *)
Definition tokenIdsOf (rewardTokenIdsString : string) : list string :=
  List.filter Js.truthy
    (map (fun id => Js.ofChars (Js.trim (Js.chars id)))
         (Js.split "," rewardTokenIdsString)).

(** [isNaN(parseInt(id)) || parseInt(id) < 0] *)
Definition badTokenId (id : string) : bool :=
  match Js.parseInt id with
  | None => true
  | Some n => n <? 0
  end.

Definition amountCheck (js : Numeric) (isActuallyPaidEntry : bool)
  (f : FormState) (unit : string) (k : M bool) : M bool :=
  if isActuallyPaidEntry then
    if notPositive js (entryFeeString f)
    then reject ("Entry fee (" +:+ unit +:+ ") must be > 0.")
    else k
  else
    if notPositive js (rewardAmountString f)
    then reject ("Reward amount (" +:+ unit +:+ ") must be > 0.")
    else k.

(** The closing check of a paid-entry drop: the reward must be the entry fee
    times the number of participants. *)
Definition rewardMatches (js : Numeric) (isActuallyPaidEntry : bool)
  (f : FormState) (participants : Z) : M bool :=
  if isActuallyPaidEntry
     && negb (match selectedRewardType f with NFT => true | _ => false end)
  then
    let fee := parseFloat js (entryFeeString f) in
    let calculatedReward :=
      parseFloat js (toFixed js (PrimFloat.mul fee (ofInt participants)) 10) in
    let reward := parseFloat js (rewardAmountString f) in
    if negb (Js.truthy (rewardAmountString f))
       || PrimFloat.ltb epsilon
            (PrimFloat.abs (PrimFloat.sub reward calculatedReward))
       || PrimFloat.leb reward 0%float
    then reject "Reward amount must match Entry Fee * Max Participants."
    else ret true
  else ret true.

Definition validateByRewardType (js : Numeric) (f : FormState)
  (participants currentNumWinners : Z) : M bool :=
  let isActuallyPaidEntry :=
    match fundingType f with ParticipantPaid => true | HostFunded => false end in
  let finish := rewardMatches js isActuallyPaidEntry f participants in
  match selectedRewardType f with
  | NFT =>
      if isActuallyPaidEntry then reject "NFT drops must be Host-Funded."
      else if negb (Js.truthy (rewardTokenAddress f))
              || negb (Viem.isAddress (rewardTokenAddress f))
      then reject "Valid NFT Contract Address required."
      else
        let tokenIds := tokenIdsOf (rewardTokenIdsString f) in
        if negb (Z.of_nat (List.length tokenIds) =? currentNumWinners)
        then reject ("Provide exactly "
                     +:+ Viem.bigintToString currentNumWinners
                     +:+ " NFT Token ID(s).")
        else if existsb badTokenId tokenIds
        then reject "NFT Token IDs must be valid non-negative numbers."
        else finish
  | USDC =>
      given <- getAddress (rewardTokenAddress f) ;;
      fixed <- getAddress USDC_BASE_ADDRESS ;;
      if negb (Js.eqb given fixed) then reject "USDC token address is fixed."
      else amountCheck js isActuallyPaidEntry f "USDC" finish
  | ERC20 =>
      if negb (Js.truthy (rewardTokenAddress f))
         || negb (Viem.isAddress (rewardTokenAddress f))
      then reject "Valid Token Contract Address required."
      else amountCheck js isActuallyPaidEntry f "tokens" finish
  | ETH => amountCheck js isActuallyPaidEntry f "ETH" finish
  | Unlisted _ => finish
  end.

Definition validateInputs (js : Numeric) (f : FormState) : M bool :=
  set (SetErrorMessage None) ;;;
  match Js.parseInt (maxParticipants f) with
  | None =>
      reject ("Max participants must be between 1 and "
              +:+ Viem.bigintToString MAX_PARTICIPANTS_LIMIT +:+ ".")
  | Some participants =>
      if (participants <=? 0) || (MAX_PARTICIPANTS_LIMIT <? participants)
      then reject ("Max participants must be between 1 and "
                   +:+ Viem.bigintToString MAX_PARTICIPANTS_LIMIT +:+ ".")
      else
        let currentNumWinners := numWinners f in
        if (currentNumWinners <=? 0)
           || (MAX_WINNERS_LIMIT <? currentNumWinners)
           || (participants <=? currentNumWinners)
        then reject ("Number of winners must be between 1 and "
                     +:+ Viem.bigintToString
                           (Z.min (participants - 1) MAX_WINNERS_LIMIT)
                     +:+ ".")
        else validateByRewardType js f participants currentNumWinners
  end.

Definition isHostFunded (f : FormState) : bool :=
  match fundingType f with HostFunded => true | ParticipantPaid => false end.

(** The amounts of an ETH drop: entry fee, reward and the value to send. *)
Definition ethAmounts (js : Numeric) (f : FormState) : M (Z * Z * Z) :=
  finalEntryFeeBigInt <-
    (if isHostFunded f then ret 0
     else liftRes (parseEther js (entryFeeString f))) ;;
  finalRewardAmountBigInt <- liftRes (parseEther js (rewardAmountString f)) ;;
  let ethValueToSend :=
    if isHostFunded f && negb (isSponsoredGame f)
    then finalRewardAmountBigInt else 0 in
  ret (finalEntryFeeBigInt, finalRewardAmountBigInt, ethValueToSend).

(** The amounts of a token drop, with the approval a host-funded one needs. *)
Definition tokenAmounts (js : Numeric) (f : FormState)
  (contractAddress effectiveRewardTokenAddr : string) : M (Z * Z * Z) :=
  decimals <- getTokenDecimals effectiveRewardTokenAddr ;;
  finalEntryFeeBigInt <-
    (if isHostFunded f then ret 0
     else liftRes (parseUnits js (entryFeeString f) decimals)) ;;
  finalRewardAmountBigInt <-
    liftRes (parseUnits js (rewardAmountString f) decimals) ;;
  (if isHostFunded f && negb (isSponsoredGame f) then
     toast TInfo ("Approving " +:+ rewardAmountString f +:+ " "
                  +:+ (if Js.truthy (fetchedTokenSymbol f)
                       then fetchedTokenSymbol f else "tokens")
                  +:+ "...") ;;;
     approveHash <- walletClient_writeContract effectiveRewardTokenAddr
                      "approve"
                      [AStr contractAddress; AInt finalRewardAmountBigInt]
                      None ;;
     publicClient_waitForTransactionReceipt approveHash ;;;
     toast TSuccess "Token approval successful!"
   else ret tt) ;;;
  ret (finalEntryFeeBigInt, finalRewardAmountBigInt, 0).

Fixpoint approveNfts (contractAddress effectiveRewardTokenAddr : string)
  (ids : list Z) : M unit :=
  match ids with
  | [] => ret tt
  | tokenId :: r =>
      toast TInfo ("Approving NFT ID: " +:+ Viem.bigintToString tokenId
                   +:+ "...") ;;;
      approveNftHash <- walletClient_writeContract effectiveRewardTokenAddr
                          "approve" [AStr contractAddress; AInt tokenId]
                          None ;;
      publicClient_waitForTransactionReceipt approveNftHash ;;;
      toast TSuccess ("NFT ID: " +:+ Viem.bigintToString tokenId
                      +:+ " approved!") ;;;
      approveNfts contractAddress effectiveRewardTokenAddr r
  end.

(** The scan of the receipt's logs for [DropCreated]; ["0"] when none. *)
Fixpoint parseDropId (contractAddress : string) (logs : list Log) : string :=
  match logs with
  | [] => "0"
  | log :: r =>
      if negb (Js.eqb (Js.toLowerCase (log_address log))
                      (Js.toLowerCase contractAddress))
      then parseDropId contractAddress r
      else
        match decodeAbi log with
        | Ok (eventName, Some dropId) =>
            if Js.eqb eventName "DropCreated"
            then Viem.bigintToString dropId
            else parseDropId contractAddress r
        | _ => parseDropId contractAddress r
        end
  end.

Definition createdPayload (callIsSponsored : bool) (dropId address : string)
  (f : FormState) (actualNumWinners : Z) (txHash : string)
  : NotificationData :=
  {| category := Some (if callIsSponsored then "game-sponsored"
                       else "game-created");
     dropId := Some dropId;
     creatorAddress := None;
     hostAddress := Some address;
     sponsorAddress := None;
     participantAddress := None;
     participantName := None;
     winnerAddresses := None;
     Api.rewardAmount := Some (rewardAmountString f);
     tokenSymbol :=
       Some (if Js.truthy (fetchedTokenSymbol f) then fetchedTokenSymbol f
             else match selectedRewardType f with
                  | ETH => "ETH"
                  | _ => "Unknown"
                  end);
     Api.maxParticipants := Js.parseInt (maxParticipants f);
     Api.numWinners := Some actualNumWinners;
     targetFids := None;
     prizeAmounts := None;
     platformFee := None;
     Api.rewardType := None;
     Api.entryFee := Some (if Js.truthy (entryFeeString f)
                       then entryFeeString f else "0");
     transactionHash := Some txHash |}.

Definition notifyCreated (body : NotificationData) : M unit :=
  tryCatch
    (response <- postNotification body ;;
     result <- liftRes (json response) ;;
     if negb (ok response) then
       toast TWarn ("Notification failed: " +:+ snd result)
     else if negb (fst result) then
       toast TWarn ("Notification failed: " +:+ snd result)
     else ret tt)
    (fun notificationError => toast TWarn "Failed to send notification").

Definition RangeError : JsError :=
  Error "The number NaN cannot be converted to a BigInt".

Definition submitBody (js : Numeric) (address : string) (f : FormState)
  : M unit :=
  contractAddress <- ask contractAddress ;;
  let isActuallyPaidEntry := negb (isHostFunded f) in
  let isManual :=
    match selectionType f with Manual => true | Automatic => false end in
  participantsCount <- orThrow (Js.parseInt (maxParticipants f)) RangeError ;;
  let actualNumWinners := numWinners f in
  effectiveRewardTokenAddr <-
    match selectedRewardType f with
    | USDC => ret USDC_BASE_ADDRESS
    | ERC20 | NFT => getAddress (rewardTokenAddress f)
    | _ => ret ZERO_ADDRESS
    end ;;
  prepared <-
    match selectedRewardType f with
    | ETH => amounts <- ethAmounts js f ;; ret (amounts, [])
    | USDC | ERC20 =>
        amounts <- tokenAmounts js f contractAddress
                     effectiveRewardTokenAddr ;;
        ret (amounts, [])
    | NFT =>
        finalRewardTokenIds <-
          mapM BigInt (Js.split "," (rewardTokenIdsString f)) ;;
        (if isHostFunded f && negb (isSponsoredGame f)
         then approveNfts contractAddress effectiveRewardTokenAddr
                finalRewardTokenIds
         else ret tt) ;;;
        ret ((0, 0, 0), finalRewardTokenIds)
    | Unlisted _ => ret ((0, 0, 0), [])
    end ;;
  let '(finalEntryFeeBigInt, finalRewardAmountBigInt, ethValueToSend,
        finalRewardTokenIds) := prepared in
  let callIsSponsored := isHostFunded f && isSponsoredGame f in
  txHash <-
    (if callIsSponsored then
       toast TInfo "Creating sponsored game..." ;;;
       walletClient_writeContract contractAddress "sponsorGame"
         [AInt finalRewardAmountBigInt; AStr effectiveRewardTokenAddr;
          AReward (selectedRewardType f); AInts finalRewardTokenIds;
          AInt participantsCount; ABool isManual; AInt actualNumWinners]
         (Some 0)
     else
       toast TInfo "Creating drop..." ;;;
       walletClient_writeContract contractAddress "createDrop"
         [AInt finalEntryFeeBigInt; AInt finalRewardAmountBigInt;
          AStr effectiveRewardTokenAddr; AReward (selectedRewardType f);
          AInts finalRewardTokenIds; AInt participantsCount;
          ABool isActuallyPaidEntry; ABool isManual; AInt actualNumWinners]
         (Some ethValueToSend)) ;;
  logs <- publicClient_waitForTransactionReceipt txHash ;;
  let dropId := parseDropId contractAddress logs in
  notifyCreated
    (createdPayload callIsSponsored dropId address f actualNumWinners
       txHash) ;;;
  toast TSuccess ("Drop created! Tx: " +:+ Js.slice txHash 0 10 +:+ "...") ;;;
  emit (ENavigate "/available").

Definition handleSubmit (js : Numeric) (w : Wallet) (f : FormState)
  : M unit :=
  match address w with
  | Some address =>
      if negb (isConnected w) || negb (walletClient w)
         || negb (Js.truthy address)
      then toast TError "Please connect your wallet."
      else
        valid <- validateInputs js f ;;
        if negb valid then
          toast TError (Js.orElse (errorMessage f) "Form errors detected.")
        else
          set (SetIsSubmitting true) ;;;
          tryFinally
            (tryCatch (submitBody js address f)
               (fun error =>
                  let message := shortError error "Unknown error." in
                  set (SetErrorMessage (Some message)) ;;;
                  toast TError message))
            (set (SetIsSubmitting false))
  | None => toast TError "Please connect your wallet."
  end.

(** *** The form's controls *)

(** The values of the options [generateWinnerOptions] renders. *)
Definition generateWinnerOptions (maxParticipants : string) : list Z :=
  match Js.parseInt maxParticipants with
  | None => [1]
  | Some currentMaxParticipants =>
      if currentMaxParticipants <=? 1 then [1]
      else
        let maxPossibleWinners := Z.max 1 (currentMaxParticipants - 1) in
        let limit := Z.min maxPossibleWinners MAX_WINNERS_LIMIT in
        map Z.of_nat (seq 1 (Z.to_nat limit))
  end.

(** The change handler of the Max Participants input: the new
    [maxParticipants] and [numWinners]. *)
Definition onMaxParticipantsChange (val : string) (f : FormState)
  : FormState :=
  let currentNumWinners := numWinners f in
  let newMaxParticipants :=
    match Js.parseInt val with Some n => n | None => 0 end in
  let newNumWinners :=
    if (0 <? newMaxParticipants)
       && (newMaxParticipants <=? currentNumWinners)
    then Z.max 1 (newMaxParticipants - 1)
    else if (newMaxParticipants <=? 1) && (0 <? currentNumWinners) then 1
    else numWinners f in
  {| fundingType := fundingType f;
     isSponsoredGame := isSponsoredGame f;
     selectedRewardType := selectedRewardType f;
     entryFeeString := entryFeeString f;
     rewardAmountString := rewardAmountString f;
     rewardTokenAddress := rewardTokenAddress f;
     rewardTokenIdsString := rewardTokenIdsString f;
     fetchedTokenSymbol := fetchedTokenSymbol f;
     maxParticipants := val;
     numWinners := newNumWinners;
     selectionType := selectionType f;
     errorMessage := errorMessage f |}.

(** The change handler of the Number of Winners select, on one of the
    rendered option values. *)
Definition onNumWinnersChange (value : Z) (f : FormState) : FormState :=
  {| fundingType := fundingType f;
     isSponsoredGame := isSponsoredGame f;
     selectedRewardType := selectedRewardType f;
     entryFeeString := entryFeeString f;
     rewardAmountString := rewardAmountString f;
     rewardTokenAddress := rewardTokenAddress f;
     rewardTokenIdsString := rewardTokenIdsString f;
     fetchedTokenSymbol := fetchedTokenSymbol f;
     maxParticipants := maxParticipants f;
     numWinners := value;
     selectionType := selectionType f;
     errorMessage := errorMessage f |}.

End CreateDropPage.

(** ** The frame (unfurl) handler *)
Module FrameHandler.
Import Eff Api.

Definition ZERO_ADDRESS : string := Client.ZERO_ADDRESS.

(** A value of [req.query]. *)
Inductive QueryValue :=
| QUndefined
| QString (s : string)
| QArray (l : list string).

Inductive Event :=
| EImport (path : string)
| EReadContract (address functionName : string) (args : list Z)
| EReadFile (path : string)
| ELog (text : string)
| ESetHeader (name value : string)
| ESend (status : Z) (body : string).

(** The module-level variables holding the dynamically imported modules:
    [None] before the import, then whether the module has the export the
    handler asks it for. *)
Record Modules := {
  FIREBALL_DROP_ABI_MODULE : option bool;
  ERC20_MINIMAL_ABI_MODULE : option bool;
  REWARD_TYPE_MODULE : option bool
}.

Record Env := {
  CONTRACT_ADDRESS_SERVER : option string;
  ALCHEMY_API_KEY_SERVER : option string;
  APP_URL : option string;
  importModule : list Event -> string -> Res bool;
  readDropInfo : list Event -> Z -> Res Client.DropDetails;
  readDecimals : list Event -> string -> Res Z;
  readSymbol : list Event -> string -> Res string;
  readFileSync : list Event -> string -> Res string
}.

Definition M := Eff.M Env Event.

Definition APP_BASE_URL (env : Env) : string :=
  Js.orElse (APP_URL env) "https://fireball-rho.vercel.app".

Definition indexPath : string := "dist/index.html".

Definition importOnce (loaded : option bool) (path : string)
  : M (option bool) :=
  match loaded with
  | Some b => ret (Some b)
  | None =>
      m <- call (EImport path) (fun env h => importModule env h path) ;;
      ret (Some m)
  end.

Definition ensureModulesLoaded (mods : Modules) : M Modules :=
  abi <- importOnce (FIREBALL_DROP_ABI_MODULE mods)
           "../src/utils/cjs/FireballDropAbi.cjs" ;;
  erc20 <- importOnce (ERC20_MINIMAL_ABI_MODULE mods)
             "../src/utils/cjs/erc20.cjs" ;;
  rewardType <- importOnce (REWARD_TYPE_MODULE mods)
                  "../src/types/cjs/global.cjs" ;;
  ret {| FIREBALL_DROP_ABI_MODULE := abi;
         ERC20_MINIMAL_ABI_MODULE := erc20;
         REWARD_TYPE_MODULE := rewardType |}.

Definition hasExport (m : option bool) : bool :=
  match m with Some true => true | _ => false end.

(** [getServerConfig()]; its value here is the contract address. *)
Definition getServerConfig (mods : Modules) : M string :=
  contract <- ask CONTRACT_ADDRESS_SERVER ;;
  key <- ask ALCHEMY_API_KEY_SERVER ;;
  if negb (Js.truthyOpt contract) then
    throw (Error "CONTRACT_ADDRESS environment variable is not set for server.")
  else if negb (Js.truthyOpt key) then
    throw (Error "ALCHEMY_API_KEY environment variable is not set for server.")
  else if negb (hasExport (FIREBALL_DROP_ABI_MODULE mods)) then
    throw (Error
      "FIREBALL_DROP_ABI has not been loaded. Call ensureModulesLoaded first.")
  else ret (Js.show contract).

Definition getTokenDecimalsServer (mods : Modules) (tokenAddress : string)
  : M Z :=
  if Js.eqb tokenAddress ZERO_ADDRESS then ret 18
  else if negb (hasExport (ERC20_MINIMAL_ABI_MODULE mods)) then
    throw (Error
      "ERC20_MINIMAL_ABI has not been loaded. Call ensureModulesLoaded first.")
  else
    getServerConfig mods ;;;
    tryCatch
      (decimals <- call (EReadContract tokenAddress "decimals" [])
                        (fun env h => readDecimals env h tokenAddress) ;;
       ret decimals)
      (fun _ => ret 18).

Definition formatRewardDisplayServer (mods : Modules)
  (rawAmount : Z) (currentRewardType : RewardType)
  (rewardTokenAddress : string) (numWinners : Z)
  (rewardTokenIds : list string) : M string :=
  if negb (hasExport (REWARD_TYPE_MODULE mods)) then
    throw (Error
      "RewardType has not been loaded. Call ensureModulesLoaded first.")
  else
    match currentRewardType with
    | ETH => ret (Viem.formatEther rawAmount +:+ " ETH")
    | USDC | ERC20 =>
        decimals <- getTokenDecimalsServer mods rewardTokenAddress ;;
        getServerConfig mods ;;;
        symbol <-
          tryCatch
            (symbol <- call (EReadContract rewardTokenAddress "symbol" [])
                            (fun env h =>
                               readSymbol env h rewardTokenAddress) ;;
             ret (if Js.eqb (Js.toUpperCase symbol) "FIREBALL"
                  then "fire-ball" else symbol))
            (fun _ => ret "Tokens") ;;
        ret (Viem.formatUnits rawAmount decimals +:+ " " +:+ symbol)
    | NFT =>
        let count :=
          if 0 <? Z.of_nat (List.length rewardTokenIds)
          then Z.of_nat (List.length rewardTokenIds) else numWinners in
        ret (Viem.bigintToString count +:+ " NFT(s)")
    | Unlisted _ => ret "N/A"
    end.

(** [Some rewardAmountFormatted], or [None] for [null]. *)
Definition getMinimalDropDataForFrame (mods : Modules) (dropIdStr : string)
  : M (option string) :=
  tryCatch
    (contractAddress <- getServerConfig mods ;;
     dropIdBig <- orThrow (Js.BigInt dropIdStr) (Client.SyntaxError dropIdStr) ;;
     d <- call (EReadContract contractAddress "getDropInfo" [dropIdBig])
               (fun env h => readDropInfo env h dropIdBig) ;;
     let tokenIdsStr :=
       map Viem.bigintToString (Client.d_rewardTokenIdsBigInt d) in
     rewardAmountFormatted <-
       formatRewardDisplayServer mods
         (Client.d_rawRewardAmountFromContract d) (Client.d_rewardTypeNum d)
         (Client.d_rewardToken d) (Client.d_numWinners d) tokenIdsStr ;;
     ret (Some rewardAmountFormatted))
    (fun error => ret None).

Definition serveOriginalIndex (reason : string) : M unit :=
  emit (ELog ("[Server Frame Handler] Serving original index.html. Reason: "
              +:+ reason)) ;;;
  tryCatch
    (fallbackHtml <- call (EReadFile indexPath)
                          (fun env h => readFileSync env h indexPath) ;;
     emit (ESetHeader "Content-Type" "text/html") ;;;
     emit (ESend 200 fallbackHtml))
    (fun fallbackError =>
       emit (ESend 500 ("Critical error serving fallback: "
                        +:+ Js.show (message fallbackError)))).

(** The zero-width space U+200B. *)
Definition zeroWidthSpace : string := Js.ofCodes [226; 128; 139].

(** The keyword workaround on the prize description. *)
Definition breakKeyword (prizeDescription : string) : string :=
  if Js.wordOccurs "fireball" prizeDescription
  then Js.replaceAll (Js.literalCI "fireball")
         ("fireb" +:+ zeroWidthSpace +:+ "all") prizeDescription
  else prizeDescription.

Definition jsonField (name value : string) : string :=
  Js.jsonString name +:+ ":" +:+ value.

Definition fcFrameMetaContent
  (frameImageUrl frameButtonTitle frameSpecificDropUrl splashImageUrl : string)
  : string :=
  "{" +:+ jsonField "version" (Js.jsonString "next")
  +:+ "," +:+ jsonField "imageUrl" (Js.jsonString frameImageUrl)
  +:+ "," +:+ jsonField "button"
       ("{" +:+ jsonField "title"
              (Js.jsonString (Js.slice frameButtonTitle 0 256))
        +:+ "," +:+ jsonField "action"
             ("{" +:+ jsonField "type" (Js.jsonString "launch_frame")
              +:+ "," +:+ jsonField "url" (Js.jsonString frameSpecificDropUrl)
              +:+ "," +:+ jsonField "name" (Js.jsonString "Fireball☄️")
              +:+ "," +:+ jsonField "splashImageUrl"
                   (Js.jsonString splashImageUrl)
              +:+ "," +:+ jsonField "splashBackgroundColor"
                   (Js.jsonString "#1f2937")
              +:+ "}")
        +:+ "}")
  +:+ "}".

Definition attr (name value : string) : string :=
  name +:+ "=" +:+ Js.quote +:+ value +:+ Js.quote.

Definition ogMetaTags
  (dropId prizeDescription frameImageUrl frameSpecificDropUrl : string)
  : string :=
  Js.newline
  +:+ "      <meta " +:+ attr "property" "og:title" +:+ " "
      +:+ attr "content"
            ("Fireball Drop #" +:+ dropId +:+ " - " +:+ prizeDescription)
      +:+ " />" +:+ Js.newline
  +:+ "      <meta " +:+ attr "property" "og:image" +:+ " "
      +:+ attr "content" frameImageUrl +:+ " />" +:+ Js.newline
  +:+ "      <meta " +:+ attr "property" "og:description" +:+ " "
      +:+ attr "content"
            ("Join Fireball Drop #" +:+ dropId +:+ " on Fireball!")
      +:+ "/>" +:+ Js.newline
  +:+ "      <meta " +:+ attr "property" "og:url" +:+ " "
      +:+ attr "content" frameSpecificDropUrl +:+ " />" +:+ Js.newline
  +:+ "    ".

(** The global pattern of one double quote. *)
Definition quoteAt (s : list ascii) : option nat :=
  match s with
  | c :: _ => if Js.code c =? 34 then Some 1%nat else None
  | [] => None
  end.

Definition fcFrameMetaTag (content : string) : string :=
  "<meta " +:+ attr "name" "fc:frame" +:+ " content=" +:+ Js.quote
  +:+ Js.replaceAll quoteAt "&quot;" content +:+ Js.quote +:+ " />".

(** The pattern [<meta\s+name=NAME[^>]*>], NAME in double quotes, without
    case, at the head of the input. *)
Definition metaTagAt (name : string) (s : list ascii) : option nat :=
  match Js.afterPrefix Js.eqCI (Js.chars "<meta") s with
  | Some r =>
      let spaces := Js.takeWhile Js.isWhiteSpace r in
      match spaces with
      | [] => None
      | _ =>
          match Js.afterPrefix Js.eqCI
                  (Js.chars ("name=" +:+ Js.quote +:+ name +:+ Js.quote))
                  (Js.dropWhile Js.isWhiteSpace r) with
          | Some r' =>
              let body :=
                Js.takeWhile (fun c => negb (Ascii.eqb c ">")) r' in
              match Js.dropWhile (fun c => negb (Ascii.eqb c ">")) r' with
              | _ :: _ =>
                  Some (List.length s
                        - List.length r'
                        + List.length body + 1)%nat
              | [] => None
              end
          | None => None
          end
      end
  | None => None
  end.

Definition placeholder : string := "<!--FC_FRAME_META_TAG_PLACEHOLDER-->".

(** The page with the frame's metadata in place of its own. *)
Definition injectMeta (html metaTagsToInject : string) : string :=
  let html := Js.replaceAll (metaTagAt "fc:frame") "" html in
  let html := Js.replaceAll (metaTagAt "fc:frame-default-for-spa") "" html in
  if Js.includes html placeholder
  then Js.replaceFirst html placeholder metaTagsToInject
  else Js.replaceFirst html "</head>" (metaTagsToInject +:+ "</head>").

Definition frame (mods : Modules) (dropId : string) : M unit :=
  dropData <- getMinimalDropDataForFrame mods dropId ;;
  base <- ask APP_BASE_URL ;;
  let frameSpecificDropUrl := base +:+ "/drop/" +:+ dropId in
  let prizeDescription :=
    match dropData with
    | Some rewardAmountFormatted => rewardAmountFormatted
    | None => "an exciting prize"
    end in
  let prizeDescription := breakKeyword prizeDescription in
  let frameButtonTitle :=
    "View Drop #" +:+ dropId +:+ " - " +:+ prizeDescription +:+ "!" in
  let frameImageUrl := base +:+ "/image.png" in
  let splashImageUrl := base +:+ "/logo.jpg" in
  let content :=
    fcFrameMetaContent frameImageUrl frameButtonTitle frameSpecificDropUrl
      splashImageUrl in
  let metaTagsToInject :=
    Js.newline +:+ fcFrameMetaTag content +:+ Js.newline
    +:+ ogMetaTags dropId prizeDescription frameImageUrl frameSpecificDropUrl
    +:+ Js.newline in
  html <- call (EReadFile indexPath)
               (fun env h => readFileSync env h indexPath) ;;
  emit (ESetHeader "Content-Type" "text/html") ;;;
  emit (ESend 200 (injectMeta html metaTagsToInject)).

Definition handler (mods : Modules) (dropId : QueryValue) : M unit :=
  mods <- ensureModulesLoaded mods ;;
  match dropId with
  | QString dropId =>
      if Js.isDecimalDigits dropId then
        tryCatch (frame mods dropId)
          (fun error =>
             serveOriginalIndex ("Error processing request: "
                                 +:+ Js.show (message error)))
      else serveOriginalIndex "Invalid Drop ID format."
  | _ => serveOriginalIndex "Invalid Drop ID format."
  end.

End FrameHandler.

(** ** The [send-notification] handler *)
Module SendNotification.
Import Eff Api.

Record Profile := {
  fid : option Z;
  username : option string;
  displayName : option string;
  pfpUrl : option string;
  custodyAddress : string
}.

(** A user of the identity API's answer. *)
Record NeynarUser := {
  u_fid : option Z;
  u_username : option string;
  u_display_name : option string;
  u_pfp_url : option string
}.

Record Notification := {
  title : string;
  body : string;
  target_url : string
}.

(** What the handler returns: [{success, message}]. *)
Record Result := {
  success : bool;
  r_message : string
}.

Inductive Event :=
| ESupabaseSelect
| EFetchProfiles (requestUrl : string)
| ECacheSet (address : string) (profile : Profile)
| EUuid
| EFetchNotifications (target_fids : list Z) (notification : Notification)
    (uuid : string).

Record BulkResponse := {
  b_ok : bool;
  b_status : Z;
  b_json : Res (list (string * list NeynarUser))
}.

Record SendResponse := {
  s_ok : bool;
  s_status : Z;
  s_json : Res unit
}.

(** The answer of [supabase.from("frame_users").select("fid")]: the [fid]
    column of the rows ([None] for a null [data]) and whether [error] is
    set. *)
Record SupabaseAnswer := {
  error : bool;
  data : option (list (option Z))
}.

(** The environment of one request; [profileCache] is the process-wide cache
    as the request finds it. *)
Record Env := {
  NEYNAR_API_KEY : option string;
  profileCache : gmap string Profile;
  supabaseSelect : list Event -> Res SupabaseAnswer;
  fetchProfiles : list Event -> string -> Res BulkResponse;
  uuidv4 : list Event -> string;
  fetchNotifications :
    list Event -> list Z -> Notification -> string -> Res SendResponse
}.

Definition M := Eff.M Env Event.

Definition NEYNAR_API_USER_BULK_BY_ADDRESS_URL : string :=
  "https://api.neynar.com/v2/farcaster/user/bulk-by-address".

(** The cache after the writes of a history. *)
Definition cacheAfter (env : Env) (h : list Event) : gmap string Profile :=
  fold_left (fun cache e =>
               match e with
               | ECacheSet address profile => <[address := profile]> cache
               | _ => cache
               end) h (profileCache env).

Definition cacheGet (address : string) : M (option Profile) :=
  fun env h => (Ok (cacheAfter env h !! address), h).

Definition cacheSet (address : string) (profile : Profile) : M unit :=
  emit (ECacheSet address profile).

(** A number is truthy unless it is 0; null and undefined are not. *)
Definition truthyFid (fid : option Z) : bool :=
  match fid with
  | Some n => negb (n =? 0)
  | None => false
  end.

Definition fetchFrameUsersFids : M (list Z) :=
  tryCatch
    (answer <- call ESupabaseSelect (fun env h => supabaseSelect env h) ;;
     if error answer then ret []
     else
       rows <- orThrow (data answer)
                 (Error "Cannot read properties of null (reading 'map')") ;;
       ret (omap (fun fid => if truthyFid fid then fid else None) rows))
    (fun _ => ret []).

Definition unknownProfile (address : string) : Profile :=
  {| fid := None; username := None; displayName := None; pfpUrl := None;
     custodyAddress := address |}.

Definition getAddress (address : string) : M string :=
  orThrow (Viem.getAddress address) (Client.InvalidAddressError address).

Definition dedupe (l : list string) : list string :=
  fold_left (fun acc x => if existsb (Js.eqb x) acc then acc else acc ++ [x])
            l [].

Fixpoint joinWith (sep : string) (l : list string) : string :=
  match l with
  | [] => ""
  | [x] => x
  | x :: r => x +:+ sep +:+ joinWith sep r
  end.

(** The cached profiles of the requested addresses. *)
Fixpoint cachedResults (addresses : list string)
  (results : gmap string Profile) : M (gmap string Profile) :=
  match addresses with
  | [] => ret results
  | addr :: r =>
      cached <- cacheGet addr ;;
      cachedResults r
        (match cached with
         | Some profile => <[addr := profile]> results
         | None => results
         end)
  end.

Fixpoint notCached (addresses : list string) : M (list string) :=
  match addresses with
  | [] => ret []
  | addr :: r =>
      cached <- cacheGet addr ;;
      rest <- notCached r ;;
      ret (match cached with Some _ => rest | None => addr :: rest end)
  end.

(** The cache entries of a chunk the API refused. *)
Fixpoint markUnknown (chunk : list string) : M unit :=
  match chunk with
  | [] => ret tt
  | addr :: r =>
      cached <- cacheGet addr ;;
      (match cached with
       | Some _ => ret tt
       | None => cacheSet addr (unknownProfile addr)
       end) ;;;
      markUnknown r
  end.

(** [Object.entries(data).forEach(...)] *)
Fixpoint storeEntries (entries : list (string * list NeynarUser))
  (results : gmap string Profile) : M (gmap string Profile) :=
  match entries with
  | [] => ret results
  | (addr, users) :: r =>
      if negb (Viem.isAddress addr) then storeEntries r results
      else
        normalizedAddr <- getAddress addr ;;
        match users with
        | user :: _ =>
            let profile :=
              {| fid := u_fid user; username := u_username user;
                 displayName := u_display_name user;
                 pfpUrl := u_pfp_url user;
                 custodyAddress := normalizedAddr |} in
            cacheSet normalizedAddr profile ;;;
            storeEntries r (<[normalizedAddr := profile]> results)
        | [] =>
            cacheSet normalizedAddr (unknownProfile normalizedAddr) ;;;
            storeEntries r results
        end
  end.

Definition CHUNK_SIZE : nat := 50.

(** One chunk of the lookup loop: a failed request or an unreadable answer
    leaves [results] as it was. *)
Definition fetchChunk (chunk : list string) (results : gmap string Profile)
  : M (gmap string Profile) :=
  let requestUrl :=
    NEYNAR_API_USER_BULK_BY_ADDRESS_URL +:+ "?addresses="
    +:+ joinWith "," chunk in
  tryCatch
    (response <- call (EFetchProfiles requestUrl)
                      (fun env h => fetchProfiles env h requestUrl) ;;
     if negb (b_ok response) then markUnknown chunk ;;; ret results
     else
       entries <- liftRes (b_json response) ;;
       storeEntries entries results)
    (fun _ => ret results).

Fixpoint fetchChunks (chunks : list (list string))
  (results : gmap string Profile) : M (gmap string Profile) :=
  match chunks with
  | [] => ret results
  | chunk :: r =>
      results' <- fetchChunk chunk results ;;
      fetchChunks r results'
  end.

Definition fetchFarcasterProfiles (addresses : list string)
  : M (gmap string Profile) :=
  match addresses with
  | [] => ret ∅
  | _ =>
      key <- ask NEYNAR_API_KEY ;;
      if negb (Js.truthyOpt key) then ret ∅
      else
        normalized <- mapM getAddress addresses ;;
        let uniqueAddresses := dedupe normalized in
        results <- cachedResults uniqueAddresses ∅ ;;
        addressesToFetch <- notCached uniqueAddresses ;;
        fetchChunks
          (Viem.chunks (S (List.length addressesToFetch)) CHUNK_SIZE
             addressesToFetch)
          results
  end.

Definition shortAddress (address : option string) : string :=
  match address with
  | Some a =>
      if 10 <=? Js.strlen a
      then Js.slice a 0 6 +:+ "..." +:+ Js.sliceFrom a (-4)
      else "unknown address"
  | None => "unknown address"
  end.

Definition getDisplayName (profile : option Profile) (address : option string)
  : string :=
  match profile with
  | Some p =>
      if Js.truthyOpt (displayName p) || Js.truthyOpt (username p)
      then Js.orElse (displayName p) (Js.show (username p))
      else shortAddress address
  | None => shortAddress address
  end.

Definition sendNeynarNotification (targetFids : list Z)
  (notification : Notification) : M Result :=
  key <- ask NEYNAR_API_KEY ;;
  if negb (Js.truthyOpt key) then throw (Error "Neynar API key missing")
  else
    match targetFids with
    | [] => ret {| success := false; r_message := "No target FIDs provided" |}
    | _ =>
        uuid <- call EUuid (fun env h => Ok (uuidv4 env h)) ;;
        tryCatch
          (response <-
             call (EFetchNotifications targetFids notification uuid)
                  (fun env h =>
                     fetchNotifications env h targetFids notification uuid) ;;
           liftRes (s_json response) ;;;
           if negb (s_ok response) then
             throw (Error ("Neynar API error: "
                           +:+ Viem.bigintToString (s_status response)))
           else ret {| success := true; r_message := "Notification sent" |})
          (fun error =>
             ret {| success := false;
                    r_message := "Failed to send: "
                                 +:+ Js.show (message error) |})
    end.

Definition isAddressOpt (a : option string) : bool :=
  match a with
  | Some s => Viem.isAddress s
  | None => false
  end.

(** [profiles[key]] for a possibly undefined key. *)
Definition profileOf (profiles : gmap string Profile) (key : option string)
  : option Profile :=
  match key with
  | Some k => profiles !! k
  | None => None
  end.

(** [profile?.fid ? [profile.fid] : []] *)
Definition fidOf (profile : option Profile) : list Z :=
  match profile with
  | Some p => match fid p with
              | Some n => if truthyFid (Some n) then [n] else []
              | None => []
              end
  | None => []
  end.

Definition pushIfAddress (a : option string) : M (list string) :=
  match a with
  | Some s =>
      if Js.truthy s && Viem.isAddress s
      then x <- getAddress s ;; ret [x]
      else ret []
  | None => ret []
  end.

Definition needsDropId (category : option string) : bool :=
  match category with
  | Some c =>
      existsb (Js.eqb c)
        ["game-created"; "game-sponsored"; "game-joined"; "winners-selected"]
  | None => false
  end.

Definition dropUrlOf (dropId : option string) : string :=
  if Js.truthyOpt dropId
  then "https://fireball-rho.vercel.app/drop/" +:+ Js.show dropId
  else "https://fireball-rho.vercel.app".

Definition rewardDisplayOf (n : NotificationData) : string :=
  if Js.truthyOpt (tokenSymbol n)
  then Js.orElse (rewardAmount n) "N/A" +:+ " " +:+ Js.show (tokenSymbol n)
  else Js.orElse (rewardAmount n) "N/A".

Definition failure (text : string) : Result :=
  {| success := false; r_message := text |}.

(** The audience and the notification of a category; [inl] is the result
    returned without sending. *)
Definition welcomeCase (n : NotificationData) (dropUrl : string)
  : M (Result + list Z * Notification) :=
  match targetFids n with
  | Some (fid :: fids) =>
      ret (inr (fid :: fids,
                {| title := "Welcome to Fireball! â˜„ï¸";
                   body := "Join exciting drops and win rewards!";
                   target_url := dropUrl |}))
  | _ => throw (Error "Valid targetFids required")
  end.

Definition createdCase (n : NotificationData) (hostAddress : option string)
  (profiles : gmap string Profile) (dropUrl rewardDisplay : string)
  : M (Result + list Z * Notification) :=
  if negb (Js.truthyOpt hostAddress) || negb (isAddressOpt hostAddress) then
    throw (Error "Valid hostAddress required")
  else
    let hostProfile := profileOf profiles hostAddress in
    let hostDisplay := getDisplayName hostProfile hostAddress in
    targetFids <- fetchFrameUsersFids ;;
    ret (inr (targetFids,
              {| title := "New Fireball Drop Created! â˜„ï¸";
                 body := "Drop #" +:+ Js.show (dropId n) +:+ " by "
                         +:+ hostDisplay +:+ ": " +:+ rewardDisplay
                         +:+ " prize for up to "
                         +:+ match maxParticipants n with
                             | Some m => if m =? 0 then "N/A"
                                         else Viem.bigintToString m
                             | None => "N/A"
                             end
                         +:+ " participants!";
                 target_url := dropUrl |})).

Definition sponsoredCase (n : NotificationData) (hostAddress : option string)
  (profiles : gmap string Profile) (dropUrl rewardDisplay : string)
  : M (Result + list Z * Notification) :=
  if negb (isAddressOpt hostAddress)
     || negb (isAddressOpt (sponsorAddress n)) then
    throw (Error "Valid host and sponsor addresses required")
  else
    let hostSponsoredProfile := profileOf profiles hostAddress in
    let sponsorProfile := profileOf profiles (sponsorAddress n) in
    let hostSponsoredDisplay :=
      getDisplayName hostSponsoredProfile hostAddress in
    let sponsorDisplay := getDisplayName sponsorProfile (sponsorAddress n) in
    targetFids <- fetchFrameUsersFids ;;
    ret (inr (targetFids,
              {| title := "Drop Sponsored! ðŸŽ‰";
                 body := "Drop #" +:+ Js.show (dropId n) +:+ " sponsored by "
                         +:+ sponsorDisplay +:+ " for "
                         +:+ hostSponsoredDisplay +:+ ". Prize: "
                         +:+ rewardDisplay +:+ ".";
                 target_url := dropUrl |})).

Definition joinedCase (n : NotificationData) (hostAddress : option string)
  (profiles : gmap string Profile) (dropUrl rewardDisplay : string)
  : M (Result + list Z * Notification) :=
  if negb (isAddressOpt (participantAddress n)) then
    throw (Error "Valid participant address required")
  else
    let participantProfile := profileOf profiles (participantAddress n) in
    let participantDisplay :=
      if Js.truthyOpt (participantName n) then Js.show (participantName n)
      else getDisplayName participantProfile (participantAddress n) in
    let targetFids :=
      fidOf (profileOf profiles hostAddress) ++ fidOf participantProfile in
    ret (inr (targetFids,
              {| title := "New Participant! ðŸ™Œ";
                 body := participantDisplay +:+ " joined Drop #"
                         +:+ Js.show (dropId n) +:+ "! Prize: "
                         +:+ rewardDisplay +:+ ".";
                 target_url := dropUrl |})).

Definition winnersCase (n : NotificationData)
  (profiles : gmap string Profile) (dropUrl rewardDisplay : string)
  : M (Result + list Z * Notification) :=
  match winnerAddresses n with
  | Some winnerAddresses =>
      if existsb (fun addr => negb (Viem.isAddress addr)) winnerAddresses then
        throw (Error "Valid winner addresses required")
      else
        normalized <- mapM getAddress winnerAddresses ;;
        let winnerFids :=
          flat_map (fun a => fidOf (profiles !! a)) normalized in
        match winnerFids with
        | [] => ret (inl (failure "No valid FIDs for winners"))
        | _ =>
            normalized' <- mapM getAddress winnerAddresses ;;
            let winnerDisplays :=
              joinWith ", "
                (map (fun '(a, addr) =>
                        getDisplayName (profiles !! a) (Some addr))
                     (combine normalized' winnerAddresses)) in
            ret (inr (winnerFids,
                      {| title := "Winners Announced! ðŸ†";
                         body := "Drop #" +:+ Js.show (dropId n)
                                 +:+ " winners: " +:+ winnerDisplays
                                 +:+ ". Prize: " +:+ rewardDisplay +:+ ".";
                         target_url := dropUrl |}))
        end
  | None => throw (Error "Valid winner addresses required")
  end.

Definition handleNotificationLogic (notificationData : NotificationData)
  : M Result :=
  tryCatch
    (let hostAddress :=
       if Js.truthyOpt (creatorAddress notificationData)
          && negb (Js.truthyOpt (hostAddress notificationData))
       then creatorAddress notificationData
       else hostAddress notificationData in
     if needsDropId (category notificationData)
        && negb (Js.truthyOpt (dropId notificationData))
     then throw (Error "dropId required")
     else
       fromHost <- pushIfAddress hostAddress ;;
       fromSponsor <- pushIfAddress (sponsorAddress notificationData) ;;
       fromParticipant <-
         pushIfAddress (participantAddress notificationData) ;;
       fromWinners <-
         match winnerAddresses notificationData with
         | Some l => mapM getAddress (List.filter Viem.isAddress l)
         | None => ret []
         end ;;
       let addressesToFetch :=
         fromHost ++ fromSponsor ++ fromParticipant ++ fromWinners in
       profiles <- fetchFarcasterProfiles addressesToFetch ;;
       let dropUrl := dropUrlOf (dropId notificationData) in
       let rewardDisplay := rewardDisplayOf notificationData in
       chosen <-
         match category notificationData with
         | Some "welcome" => welcomeCase notificationData dropUrl
         | Some "game-created" =>
             createdCase notificationData hostAddress profiles dropUrl
               rewardDisplay
         | Some "game-sponsored" =>
             sponsoredCase notificationData hostAddress profiles dropUrl
               rewardDisplay
         | Some "game-joined" =>
             joinedCase notificationData hostAddress profiles dropUrl
               rewardDisplay
         | Some "winners-selected" =>
             winnersCase notificationData profiles dropUrl rewardDisplay
         | other =>
             throw (Error ("Unsupported category: " +:+ Js.show other))
         end ;;
       match chosen with
       | inl result => ret result
       | inr (targetFids, notification) =>
           sendNeynarNotification targetFids notification
       end)
    (fun error =>
       ret (failure ("Failed to send: " +:+ Js.show (message error)))).

(** The endpoint: the status and the JSON it answers with. *)
Definition endpoint (method : string) (body : option NotificationData)
  : M (Z * Result) :=
  if negb (Js.eqb method "POST") then
    ret (405, failure ("Method " +:+ method +:+ " Not Allowed"))
  else
    match body with
    | Some notificationData =>
        if negb (Js.truthyOpt (category notificationData)) then
          ret (400, failure "Invalid request: Expected JSON with 'category'")
        else
          tryCatch
            (result <- handleNotificationLogic notificationData ;;
             ret (if success result then 200 else 500, result))
            (fun error =>
               ret (500, failure ("Server error: "
                                  +:+ Js.show (message error))))
    | None => ret (400, failure "Invalid request: Expected JSON with 'category'")
    end.

End SendNotification.

(** ** The onboarding modal *)
Module OnboardingModal.
Import Eff.

(** [result.error]: an [Error] with its message, or a value with its
    [String(...)]. *)
Inductive ErrorValue :=
| IsError (message : string)
| NotError (asString : string).

(** What [sdk.actions.addFrame()] resolves to, as the handler looks at it:
    whether it has a truthy [success], and its [error] when it has that
    key. *)
Record AddFrameResult := {
  succeeded : bool;
  error : option ErrorValue
}.

Inductive Event :=
| EAddFrame
| ESetIsAdding (b : bool)
| ESetError (e : option string)
| EOnAppAdded
| EOnClose.

(** A falsy result is [None]. *)
Record Env := {
  addFrame : list Event -> Res (option AddFrameResult)
}.

Definition M := Eff.M Env Event.

Definition notAdded : string :=
  "The app was not added. You might have cancelled, or you can try again.".

Definition handleAddApp : M unit :=
  emit (ESetIsAdding true) ;;;
  emit (ESetError None) ;;;
  tryFinally
    (tryCatch
       (result <- call EAddFrame (fun env h => addFrame env h) ;;
        match result with
        | Some r =>
            if succeeded r then
              emit EOnAppAdded ;;;
              emit EOnClose
            else
              match error r with
              | Some e =>
                  let errorMessage :=
                    match e with
                    | IsError message => message
                    | NotError asString => asString
                    end in
                  emit (ESetError
                          (Some ("Failed to add the app: " +:+ errorMessage)))
              | None => emit (ESetError (Some notAdded))
              end
        | None => emit (ESetError (Some notAdded))
        end)
       (fun err =>
          emit (ESetError
                  (Some "An unexpected error occurred. Please try again."))))
    (emit (ESetIsAdding false)).

End OnboardingModal.

(** ** The in-app notification request *)
Module AppNotification.
Import Eff.

Record NotificationPayload := {
  fid : Z;
  title : string;
  body : string;
  targetUrl : string;
  imageUrl : option string;
  notificationId : option string
}.

(** The response of the backend: [json()] and [text()] may each reject. *)
Record Response := {
  ok : bool;
  status : Z;
  statusText : string;
  json : Res (option string);
  text : Res string
}.

Inductive Event :=
| EFetch (url : string) (payload : NotificationPayload)
| EToastError (msg : string).

Record Env := {
  fetch : list Event -> string -> NotificationPayload -> Res Response
}.

Definition M := Eff.M Env Event.

Definition backendApiUrl : string := "/api/send-fireball-notification".

(** The value is [responseBody.message]. *)
Definition responseBody (response : Response) : M (option string) :=
  tryCatch (liftRes (json response))
    (fun e =>
       t <- liftRes (text response) ;;
       ret (Some (if Js.truthy t then t else statusText response))).

Definition requestAppNotification (payload : NotificationPayload) : M unit :=
  tryCatch
    (response <- call (EFetch backendApiUrl payload)
                      (fun env h => fetch env h backendApiUrl payload) ;;
     message <- responseBody response ;;
     if negb (ok response) then
       emit (EToastError
               ("Notification failed for FID "
                +:+ Viem.bigintToString (fid payload)
                +:+ ". Status: " +:+ Viem.bigintToString (status response)))
     else ret tt)
    (fun error =>
       emit (EToastError
               ("Failed to send notification request for FID "
                +:+ Viem.bigintToString (fid payload) +:+ "."))).

End AppNotification.

(** ** What a history shows *)
Module Trace.
Import Client.

Definition isRemoteWrite (e : Event) : bool :=
  match e with
  | EWriteContract _ _ _ _ => true
  | _ => false
  end.

Definition remoteWrites (h : list Event) : list Event :=
  List.filter isRemoteWrite h.

Definition readEvent (token functionName : string) : Event :=
  EReadContract token functionName [].

(** The history after the decimals step of a formatter. *)
Definition afterDecimals (token : string) (h : list Event) : list Event :=
  if Js.eqb token ZERO_ADDRESS then h else h ++ [readEvent token "decimals"].

(** A list of addresses is well formed when [getAddress] accepts each of
    them, as it does the addresses decoded from the contract. *)
Definition validAddresses (l : list string) : Prop :=
  Forall (fun a => Viem.addressRegex a = true) l.

(** Equality after normalization, on plain strings. *)
Definition sameNormalized (a b : string) : bool :=
  match Viem.getAddress a, Viem.getAddress b with
  | Some x, Some y => Js.eqb x y
  | _, _ => false
  end.

Fixpoint firstMatchFrom (i : Z) (participants : list string) (w : string) : Z :=
  match participants with
  | [] => -1
  | p :: r => if sameNormalized p w then i else firstMatchFrom (i + 1) r w
  end.

(** Participant [p] has the normalized address of some winner. *)
Definition matchesWinner (winners : list string) (p : string) : Prop :=
  exists w, In w winners /\ Viem.getAddress p = Viem.getAddress w.

(** No participant before slot [n] has the normalized address of slot [n]. *)
Definition firstOfItsAddress (participants : list string) (n : nat) : Prop :=
  forall m p q,
    (m < n)%nat -> nth_error participants m = Some q ->
    nth_error participants n = Some p ->
    Viem.getAddress q <> Viem.getAddress p.

(** The limits of the creation form: 1 to 100 participants and 1 to
    [min 3 (participants - 1)] winners. *)
Definition withinLimits (f : CreateDropPage.FormState) : Prop :=
  exists participants,
    Js.parseInt (CreateDropPage.maxParticipants f) = Some participants
    /\ 1 <= participants <= 100
    /\ 1 <= CreateDropPage.numWinners f <= Z.min 3 (participants - 1).

(** The loading flag an initial load sets around the fetch. *)
Definition loadingFlag (isInitialLoad : bool) (b : bool) : list Event :=
  if isInitialLoad then [ESet (SetLoadingData b)] else [].

(** The state updates of the highlight step of the fetcher. *)
Definition highlightEvents (isCompleted : bool) (winners : list string)
  (indices : list Z) : list Event :=
  if isCompleted && (0 <? Z.of_nat (List.length winners))
     && (0 <? Z.of_nat (List.length indices))
  then [ESet (SetWinnerIndices indices); ESet (SetAnimateWinners true)]
  else [].

End Trace.

(** ** What the frame handler's history shows *)
Module FrameTrace.
Import Eff FrameHandler.

Definition isRemoteRead (e : Event) : bool :=
  match e with
  | EReadContract _ _ _ => true
  | _ => false
  end.

Definition remoteReads (h : list Event) : list Event :=
  List.filter isRemoteRead h.

(** A drop id other than a string of one or more decimal digits. *)
Definition invalidDropId (q : QueryValue) : Prop :=
  match q with
  | QString s => Js.isDecimalDigits s = false
  | _ => True
  end.

Definition fallbackLog (reason : string) : Event :=
  ELog ("[Server Frame Handler] Serving original index.html. Reason: "
        +:+ reason).

(** What the fallback routine adds to the history, given the answer of its
    read of [index.html]: the page as read with status 200, or a critical
    error with status 500. *)
Definition fallbackEvents (reason : string) (answer : Res string)
  : list Event :=
  [fallbackLog reason; EReadFile indexPath]
  ++ match answer with
     | Ok fallbackHtml =>
         [ESetHeader "Content-Type" "text/html"; ESend 200 fallbackHtml]
     | Throw fallbackError =>
         [ESend 500 ("Critical error serving fallback: "
                     +:+ Js.show (message fallbackError))]
     end.

End FrameTrace.

(** ** What the notification handler's history shows *)
Module Audience.
Import Eff Api SendNotification.

(** A call of the notification-send API. *)
Definition isSend (e : Event) : bool :=
  match e with
  | EFetchNotifications _ _ _ => true
  | _ => false
  end.

Definition sends (h : list Event) : list Event := List.filter isSend h.

(** A stretch of history without such a call. *)
Definition quiet (hx : list Event) : Prop := sends hx = [].

Definition winnersOf (n : NotificationData) : list string :=
  match winnerAddresses n with
  | Some l => l
  | None => []
  end.

(** [a] is the normalized address of one of the winners. *)
Definition winnerKey (winners : list string) (a : string) : Prop :=
  exists w, In w winners /\ Viem.getAddress w = Some a.

(** No winner has a cached profile with a FID when the request arrives. *)
Definition noCachedFid (env : Env) (h : list Event) (winners : list string)
  : Prop :=
  forall a p,
    winnerKey winners a -> cacheAfter env h !! a = Some p ->
    truthyFid (fid p) = false.

(** The identity API answers no user with a FID for a winner. *)
Definition noFetchedFid (env : Env) (winners : list string) : Prop :=
  forall h requestUrl response entries addr a user users,
    fetchProfiles env h requestUrl = Ok response ->
    b_json response = Ok entries ->
    In (addr, user :: users) entries ->
    Viem.getAddress addr = Some a ->
    winnerKey winners a ->
    truthyFid (u_fid user) = false.

(** A profile map in which no winner has a FID. *)
Definition noFid (winners : list string) (profiles : gmap string Profile)
  : Prop :=
  forall a, winnerKey winners a -> fidOf (profiles !! a) = [].

End Audience.

(** ** Sample data for the worked cases *)
Module Sample.
Import Eff Api Client.

Definition alice : string := "0x5aAeb6053F3E94C9b9A09f33669435E7Ef1BeAed".
Definition bob : string := "0xfB6916095ca1df60bB79Ce92cE3Ea74c37c5d359".
Definition carol : string := "0xdbF03B407c01E7cD3CBea99509d93f8DDDC8C6FB".
Definition token : string := "0x833589fCD6eDb6E08f4c7C32D4f71b54bdA02913".
Definition fireballDrop : string :=
  "0xD1220A0cf47c7B9Be7A2E6BA89F429762e7b9aDb".

Definition down {A} : Res A := Throw (Error "network unreachable").

(** An environment in which every external call fails. *)
Definition offline : Env :=
  {| contractAddress := fireballDrop;
     readDecimals := fun _ _ => down;
     readSymbol := fun _ _ => down;
     readDropInfo := fun _ _ => down;
     readDropParticipants := fun _ _ => down;
     readBalanceOf := fun _ _ _ => down;
     getBalance := fun _ _ => down;
     writeContract := fun _ _ _ _ _ => down;
     waitForTransactionReceipt := fun _ _ => down;
     sdkContext := fun _ => down;
     fetchNotification := fun _ _ => down |}.

Definition dropWith (hostAddress : string) (winnersToDraw : Z)
  : ExtendedDropInfo :=
  {| id := 7; host := hostAddress; sponsor := ZERO_ADDRESS;
     entryFee := "Free"; rewardAmount := "0.1 ETH";
     rawEntryFee := 0; rawRewardAmount := 100000000000000000;
     rewardToken := ZERO_ADDRESS; rewardType := ETH; rewardTokenIds := [];
     maxParticipants := 10; currentParticipants := 1;
     isActive := true; isCompleted := false; isPaidEntry := false;
     isManualSelection := true; isSponsored := false;
     numWinners := winnersToDraw; fundingDeadline := 0; winners := [] |}.

(** One participant so far, two winners to draw. *)
Definition drop (hostAddress : string) : ExtendedDropInfo :=
  dropWith hostAddress 2.

Definition page (address hostAddress : string) : PageState :=
  {| st_dropId := Some "7"; st_address := Some address;
     st_isConnected := true; st_isConnecting := false;
     st_isWalletClientLoading := false; st_walletClient := true;
     st_dropInfo := Some (drop hostAddress);
     st_participants :=
       [{| p_address := bob; p_name := "bob"; p_slot := 0 |}] |}.

Definition details (hostAddress : string) : DropDetails :=
  {| d_host := hostAddress; d_sponsor := ZERO_ADDRESS;
     d_rawEntryFee := 0; d_rawRewardAmountFromContract := 100000000000000000;
     d_rewardToken := ZERO_ADDRESS; d_rewardTypeNum := ETH;
     d_rewardTokenIdsBigInt := []; d_maxParticipants := 10;
     d_currentParticipants := 0; d_isActive := true; d_isCompleted := false;
     d_isPaidEntry := false; d_isManualSelection := true;
     d_isSponsored := true; d_numWinners := 1; d_fundingDeadline := 0;
     d_winnersAddresses := [] |}.

(** The node answers [getDropInfo]; everything else fails. *)
Definition answering (d : DropDetails) : Env :=
  {| contractAddress := fireballDrop;
     readDecimals := fun _ _ => down;
     readSymbol := fun _ _ => down;
     readDropInfo := fun _ _ => Ok d;
     readDropParticipants := fun _ _ => down;
     readBalanceOf := fun _ _ _ => down;
     getBalance := fun _ _ => down;
     writeContract := fun _ _ _ _ _ => down;
     waitForTransactionReceipt := fun _ _ => down;
     sdkContext := fun _ => down;
     fetchNotification := fun _ _ => down |}.

Definition aliceLower : string := Js.toLowerCase alice.

(** No module loaded yet, and a server whose imports succeed, whose node is
    unreachable and whose [index.html] cannot be read. *)
Definition notLoaded : FrameHandler.Modules :=
  {| FrameHandler.FIREBALL_DROP_ABI_MODULE := None;
     FrameHandler.ERC20_MINIMAL_ABI_MODULE := None;
     FrameHandler.REWARD_TYPE_MODULE := None |}.

Definition server (index : Res string) : FrameHandler.Env :=
  {| FrameHandler.CONTRACT_ADDRESS_SERVER := Some fireballDrop;
     FrameHandler.ALCHEMY_API_KEY_SERVER := Some "key";
     FrameHandler.APP_URL := None;
     FrameHandler.importModule := fun _ _ => Ok true;
     FrameHandler.readDropInfo := fun _ _ => down;
     FrameHandler.readDecimals := fun _ _ => down;
     FrameHandler.readSymbol := fun _ _ => down;
     FrameHandler.readFileSync := fun _ _ => index |}.

Definition missingFile : Res string :=
  Throw (Error "ENOENT: no such file or directory, open 'dist/index.html'").

Definition page0 : string :=
  "<html><head><!--FC_FRAME_META_TAG_PLACEHOLDER--></head></html>".

Definition loaded : FrameHandler.Modules :=
  {| FrameHandler.FIREBALL_DROP_ABI_MODULE := Some true;
     FrameHandler.ERC20_MINIMAL_ABI_MODULE := Some true;
     FrameHandler.REWARD_TYPE_MODULE := Some true |}.

(** Numbers are not needed where a form is refused at its limits. *)
Definition numeric : CreateDropPage.Numeric :=
  {| CreateDropPage.parseFloat := fun _ => PrimFloat.nan;
     CreateDropPage.toFixed := fun _ _ => "NaN";
     CreateDropPage.parseUnits := fun _ _ => down |}.

(** Three winners asked of three participants. *)
Definition form : CreateDropPage.FormState :=
  {| CreateDropPage.fundingType := CreateDropPage.HostFunded;
     CreateDropPage.isSponsoredGame := false;
     CreateDropPage.selectedRewardType := ETH;
     CreateDropPage.entryFeeString := "";
     CreateDropPage.rewardAmountString := "0.1";
     CreateDropPage.rewardTokenAddress := "";
     CreateDropPage.rewardTokenIdsString := "";
     CreateDropPage.fetchedTokenSymbol := "";
     CreateDropPage.maxParticipants := "3";
     CreateDropPage.numWinners := 3;
     CreateDropPage.selectionType := CreateDropPage.Manual;
     CreateDropPage.errorMessage := None |}.

Definition wallet : CreateDropPage.Wallet :=
  {| CreateDropPage.isConnected := true;
     CreateDropPage.walletClient := true;
     CreateDropPage.address := Some alice |}.

Definition user (n : Z) (name : string) : SendNotification.NeynarUser :=
  {| SendNotification.u_fid := Some n;
     SendNotification.u_username := Some name;
     SendNotification.u_display_name := Some name;
     SendNotification.u_pfp_url := None |}.

(** An identity service that knows alice (FID 11) and bob (FID 22) and
    answers with both, keyed by lower-case address, whatever it is asked;
    the cache is empty and the notification API accepts what it is sent. *)
Definition directory : SendNotification.Env :=
  {| SendNotification.NEYNAR_API_KEY := Some "key";
     SendNotification.profileCache := ∅;
     SendNotification.supabaseSelect := fun _ => down;
     SendNotification.fetchProfiles := fun _ _ =>
       Ok {| SendNotification.b_ok := true;
             SendNotification.b_status := 200;
             SendNotification.b_json :=
               Ok [(aliceLower, [user 11 "alice"]);
                   (Js.toLowerCase bob, [user 22 "bob"])] |};
     SendNotification.uuidv4 := fun _ => "uuid-1";
     SendNotification.fetchNotifications := fun _ _ _ _ =>
       Ok {| SendNotification.s_ok := true;
             SendNotification.s_status := 200;
             SendNotification.s_json := Ok tt |} |}.

Definition winnersSelected (winners : list string) : NotificationData :=
  {| category := Some "winners-selected"; dropId := Some "7";
     creatorAddress := None; hostAddress := None; sponsorAddress := None;
     participantAddress := None; participantName := None;
     winnerAddresses := Some winners; Api.rewardAmount := Some "0.1";
     tokenSymbol := Some "ETH"; Api.maxParticipants := None; Api.numWinners := None;
     targetFids := None; prizeAmounts := Some "0.1 ETH";
     platformFee := Some "0"; Api.rewardType := Some ETH; Api.entryFee := None;
     transactionHash := Some "0xfeed" |}.

(** A node and a wallet that answer: token reads, participants [bob; alice],
    every write accepted with the same hash, receipts without logs. *)
Definition online : Env :=
  {| contractAddress := fireballDrop;
     readDecimals := fun _ _ => Ok 6;
     readSymbol := fun _ _ => Ok "USDC";
     readDropInfo := fun _ _ => down;
     readDropParticipants := fun _ _ => Ok ([bob; alice], ["bob"; ""]);
     readBalanceOf := fun _ _ _ => Ok 10;
     getBalance := fun _ _ => Ok 10;
     writeContract := fun _ _ _ _ _ => Ok "0xfeed";
     waitForTransactionReceipt := fun _ _ => Ok [];
     sdkContext := fun _ => Ok None;
     fetchNotification := fun _ _ => down |}.

(** Every amount reads as one eighth. *)
Definition eighths : CreateDropPage.Numeric :=
  {| CreateDropPage.parseFloat := fun _ => 0x1p-3%float;
     CreateDropPage.toFixed := fun _ _ => "0.125";
     CreateDropPage.parseUnits := fun _ _ => Ok 125000000000000000 |}.

(** Three winners asked of ten participants. *)
Definition formOfTen : CreateDropPage.FormState :=
  {| CreateDropPage.fundingType := CreateDropPage.HostFunded;
     CreateDropPage.isSponsoredGame := false;
     CreateDropPage.selectedRewardType := ETH;
     CreateDropPage.entryFeeString := "";
     CreateDropPage.rewardAmountString := "0.125";
     CreateDropPage.rewardTokenAddress := "";
     CreateDropPage.rewardTokenIdsString := "";
     CreateDropPage.fetchedTokenSymbol := "";
     CreateDropPage.maxParticipants := "10";
     CreateDropPage.numWinners := 3;
     CreateDropPage.selectionType := CreateDropPage.Manual;
     CreateDropPage.errorMessage := None |}.

End Sample.

(** ** Specifications of computations

    [yields env P R E m]: run in [env] from any history, [m] only appends to
    it; what it appends satisfies [P]; a returned value satisfies [R] and a
    thrown one [E]. *)
Module Logic.
Import Eff.

Definition yields {Env Event A} (env : Env) (P : list Event -> Prop)
  (R : A -> Prop) (E : JsError -> Prop) (m : Eff.M Env Event A) : Prop :=
  forall h, exists r hx,
    m env h = (r, h ++ hx) /\ P hx
    /\ match r with
       | Ok a => R a
       | Throw e => E e
       end.

(** A property of stretches of history that holds of the empty one and of
    the concatenation of two that have it. *)
Record Stable {Event} (P : list Event -> Prop) : Prop := {
  stable_nil : P [];
  stable_app : forall a b, P a -> P b -> P (a ++ b)
}.

Definition any {A} : A -> Prop := fun _ => True.
Definition none {A} : A -> Prop := fun _ => False.

End Logic.

(** ** What the further properties speak of *)
Module Shape.
Import Eff Api Client.

(** A stretch of history without a write. *)
Definition noWrite (hx : list Event) : Prop := Trace.remoteWrites hx = [].

(** What the snapshot fetcher may add to the history: reads, state updates,
    toasts, navigation and profile requests. *)
Definition fetchEvent (e : Event) : bool :=
  match e with
  | EReadContract _ _ _ | EToast _ _ | ENavigate _ | ESet _
  | EGetProfilesByAddresses _ => true
  | _ => false
  end.

(** A profile-lookup list: addresses in checksum form, none twice. *)
Definition normalizedSet (l : list string) : Prop :=
  List.NoDup l /\ Forall (fun a => Viem.getAddress a = Some a) l.

Definition profileRequestOk (e : Event) : Prop :=
  match e with
  | EGetProfilesByAddresses l => normalizedSet l /\ l <> []
  | _ => True
  end.

(** The write [functionName(dropId)] on the drop contract, without value. *)
Definition dropWrite (env : Env) (functionName : string) (dropIdBig : Z)
  : Event :=
  EWriteContract (contractAddress env) functionName [AInt dropIdBig] None.

(** The normalized form of [address] is that of some participant. *)
Definition participates (address : string) (participants : list Participant)
  : Prop :=
  exists p, In p participants
            /\ Trace.sameNormalized (p_address p) address = true.

(** The flags an action sets around its attempt. *)
Definition attempt (mid : list Event) : list Event :=
  [ESet (SetActionInProgress true); ESet (SetError None)] ++ mid
  ++ [ESet (SetActionInProgress false)].

(** The value a join sends: the entry fee of a paid ETH drop, else nothing. *)
Definition joinValue (dropInfo : ExtendedDropInfo) : Z :=
  if isPaidEntry dropInfo
     && match rewardType dropInfo with ETH => true | _ => false end
  then rawEntryFee dropInfo else 0.

(** The writes a join may submit: the approval of the entry fee of a paid
    token drop, on the entry token and to the drop contract; and [joinDrop]
    on the drop contract with [joinValue]. *)
Definition isJoinWrite (env : Env) (dropInfo : ExtendedDropInfo)
  (dropId : string) (e : Event) : Prop :=
  match e with
  | EWriteContract address functionName args value =>
      (isPaidEntry dropInfo = true /\ isToken (rewardType dropInfo) = true
       /\ address = rewardToken dropInfo /\ functionName = "approve"
       /\ args = [AStr (contractAddress env); AInt (rawEntryFee dropInfo)]
       /\ value = None)
      \/ (address = contractAddress env /\ functionName = "joinDrop"
          /\ (exists dropIdBig name,
                 Js.BigInt dropId = Some dropIdBig
                 /\ args = [AInt dropIdBig; AStr name])
          /\ value = Some (joinValue dropInfo))
  | _ => True
  end.

(** The node always answers a balance below the entry fee of a paid drop. *)
Definition cannotAfford (env : Env) (address : string)
  (dropInfo : ExtendedDropInfo) : Prop :=
  isPaidEntry dropInfo = true
  /\ ((isToken (rewardType dropInfo) = true
       /\ forall h, exists balance,
            readBalanceOf env h (rewardToken dropInfo) address = Ok balance
            /\ balance < rawEntryFee dropInfo)
      \/ (rewardType dropInfo = ETH
          /\ forall h, exists balance,
               getBalance env h address = Ok balance
               /\ balance < rawEntryFee dropInfo)).

(** A notification request posted to the endpoint. *)
Definition isPost (e : Event) : bool :=
  match e with
  | EFetchNotification _ => true
  | _ => false
  end.

Definition posts (h : list Event) : list Event := List.filter isPost h.

End Shape.

(** * Properties *)

(** ** The library model on known values *)
Example keccak_empty :
  Viem.keccak256 [] =
  [0xc5; 0xd2; 0x46; 0x01; 0x86; 0xf7; 0x23; 0x3c; 0x92; 0x7e; 0x7d; 0xb2;
   0xdc; 0xc7; 0x03; 0xc0; 0xe5; 0x00; 0xb6; 0x53; 0xca; 0x82; 0x27; 0x3b;
   0x7b; 0xfa; 0xd8; 0x04; 0x5d; 0x85; 0xa4; 0x70].
Proof. vm_compute. reflexivity. Qed.

Example checksum_eip55 :
  Viem.getAddress "0x5aaeb6053f3e94c9b9a09f33669435e7ef1beaed"
  = Some "0x5aAeb6053F3E94C9b9A09f33669435E7Ef1BeAed".
Proof. vm_compute. reflexivity. Qed.

Example checksum_usdc :
  Viem.isAddress "0x833589fCD6eDb6E08f4c7C32D4f71b54bdA02913" = true.
Proof. vm_compute. reflexivity. Qed.

Example formatUnits_examples :
  Viem.formatUnits 1500000 6 = "1.5" /\ Viem.formatEther 10000000000000000 = "0.01"
  /\ Viem.formatUnits 0 18 = "0" /\ Viem.formatUnits (-25) 1 = "-2.5"
  /\ Viem.formatUnits 123 0 = "123".
Proof. vm_compute. repeat split; reflexivity. Qed.

Example parseInt_examples :
  Js.parseInt "10" = Some 10 /\ Js.parseInt " 42px" = Some 42
  /\ Js.parseInt "" = None /\ Js.parseInt "0x1f" = Some 31
  /\ Js.parseInt "-7.9" = Some (-7) /\ Js.parseInt "abc" = None.
Proof. vm_compute. repeat split; reflexivity. Qed.

Example BigInt_examples :
  Js.BigInt "12" = Some 12 /\ Js.BigInt "" = Some 0 /\ Js.BigInt "1.5" = None
  /\ Js.BigInt "abc" = None /\ Js.BigInt "0x10" = Some 16.
Proof. vm_compute. repeat split; reflexivity. Qed.


(** ** Stepping through a computation *)
Section Steps.
Context {Env Event : Type}.
Import Eff.

Lemma bind_ok {A B} (m : Eff.M Env Event A) (k : A -> Eff.M Env Event B)
  env h a h' :
  m env h = (Ok a, h') -> bind m k env h = k a env h'.
Proof. intros H. unfold bind. rewrite H. reflexivity. Qed.

Lemma bind_throw {A B} (m : Eff.M Env Event A) (k : A -> Eff.M Env Event B)
  env h e h' :
  m env h = (Throw e, h') -> bind m k env h = (Throw e, h').
Proof. intros H. unfold bind. rewrite H. reflexivity. Qed.

Lemma tryCatch_ok {A} (m : Eff.M Env Event A) handler env h a h' :
  m env h = (Ok a, h') -> tryCatch m handler env h = (Ok a, h').
Proof. intros H. unfold tryCatch. rewrite H. reflexivity. Qed.

Lemma tryCatch_throw {A} (m : Eff.M Env Event A) handler env h e h' :
  m env h = (Throw e, h') -> tryCatch m handler env h = handler e env h'.
Proof. intros H. unfold tryCatch. rewrite H. reflexivity. Qed.

End Steps.

Section Formatters.
Import Eff Api Client DropDetailPage Trace.

Lemma getTokenDecimals_total token env h :
  exists d, getTokenDecimals token env h = (Ok d, afterDecimals token h)
    /\ (Js.eqb token ZERO_ADDRESS = true -> d = 18)
    /\ (forall e, readDecimals env h token = Throw e -> d = 18).
Proof.
  unfold getTokenDecimals, afterDecimals.
  destruct (Js.eqb token ZERO_ADDRESS) eqn:Hz.
  - exists 18. repeat split; auto.
  - unfold tryCatch, bind, publicClient_readDecimals, call, ret, readEvent.
    destruct (readDecimals env h token) as [d|e] eqn:Hd.
    + exists d. repeat split; try discriminate.
    + exists 18. repeat split; auto.
Qed.

Lemma readSymbolOrDefault_total token env h :
  exists sym,
    readSymbolOrDefault token env h = (Ok sym, h ++ [readEvent token "symbol"])
    /\ (forall e, readSymbol env h token = Throw e -> sym = "Tokens").
Proof.
  unfold readSymbolOrDefault, tryCatch, bind, publicClient_readSymbol, call,
    ret, readEvent.
  destruct (readSymbol env h token) as [s|e] eqn:Hs.
  - eexists. split; [reflexivity | discriminate].
  - exists "Tokens". split; auto.
Qed.

(** A token amount is displayed from the decimals and the symbol the two
    lookups resolve to; each lookup that throws resolves to its default. *)
Lemma tokenDisplay_total raw token env h :
  exists d sym,
    (decimals <- getTokenDecimals token ;;
     symbol <- readSymbolOrDefault token ;;
     ret (Viem.formatUnits raw decimals +:+ " " +:+ symbol)) env h
    = (Ok (Viem.formatUnits raw d +:+ " " +:+ sym),
       afterDecimals token h ++ [readEvent token "symbol"])
    /\ (forall e, readDecimals env h token = Throw e -> d = 18)
    /\ (forall e, readSymbol env (afterDecimals token h) token = Throw e ->
        sym = "Tokens").
Proof.
  destruct (getTokenDecimals_total token env h) as (d & Hd & _ & Hd18).
  destruct (readSymbolOrDefault_total token env (afterDecimals token h))
    as (sym & Hs & Hsym).
  exists d, sym. split; [| split; assumption].
  rewrite (bind_ok _ _ _ _ _ _ Hd), (bind_ok _ _ _ _ _ _ Hs). reflexivity.
Qed.

Lemma formatRewardDisplay_total raw rt token nw ids (env : Env) h :
  exists s h', formatRewardDisplay raw rt token nw ids env h = (Ok s, h').
Proof.
  destruct (tokenDisplay_total raw token env h) as (d & sym & Hrun & _).
  destruct rt; simpl; try (eexists; eexists; reflexivity);
    eexists; eexists; exact Hrun.
Qed.

Lemma formatEntryFeeDisplay_total raw paid rt token (env : Env) h :
  exists s h', formatEntryFeeDisplay raw paid rt token env h = (Ok s, h').
Proof.
  destruct (tokenDisplay_total raw token env h) as (d & sym & Hrun & _).
  unfold formatEntryFeeDisplay.
  destruct (negb paid || (raw =? 0)); [eexists; eexists; reflexivity |].
  destruct (isToken rt); [eexists; eexists; exact Hrun |].
  eexists; eexists; reflexivity.
Qed.

(** C1. The reward and entry-fee formatters never throw, whatever the remote
    reads answer; for a token amount the display is [formatUnits] of the raw
    amount at the resolved decimals followed by the resolved symbol, where a
    decimals lookup that throws resolves to 18 and a symbol lookup that throws
    resolves to ["Tokens"]. *)
Theorem formatters_default_on_lookup_failure :
  forall (env : Env) (h : list Event) (raw : Z) (rt : RewardType)
         (token : string) (nw : Z) (ids : list string) (paid : bool),
    (exists s h', formatRewardDisplay raw rt token nw ids env h = (Ok s, h'))
    /\ (exists s h', formatEntryFeeDisplay raw paid rt token env h = (Ok s, h'))
    /\ (isToken rt = true ->
        exists d sym,
          formatRewardDisplay raw rt token nw ids env h
          = (Ok (Viem.formatUnits raw d +:+ " " +:+ sym),
             afterDecimals token h ++ [readEvent token "symbol"])
          /\ (paid = true -> raw <> 0 ->
              formatEntryFeeDisplay raw paid rt token env h
              = (Ok (Viem.formatUnits raw d +:+ " " +:+ sym),
                 afterDecimals token h ++ [readEvent token "symbol"]))
          /\ (forall e, readDecimals env h token = Throw e -> d = 18)
          /\ (forall e,
                readSymbol env (afterDecimals token h) token = Throw e ->
                sym = "Tokens")).
Proof.
  intros env h raw rt token nw ids paid.
  destruct (tokenDisplay_total raw token env h) as (d & sym & Hrun & Hd & Hs).
  split; [| split].
  - apply formatRewardDisplay_total.
  - apply formatEntryFeeDisplay_total.
  - intros Htok. exists d, sym. split; [| split; [| split]]; auto.
    + destruct rt; simpl in Htok; try discriminate; exact Hrun.
    + intros Hp Hr. unfold formatEntryFeeDisplay. subst paid. simpl.
      destruct (Z.eqb_spec raw 0) as [?|_]; [contradiction |].
      rewrite Htok. exact Hrun.
Qed.

(** C9. The entry-fee formatter answers ["Free"] for a drop that is not
    paid-entry or whose raw fee is zero, and leaves the history as it was:
    no remote read is made. *)
Theorem entry_fee_free_without_read :
  forall (env : Env) (h : list Event) (raw : Z) (paid : bool)
         (rt : RewardType) (token : string),
    paid = false \/ raw = 0 ->
    formatEntryFeeDisplay raw paid rt token env h = (Ok "Free", h).
Proof.
  intros env h raw paid rt token H. unfold formatEntryFeeDisplay.
  destruct H as [-> | ->]; [reflexivity |].
  rewrite Z.eqb_refl, orb_true_r. reflexivity.
Qed.

End Formatters.

(** ** Addresses *)
Section Addresses.
Import Eff Api Client DropDetailPage Trace.

Lemma isAddress_regex a : Viem.isAddress a = true -> Viem.addressRegex a = true.
Proof.
  unfold Viem.isAddress. destruct (Viem.addressRegex a); [reflexivity |].
  simpl. discriminate.
Qed.

Lemma getAddress_of_regex a :
  Viem.addressRegex a = true ->
  Viem.getAddress a = Some (Viem.checksumAddress a).
Proof. unfold Viem.getAddress. intros ->. reflexivity. Qed.

Lemma getAddress_some_regex a x :
  Viem.getAddress a = Some x -> Viem.addressRegex a = true.
Proof.
  unfold Viem.getAddress. destruct (Viem.addressRegex a); [reflexivity |].
  discriminate.
Qed.

Lemma regex_truthy a : Viem.addressRegex a = true -> Js.truthy a = true.
Proof. destruct a; [discriminate | reflexivity]. Qed.

Lemma getAddress_run a x (env : Env) h :
  Viem.getAddress a = Some x -> getAddress a env h = (Ok x, h).
Proof. unfold getAddress. intros ->. reflexivity. Qed.

Lemma sameAddress_run a b x y (env : Env) h :
  Viem.getAddress a = Some x -> Viem.getAddress b = Some y ->
  sameAddress a b env h = (Ok (Js.eqb x y), h).
Proof.
  intros Ha Hb. unfold sameAddress.
  rewrite (bind_ok _ _ _ _ _ _ (getAddress_run _ _ env h Ha)).
  rewrite (bind_ok _ _ _ _ _ _ (getAddress_run _ _ env h Hb)).
  reflexivity.
Qed.

Lemma addIfAddress_run a set (env : Env) h :
  exists set', addIfAddress a set env h = (Ok set', h).
Proof.
  unfold addIfAddress. destruct (Viem.isAddress a) eqn:Ha.
  - apply isAddress_regex, getAddress_of_regex in Ha.
    rewrite (bind_ok _ _ _ _ _ _ (getAddress_run _ _ env h Ha)).
    eexists; reflexivity.
  - eexists; reflexivity.
Qed.

Lemma addAllAddresses_run l : forall set (env : Env) h,
  exists set', addAllAddresses l set env h = (Ok set', h).
Proof.
  induction l as [|a l IH]; intros set env h; simpl.
  - eexists; reflexivity.
  - destruct (addIfAddress_run a set env h) as (set1 & H1).
    rewrite (bind_ok _ _ _ _ _ _ H1). apply IH.
Qed.

Lemma some_sameAddress_run ps address x (env : Env) h :
  validAddresses (map p_address ps) ->
  Viem.getAddress address = Some x ->
  exists b,
    some (fun p => sameAddress (p_address p) address) ps env h = (Ok b, h).
Proof.
  intros Hv Hx. induction ps as [|p ps IH]; simpl.
  - eexists; reflexivity.
  - inversion Hv as [|? ? Hp Hps]; subst.
    rewrite (bind_ok _ _ _ _ _ _
               (sameAddress_run _ _ _ _ env h (getAddress_of_regex _ Hp) Hx)).
    destruct (Js.eqb _ x); [eexists; reflexivity | auto].
Qed.

End Addresses.

(** ** The actions' local gates *)
Section Actions.
Import Eff Api Client DropDetailPage Trace.

Lemma ready_some st address dropInfo dropId :
  ready st = Some (address, dropInfo, dropId) ->
  st_address st = Some address /\ st_dropInfo st = Some dropInfo
  /\ st_dropId st = Some dropId.
Proof.
  unfold ready.
  destruct (st_isConnecting st || st_isWalletClientLoading st
            || negb (st_walletClient st)); [discriminate |].
  destruct (st_address st) as [a|]; [| discriminate].
  destruct (st_dropInfo st) as [d|]; [| discriminate].
  destruct (st_dropId st) as [i|]; [| discriminate].
  destruct (Js.truthy a && Js.truthy i); [| discriminate].
  intros [= -> -> ->]. auto.
Qed.

(** C2. When the connected address and the drop's host normalize to the same
    address, [joinDrop] returns after one error toast and nothing else: no
    token approval and no [joinDrop] write is submitted. *)
Theorem join_by_host_rejected_locally :
  forall (env : Env) (h : list Event) (st : PageState)
         (address a : string) (dropInfo : ExtendedDropInfo),
    st_address st = Some address ->
    st_dropInfo st = Some dropInfo ->
    Viem.getAddress address = Some a ->
    Viem.getAddress (host dropInfo) = Some a ->
    validAddresses (map p_address (st_participants st)) ->
    exists msg, joinDrop st env h = (Ok tt, h ++ [EToast TError msg]).
Proof.
  intros env h st address a dropInfo Haddr Hinfo Ha Hhost Hvalid.
  unfold joinDrop. destruct (ready st) as [[[address' dropInfo'] dropId]|] eqn:Hr.
  2: { eexists; reflexivity. }
  apply ready_some in Hr. destruct Hr as (Hr1 & Hr2 & _).
  rewrite Haddr in Hr1. rewrite Hinfo in Hr2.
  injection Hr1 as <-. injection Hr2 as <-.
  destruct (some_sameAddress_run _ _ _ env h Hvalid Ha) as (joined & Hsome).
  rewrite (bind_ok _ _ _ _ _ _ Hsome).
  destruct (negb (isActive dropInfo)); [eexists; reflexivity |].
  destruct (isCompleted dropInfo); [eexists; reflexivity |].
  destruct joined; [eexists; reflexivity |].
  destruct (maxParticipants dropInfo <=? currentParticipants dropInfo);
    [eexists; reflexivity |].
  destruct (unfunded _ _); [eexists; reflexivity |].
  rewrite (regex_truthy _ (getAddress_some_regex _ _ Hhost)).
  rewrite (bind_ok _ _ _ _ _ _ (sameAddress_run _ _ _ _ env h Hhost Ha)).
  unfold Js.eqb. rewrite String.eqb_refl. eexists; reflexivity.
Qed.

(** Without the well-formedness of the participant list the gate can also
    throw [InvalidAddressError]; no write is submitted then either. *)
Lemma join_by_host_no_write :
  forall (env : Env) (h : list Event) (st : PageState)
         (address a : string) (dropInfo : ExtendedDropInfo) r h',
    st_address st = Some address ->
    st_dropInfo st = Some dropInfo ->
    Viem.getAddress address = Some a ->
    Viem.getAddress (host dropInfo) = Some a ->
    joinDrop st env h = (r, h') ->
    remoteWrites h' = remoteWrites h.
Proof.
  intros env h st address a dropInfo r h' Haddr Hinfo Ha Hhost.
  assert (Hw : forall m, remoteWrites (h ++ [EToast TError m]) = remoteWrites h).
  { intros m. unfold remoteWrites. rewrite List.filter_app. simpl.
    apply app_nil_r. }
  unfold joinDrop. destruct (ready st) as [[[address' dropInfo'] dropId]|] eqn:Hr.
  2: { intros [= <- <-]. apply Hw. }
  apply ready_some in Hr. destruct Hr as (Hr1 & Hr2 & _).
  rewrite Haddr in Hr1. rewrite Hinfo in Hr2.
  injection Hr1 as <-. injection Hr2 as <-.
  assert (Hsome : exists rb,
             some (fun p => sameAddress (p_address p) address)
                  (st_participants st) env h = (rb, h)).
  { induction (st_participants st) as [|p ps IH]; simpl.
    - eexists; reflexivity.
    - unfold bind at 1. unfold sameAddress at 1. unfold bind at 1.
      unfold getAddress at 1.
      destruct (Viem.getAddress (p_address p)); simpl; [| eexists; reflexivity].
      unfold bind at 1. rewrite (getAddress_run _ _ env h Ha). simpl.
      destruct (Js.eqb _ a); [eexists; reflexivity | exact IH]. }
  destruct Hsome as ([joined|e] & Hsome).
  2: { rewrite (bind_throw _ _ _ _ _ _ Hsome). intros [= <- <-]. reflexivity. }
  rewrite (bind_ok _ _ _ _ _ _ Hsome).
  destruct (negb (isActive dropInfo)); [intros [= <- <-]; apply Hw |].
  destruct (isCompleted dropInfo); [intros [= <- <-]; apply Hw |].
  destruct joined; [intros [= <- <-]; apply Hw |].
  destruct (maxParticipants dropInfo <=? currentParticipants dropInfo);
    [intros [= <- <-]; apply Hw |].
  destruct (unfunded _ _); [intros [= <- <-]; apply Hw |].
  rewrite (regex_truthy _ (getAddress_some_regex _ _ Hhost)).
  rewrite (bind_ok _ _ _ _ _ _ (sameAddress_run _ _ _ _ env h Hhost Ha)).
  unfold Js.eqb. rewrite String.eqb_refl. intros [= <- <-]; apply Hw.
Qed.

(** C5. With fewer participants than winners to draw, manual winner selection
    fails locally: either the wallet guard shows its error and nothing is
    selected, or ["Not enough participants."] is thrown, shown and rethrown.
    In both cases no write is submitted. *)
Theorem select_winners_too_few_participants :
  forall (env : Env) (h : list Event) (st : PageState)
         (dropInfo : ExtendedDropInfo),
    st_dropInfo st = Some dropInfo ->
    currentParticipants dropInfo < numWinners dropInfo ->
    (selectWinnersManually st env h
     = (Ok [], h ++ [EToast TError "Wallet not ready or drop info missing."])
     \/
     selectWinnersManually st env h
     = (Throw (Error "Not enough participants."),
        h ++ [ESet (SetActionInProgress true); ESet (SetError None);
              ESet (SetError (Some "Not enough participants."));
              EToast TError "Not enough participants.";
              ESet (SetActionInProgress false)]))
    /\ remoteWrites (snd (selectWinnersManually st env h)) = remoteWrites h.
Proof.
  intros env h st dropInfo Hinfo Hlt.
  assert (Hcases :
    selectWinnersManually st env h
     = (Ok [], h ++ [EToast TError "Wallet not ready or drop info missing."])
    \/
    selectWinnersManually st env h
     = (Throw (Error "Not enough participants."),
        h ++ [ESet (SetActionInProgress true); ESet (SetError None);
              ESet (SetError (Some "Not enough participants."));
              EToast TError "Not enough participants.";
              ESet (SetActionInProgress false)])).
  { unfold selectWinnersManually.
    destruct (ready st) as [[[address dropInfo'] dropId]|] eqn:Hr.
    2: { left. reflexivity. }
    apply ready_some in Hr. destruct Hr as (_ & Hr2 & _).
    rewrite Hinfo in Hr2. injection Hr2 as <-.
    right. unfold selectBody.
    apply Z.ltb_lt in Hlt.
    unfold bind, tryFinally, tryCatch, set, toast, emit, ask, throw. simpl.
    rewrite Hlt. simpl. repeat rewrite <- app_assoc. reflexivity. }
  split; [exact Hcases |].
  destruct Hcases as [-> | ->]; unfold remoteWrites; simpl;
    rewrite List.filter_app; simpl; apply app_nil_r.
Qed.

End Actions.

(** ** The snapshot fetcher *)
Section Fetcher.
Import Eff Api Client DropDetailPage Trace.

(** C6. A fetched record that is sponsored, still has the zero sponsor and is
    active makes the fetcher show the not-funded toast, navigate to
    [/available] and set the error ["Unfunded sponsored game"]; these are all
    the events of the fetch after its read, so no drop record is set. *)
Theorem unfunded_sponsored_not_rendered :
  forall (env : Env) (h : list Event) (currentDropId : string)
         (isInitialLoad : bool) (dropIdBig : Z) (d : DropDetails),
    Js.BigInt currentDropId = Some dropIdBig ->
    readDropInfo env (h ++ loadingFlag isInitialLoad true) dropIdBig = Ok d ->
    d_isSponsored d = true ->
    d_sponsor d = ZERO_ADDRESS ->
    d_isActive d = true ->
    fetchAndSetDropInfo currentDropId isInitialLoad env h
    = (Ok tt,
       h ++ loadingFlag isInitialLoad true
         ++ [EReadContract (contractAddress env) "getDropInfo" [AInt dropIdBig];
             EToast TError "This sponsored game is not funded yet.";
             ENavigate "/available";
             ESet (SetError (Some "Unfunded sponsored game"))]
         ++ loadingFlag isInitialLoad false).
Proof.
  intros env h currentDropId isInitialLoad dropIdBig d Hid Hread Hsp Hzero Hact.
  assert (Hbody : forall h0,
    readDropInfo env h0 dropIdBig = Ok d ->
    fetchBody currentDropId env h0
    = (Throw (Error "Unfunded sponsored game"),
       h0 ++ [EReadContract (contractAddress env) "getDropInfo" [AInt dropIdBig];
              EToast TError "This sponsored game is not funded yet.";
              ENavigate "/available"])).
  { intros h0 Hr. unfold fetchBody.
    unfold bind at 1. unfold ask at 1.
    unfold bind at 1. unfold BigInt, orThrow. rewrite Hid. unfold ret at 1.
    unfold bind at 1. unfold call at 1. rewrite Hr.
    destruct (addIfAddress_run (d_host d) [] env
                (h0 ++ [EReadContract (contractAddress env) "getDropInfo"
                          [AInt dropIdBig]])) as (set1 & H1).
    rewrite (bind_ok _ _ _ _ _ _ H1).
    rewrite Hsp, Hzero. simpl.
    unfold bind at 1. unfold ret at 1.
    unfold unfunded. rewrite Hact. simpl.
    unfold bind, toast, emit, throw. simpl.
    repeat rewrite <- app_assoc. reflexivity. }
  unfold fetchAndSetDropInfo, loadingFlag in *.
  destruct isInitialLoad; simpl in *.
  - unfold bind at 1. unfold set at 1. unfold emit at 1.
    unfold tryFinally, tryCatch. rewrite (Hbody _ Hread).
    unfold bind, set, emit, when. simpl.
    repeat rewrite <- app_assoc. reflexivity.
  - rewrite app_nil_r in Hread.
    unfold bind at 1. unfold ret at 1.
    unfold tryFinally, tryCatch. rewrite (Hbody _ Hread).
    unfold bind, set, emit, when, ret. simpl.
    repeat rewrite <- app_assoc. reflexivity.
Qed.

End Fetcher.

(** ** Winner highlighting *)
Section Highlight.
Import Eff Api Client DropDetailPage Trace.

Lemma sameNormalized_iff p w :
  Viem.addressRegex p = true -> Viem.addressRegex w = true ->
  sameNormalized p w = true <-> Viem.getAddress p = Viem.getAddress w.
Proof.
  intros Hp Hw. unfold sameNormalized.
  rewrite (getAddress_of_regex _ Hp), (getAddress_of_regex _ Hw).
  unfold Js.eqb. rewrite String.eqb_eq. split; congruence.
Qed.

Lemma findIndexFrom_pure (env : Env) h w parts : forall i,
  validAddresses parts -> Viem.addressRegex w = true ->
  findIndexFrom i (fun pAddr => sameAddress pAddr w) parts env h
  = (Ok (firstMatchFrom i parts w), h).
Proof.
  induction parts as [|p r IH]; intros i Hv Hw; simpl; [reflexivity |].
  inversion Hv as [|? ? Hp Hr]; subst.
  rewrite (bind_ok _ _ _ _ _ _
             (sameAddress_run _ _ _ _ env h (getAddress_of_regex _ Hp)
                (getAddress_of_regex _ Hw))).
  unfold sameNormalized.
  rewrite (getAddress_of_regex _ Hp), (getAddress_of_regex _ Hw).
  destruct (Js.eqb _ _); [reflexivity | apply IH; assumption].
Qed.

Lemma mapM_findIndex_pure (env : Env) h parts winners :
  validAddresses parts -> validAddresses winners ->
  mapM (fun winnerAddr =>
          findIndex (fun pAddr => sameAddress pAddr winnerAddr) parts)
       winners env h
  = (Ok (map (firstMatchFrom 0 parts) winners), h).
Proof.
  intros Hp Hw. induction winners as [|w r IH]; simpl; [reflexivity |].
  inversion Hw as [|? ? Hw1 Hwr]; subst.
  unfold findIndex at 1.
  rewrite (bind_ok _ _ _ _ _ _ (findIndexFrom_pure env h w parts 0 Hp Hw1)).
  rewrite (bind_ok _ _ _ _ _ _ (IH Hwr)). reflexivity.
Qed.

Lemma winnerIndicesOf_pure (env : Env) h parts winners :
  validAddresses parts -> validAddresses winners ->
  winnerIndicesOf winners parts env h
  = (Ok (List.filter (fun index => negb (index =? -1))
           (map (firstMatchFrom 0 parts) winners)), h).
Proof.
  intros Hp Hw. unfold winnerIndicesOf.
  rewrite (bind_ok _ _ _ _ _ _ (mapM_findIndex_pure env h parts winners Hp Hw)).
  reflexivity.
Qed.

(** What [findIndex] finds: nothing when no participant matches, else the
    first matching slot. *)
Lemma firstMatchFrom_none w parts : forall i,
  0 <= i -> firstMatchFrom i parts w = -1 ->
  forall p, In p parts -> sameNormalized p w = false.
Proof.
  induction parts as [|p r IH]; intros i Hi H q Hq; simpl in *; [contradiction |].
  destruct (sameNormalized p w) eqn:Hpw; [lia |].
  destruct Hq as [<- | Hq]; [assumption |].
  apply (IH (i + 1)); [lia | assumption | assumption].
Qed.

Lemma firstMatchFrom_some w parts : forall i,
  0 <= i -> firstMatchFrom i parts w <> -1 ->
  exists n p,
    firstMatchFrom i parts w = i + Z.of_nat n
    /\ nth_error parts n = Some p
    /\ sameNormalized p w = true
    /\ forall m q, (m < n)%nat -> nth_error parts m = Some q ->
                   sameNormalized q w = false.
Proof.
  induction parts as [|p r IH]; intros i Hi H; simpl in *; [contradiction |].
  destruct (sameNormalized p w) eqn:Hpw.
  - exists 0%nat, p. repeat split; auto; try lia.
  - destruct (IH (i + 1)) as (n & q & Hn & Hq & Hs & Hfirst);
      [lia | assumption |].
    exists (S n), q. repeat split; auto; try lia.
    intros m q' Hm Hq'. destruct m as [|m]; simpl in Hq'.
    + injection Hq' as <-. assumption.
    + apply (Hfirst m); [lia | assumption].
Qed.

Lemma firstMatchFrom_found w parts : forall i n p,
  nth_error parts n = Some p ->
  sameNormalized p w = true ->
  (forall m q, (m < n)%nat -> nth_error parts m = Some q ->
               sameNormalized q w = false) ->
  firstMatchFrom i parts w = i + Z.of_nat n.
Proof.
  induction parts as [|p0 r IH]; intros i n p Hn Hp Hfirst.
  - destruct n; discriminate.
  - simpl. destruct n as [|n]; simpl in Hn.
    + injection Hn as ->. rewrite Hp. lia.
    + rewrite (Hfirst 0%nat p0); [| lia | reflexivity].
      rewrite (IH (i + 1) n p Hn Hp); [lia |].
      intros m q Hm Hq. apply (Hfirst (S m)); [lia | assumption].
Qed.

Lemma validAddresses_nth l n p :
  validAddresses l -> nth_error l n = Some p -> Viem.addressRegex p = true.
Proof.
  intros Hv Hn. unfold validAddresses in Hv. rewrite List.Forall_forall in Hv.
  apply Hv. eapply nth_error_In; eassumption.
Qed.

(** The derived index list: computed without touching the history, made of
    slots of the participant list, and holding slot [n] exactly when that
    participant has the normalized address of some winner and is the first
    participant with that normalized address. *)
Lemma winnerIndicesOf_first_match :
  forall (env : Env) (h : list Event) (winners participants : list string),
    validAddresses winners ->
    validAddresses participants ->
    exists indices,
      winnerIndicesOf winners participants env h = (Ok indices, h)
      /\ (forall i, In i indices ->
            exists n, i = Z.of_nat n /\ (n < List.length participants)%nat)
      /\ (forall n p,
            nth_error participants n = Some p ->
            (In (Z.of_nat n) indices
             <-> matchesWinner winners p /\ firstOfItsAddress participants n)).
Proof.
  intros env h winners parts Hw Hp.
  eexists. split; [apply winnerIndicesOf_pure; assumption |].
  assert (Hin : forall i,
            In i (List.filter (fun index => negb (index =? -1))
                    (map (firstMatchFrom 0 parts) winners))
            <-> i <> -1 /\ exists w, In w winners /\ firstMatchFrom 0 parts w = i).
  { intros i. rewrite List.filter_In, List.in_map_iff, negb_true_iff, Z.eqb_neq.
    split.
    - intros [(w & Hfw & Hwin) Hne]. split; [assumption |]. exists w. auto.
    - intros [Hne (w & Hwin & Hfw)]. split; [exists w; auto | assumption]. }
  split.
  - intros i Hi. apply Hin in Hi. destruct Hi as (Hne & w & Hwin & Hfw).
    subst i. destruct (firstMatchFrom_some w parts 0) as (n & p & Hn & Hnp & _);
      [lia | assumption |].
    exists n. split; [lia |]. apply nth_error_Some. congruence.
  - intros n p Hnp.
    pose proof (validAddresses_nth _ _ _ Hp Hnp) as Hrp.
    rewrite Hin. split.
    + intros (_ & w & Hwin & Hfw).
      assert (Hrw : Viem.addressRegex w = true).
      { unfold validAddresses in Hw. rewrite List.Forall_forall in Hw. auto. }
      destruct (firstMatchFrom_some w parts 0) as (n' & p' & Hn' & Hnp' & Hs & Hf);
        [lia | lia |].
      assert (n' = n) by lia. subst n'.
      rewrite Hnp in Hnp'. injection Hnp' as <-.
      apply sameNormalized_iff in Hs; [| assumption | assumption].
      split.
      * exists w. auto.
      * intros m p0 q Hm Hq Hp0. rewrite Hnp in Hp0. injection Hp0 as <-.
        specialize (Hf m q Hm Hq). intros Heq.
        pose proof (validAddresses_nth _ _ _ Hp Hq) as Hrq.
        assert (sameNormalized q w = true)
          by (apply sameNormalized_iff; [assumption | assumption | congruence]).
        congruence.
    + intros [(w & Hwin & Hpw) Hfirst].
      assert (Hrw : Viem.addressRegex w = true).
      { unfold validAddresses in Hw. rewrite List.Forall_forall in Hw. auto. }
      split; [lia |]. exists w. split; [assumption |].
      rewrite (firstMatchFrom_found w parts 0 n p Hnp); [lia | |].
      * apply sameNormalized_iff; assumption.
      * intros m q Hm Hq.
        pose proof (validAddresses_nth _ _ _ Hp Hq) as Hrq.
        destruct (sameNormalized q w) eqn:Hs; [| reflexivity].
        apply sameNormalized_iff in Hs; [| assumption | assumption].
        exfalso. apply (Hfirst m p q Hm Hq Hnp). congruence.
Qed.

Lemma participantsFrom_addresses addrs names : forall i,
  map p_address (participantsFrom i addrs names) = addrs.
Proof.
  induction addrs as [|a r IH]; intros i; simpl; [reflexivity |].
  rewrite IH. reflexivity.
Qed.

(** A successful fetch stores the winner list as the contract returned it,
    and highlights the slots [winnerIndicesOf] derives from it. *)
Lemma fetchBody_stores_winners :
  forall (env : Env) (h : list Event) (currentDropId : string)
         (dropIdBig : Z) (d : DropDetails),
    Js.BigInt currentDropId = Some dropIdBig ->
    readDropInfo env h dropIdBig = Ok d ->
    unfunded (d_isSponsored d) (d_sponsor d) && d_isActive d = false ->
    exists hC,
      forall addrs names,
        readDropParticipants env hC dropIdBig = Ok (addrs, names) ->
        validAddresses addrs ->
        validAddresses (d_winnersAddresses d) ->
        exists info indices tail,
          fetchBody currentDropId env h
          = (Ok tt,
             hC ++ [EReadContract (contractAddress env) "getDropParticipants"
                      [AInt dropIdBig];
                    ESet (SetParticipants (participantsFrom 0 addrs names));
                    ESet (SetDropInfo info);
                    ESet (SetIsCancelledForUI
                            (negb (d_isActive d) && d_isCompleted d
                             && (Z.of_nat (List.length (d_winnersAddresses d))
                                 =? 0)))]
                ++ highlightEvents (d_isCompleted d) (d_winnersAddresses d)
                     indices
                ++ tail)
          /\ winners info = d_winnersAddresses d
          /\ winnerIndicesOf (d_winnersAddresses d) addrs env hC
             = (Ok indices, hC)
          /\ (tail = [] \/ exists l, tail = [EGetProfilesByAddresses l]).
Proof.
  intros env h currentDropId dropIdBig d Hid Hread Hfunded.
  set (h0 := h ++ [EReadContract (contractAddress env) "getDropInfo"
                     [AInt dropIdBig]]).
  destruct (formatEntryFeeDisplay_total (d_rawEntryFee d) (d_isPaidEntry d)
              (d_rewardTypeNum d)
              (if d_isPaidEntry d && isToken (d_rewardTypeNum d)
               then d_rewardToken d else ZERO_ADDRESS) env h0)
    as (fee & hB & Hfee).
  destruct (formatRewardDisplay_total (d_rawRewardAmountFromContract d)
              (d_rewardTypeNum d) (d_rewardToken d) (d_numWinners d)
              (map Viem.bigintToString (d_rewardTokenIdsBigInt d)) env hB)
    as (reward & hC & Hrew).
  exists hC. intros addrs names Hparts Hva Hvw.
  set (indices := List.filter (fun index => negb (index =? -1))
                    (map (firstMatchFrom 0 addrs) (d_winnersAddresses d))).
  assert (Hidx : forall h', winnerIndicesOf (d_winnersAddresses d) addrs env h'
                            = (Ok indices, h'))
    by (intros h'; apply winnerIndicesOf_pure; assumption).
  unfold fetchBody.
  unfold bind at 1. unfold ask at 1.
  unfold bind at 1. unfold BigInt, orThrow. rewrite Hid. unfold ret at 1.
  unfold bind at 1. unfold call at 1. rewrite Hread. fold h0.
  destruct (addIfAddress_run (d_host d) [] env h0) as (set1 & H1).
  rewrite (bind_ok _ _ _ _ _ _ H1).
  assert (H2 : exists set2,
            (if d_isSponsored d && negb (Js.eqb (d_sponsor d) ZERO_ADDRESS)
             then addIfAddress (d_sponsor d) set1 else ret set1) env h0
            = (Ok set2, h0)).
  { destruct (d_isSponsored d && negb (Js.eqb (d_sponsor d) ZERO_ADDRESS));
      [apply addIfAddress_run | eexists; reflexivity]. }
  destruct H2 as (set2 & H2). rewrite (bind_ok _ _ _ _ _ _ H2).
  rewrite Hfunded.
  rewrite (bind_ok _ _ _ _ _ _ Hfee).
  rewrite (bind_ok _ _ _ _ _ _ Hrew).
  unfold bind at 1. unfold call at 1. rewrite Hparts.
  set (hD := hC ++ [EReadContract (contractAddress env) "getDropParticipants"
                      [AInt dropIdBig]]).
  destruct (addAllAddresses_run addrs set2 env hD) as (set3 & H3).
  rewrite (bind_ok _ _ _ _ _ _ H3).
  unfold bind at 1. unfold set at 1. unfold emit at 1.
  destruct (addAllAddresses_run (d_winnersAddresses d) set3 env
              (hD ++ [ESet (SetParticipants (participantsFrom 0 addrs names))]))
    as (set4 & H4).
  rewrite (bind_ok _ _ _ _ _ _ H4).
  unfold bind at 1. unfold set at 1. unfold emit at 1.
  unfold bind at 1. unfold set at 1. unfold emit at 1.
  rewrite participantsFrom_addresses.
  eexists. exists indices.
  exists (if 0 <? Z.of_nat (List.length set4)
          then [EGetProfilesByAddresses set4] else []).
  split.
  { unfold highlightEvents, hD.
    destruct (d_isCompleted d
              && (0 <? Z.of_nat (List.length (d_winnersAddresses d)))) eqn:Hc.
    - cbv iota.
      unfold bind at 1. unfold bind at 1. rewrite Hidx.
      destruct (0 <? Z.of_nat (List.length indices)); simpl.
      + unfold bind, set, emit, ret.
        destruct (0 <? Z.of_nat (List.length set4)); simpl;
          repeat rewrite <- app_assoc; reflexivity.
      + unfold bind, set, emit, ret.
        destruct (0 <? Z.of_nat (List.length set4)); simpl;
          repeat rewrite <- app_assoc; simpl; try rewrite app_nil_r;
          reflexivity.
    - simpl. unfold bind, set, emit, ret.
      destruct (0 <? Z.of_nat (List.length set4)); simpl;
        repeat rewrite <- app_assoc; simpl; try rewrite app_nil_r;
        reflexivity. }
  split; [reflexivity |]. split; [apply Hidx |].
  destruct (0 <? Z.of_nat (List.length set4));
    [right; eexists; reflexivity | left; reflexivity].
Qed.

(** Manual selection stores the winners it read from the receipt (or, when
    the receipt names none, from a fresh [getDropInfo]) as they are, and
    highlights the slots [winnerIndicesOf] derives from them. *)
Lemma selectBody_stores_winners :
  forall (env : Env) (h : list Event) (dropInfo : ExtendedDropInfo)
         (dropId : string) (dropIdBig : Z) (hash : string) (logs : list Log)
         (newWinnerAddresses : list string) (h3 : list Event),
    (currentParticipants dropInfo <? numWinners dropInfo) = false ->
    isActive dropInfo = true ->
    isCompleted dropInfo = false ->
    Js.BigInt dropId = Some dropIdBig ->
    let write :=
      EWriteContract (contractAddress env) "selectWinnersManually"
        [AInt dropIdBig] None in
    let afterReceipt :=
      h ++ [write; EToast TInfo "Selecting winners... please wait.";
            EWaitForTransactionReceipt hash] in
    let getDropInfo :=
      EReadContract (contractAddress env) "getDropInfo" [AInt dropIdBig] in
    (writeContract env h (contractAddress env) "selectWinnersManually"
       [AInt dropIdBig] None = Ok hash ->
     waitForTransactionReceipt env
       (h ++ [write; EToast TInfo "Selecting winners... please wait."]) hash
     = Ok logs ->
     (parseWinners (contractAddress env) dropId logs <> []
     /\ newWinnerAddresses = parseWinners (contractAddress env) dropId logs
     /\ h3 = afterReceipt
     \/
     parseWinners (contractAddress env) dropId logs = []
     /\ (exists latest,
           readDropInfo env afterReceipt dropIdBig = Ok latest
           /\ newWinnerAddresses = d_winnersAddresses latest)
     /\ h3 = afterReceipt ++ [getDropInfo]) ->
    forall addrs names,
      readDropParticipants env h3 dropIdBig = Ok (addrs, names) ->
      validAddresses addrs ->
      validAddresses newWinnerAddresses ->
      exists indices,
        selectBody dropInfo dropId env h
        = (Ok indices,
           h3 ++ [EReadContract (contractAddress env) "getDropParticipants"
                    [AInt dropIdBig];
                  ESet (SetDropInfoWinners newWinnerAddresses);
                  ESet (SetWinnerIndices indices);
                  ESet (SetAnimateWinners true)])
        /\ winnerIndicesOf newWinnerAddresses addrs env h3
           = (Ok indices, h3)).
Proof.
  intros env h dropInfo dropId dropIdBig hash logs newWinners h3
         Hgate Hact Hcomp Hid write afterReceipt getDropInfo Hwrite Hwait Hnew
         addrs names Hparts Hva Hvw.
  set (indices := List.filter (fun index => negb (index =? -1))
                    (map (firstMatchFrom 0 addrs) newWinners)).
  assert (Hidx : forall h', winnerIndicesOf newWinners addrs env h'
                            = (Ok indices, h'))
    by (intros h'; apply winnerIndicesOf_pure; assumption).
  exists indices. split; [| apply Hidx].
  unfold selectBody.
  unfold bind at 1. unfold ask at 1.
  rewrite Hgate, Hact, Hcomp. cbn [negb].
  unfold bind at 1. unfold BigInt, orThrow. rewrite Hid. unfold ret at 1.
  assert (Hw : walletClient_writeContract (contractAddress env)
                 "selectWinnersManually" [AInt dropIdBig] None env h
               = (Ok hash, h ++ [write])).
  { unfold walletClient_writeContract, call. rewrite Hwrite. reflexivity. }
  rewrite (bind_ok _ _ _ _ _ _ Hw).
  unfold bind at 1. unfold toast at 1. unfold emit at 1.
  assert (Hr : publicClient_waitForTransactionReceipt hash env
                 ((h ++ [write])
                  ++ [EToast TInfo "Selecting winners... please wait."])
               = (Ok logs, afterReceipt)).
  { unfold publicClient_waitForTransactionReceipt, call, afterReceipt.
    repeat rewrite <- app_assoc. simpl app. rewrite Hwait. reflexivity. }
  rewrite (bind_ok _ _ _ _ _ _ Hr).
  assert (Hp : call (EReadContract (contractAddress env) "getDropParticipants"
                       [AInt dropIdBig])
                 (fun env0 h0 => readDropParticipants env0 h0 dropIdBig) env h3
               = (Ok (addrs, names),
                  h3 ++ [EReadContract (contractAddress env)
                           "getDropParticipants" [AInt dropIdBig]])).
  { unfold call. rewrite Hparts. reflexivity. }
  destruct Hnew as [(Hne & -> & ->) | (Hnil & (latest & Hlatest & ->) & ->)].
  - destruct (parseWinners (contractAddress env) dropId logs) as [|w ws] eqn:Hpw;
      [contradiction |].
    assert (Hlen : (Z.of_nat (List.length (w :: ws)) =? 0) = false)
      by reflexivity.
    rewrite Hlen.
    unfold bind at 1. unfold ret at 1.
    rewrite (bind_ok _ _ _ _ _ _ Hp). cbn [fst].
    rewrite (bind_ok _ _ _ _ _ _ (Hidx _)).
    unfold bind, set, emit, ret. simpl.
    repeat rewrite <- app_assoc. reflexivity.
  - rewrite Hnil.
    assert (Hlen : (Z.of_nat (List.length (@nil string)) =? 0) = true)
      by reflexivity.
    rewrite Hlen.
    assert (Hl : call getDropInfo
                   (fun env0 h0 => readDropInfo env0 h0 dropIdBig)
                   env afterReceipt
                 = (Ok latest, afterReceipt ++ [getDropInfo])).
    { unfold call. rewrite Hlatest. reflexivity. }
    rewrite (bind_ok _ _ _ _ _ _ (bind_ok _ _ _ _ _ _ Hl)).
    rewrite (bind_ok _ _ _ _ _ _ Hp). cbn [fst].
    rewrite (bind_ok _ _ _ _ _ _ (Hidx _)).
    unfold bind, set, emit, ret. simpl.
    repeat rewrite <- app_assoc. reflexivity.
Qed.

(** Where no two participants share a normalized address, every slot is the
    first of its address. *)
Lemma distinct_firstOfItsAddress participants n :
  List.NoDup (map Viem.getAddress participants) ->
  firstOfItsAddress participants n.
Proof.
  intros Hnd m p q Hm Hq Hp Heq.
  assert (Hmn : m = n).
  { apply (proj1 (List.NoDup_nth_error (map Viem.getAddress participants)) Hnd).
    - rewrite length_map. apply nth_error_Some. congruence.
    - rewrite (map_nth_error _ _ _ Hq), (map_nth_error _ _ _ Hp).
      congruence. }
  lia.
Qed.

(** C7, as the code has it.  For well-formed winner and participant lists
    the derived highlight index list holds slots of the participant list
    only, and holds slot [n] exactly when that participant has the
    normalized address of some winner and no earlier slot has the same
    normalized address ([findIndex] answers the first match), which is every
    matching slot when no two participants share a normalized address; a
    winner matching no participant contributes no index.  And a successful
    fetch
    stores the winner list exactly as the contract returned it, next to the
    indices derived from it (set when the drop is completed and both lists
    are non-empty). *)
Theorem winner_highlight_first_match :
  (forall (env : Env) (h : list Event) (winners participants : list string),
     validAddresses winners ->
     validAddresses participants ->
     exists indices,
       winnerIndicesOf winners participants env h = (Ok indices, h)
       /\ (forall i, In i indices ->
             exists n, i = Z.of_nat n /\ (n < List.length participants)%nat)
       /\ (forall n p,
             nth_error participants n = Some p ->
             (In (Z.of_nat n) indices
              <-> matchesWinner winners p
                  /\ firstOfItsAddress participants n))
       /\ (List.NoDup (map Viem.getAddress participants) ->
           forall n p,
             nth_error participants n = Some p ->
             (In (Z.of_nat n) indices <-> matchesWinner winners p)))
  /\ (forall (env : Env) (h : list Event) (currentDropId : string)
             (dropIdBig : Z) (d : DropDetails),
        Js.BigInt currentDropId = Some dropIdBig ->
        readDropInfo env h dropIdBig = Ok d ->
        unfunded (d_isSponsored d) (d_sponsor d) && d_isActive d = false ->
        exists hC,
          forall addrs names,
            readDropParticipants env hC dropIdBig = Ok (addrs, names) ->
            validAddresses addrs ->
            validAddresses (d_winnersAddresses d) ->
            exists info indices tail,
              fetchBody currentDropId env h
              = (Ok tt,
                 hC ++ [EReadContract (contractAddress env)
                          "getDropParticipants" [AInt dropIdBig];
                        ESet (SetParticipants
                                (participantsFrom 0 addrs names));
                        ESet (SetDropInfo info);
                        ESet (SetIsCancelledForUI
                                (negb (d_isActive d) && d_isCompleted d
                                 && (Z.of_nat (List.length
                                                 (d_winnersAddresses d))
                                     =? 0)))]
                    ++ highlightEvents (d_isCompleted d)
                         (d_winnersAddresses d) indices
                    ++ tail)
              /\ winners info = d_winnersAddresses d
              /\ winnerIndicesOf (d_winnersAddresses d) addrs env hC
                 = (Ok indices, hC)
              /\ (tail = []
                  \/ exists l, tail = [EGetProfilesByAddresses l])).
Proof.
  split.
  - intros env h winners participants Hw Hp.
    destruct (winnerIndicesOf_first_match env h winners participants Hw Hp)
      as (indices & Hrun & Hrange & Hiff).
    exists indices.
    split; [assumption |]. split; [assumption |]. split; [assumption |].
    intros Hnd n p Hn. split.
    + intros Hin. apply (Hiff n p Hn). assumption.
    + intros Hm. apply (Hiff n p Hn). split; [assumption |].
      apply distinct_firstOfItsAddress. assumption.
  - exact fetchBody_stores_winners.
Qed.

(** The claim as written fails where two slots hold one address: with
    participants [alice; alice] and winner [alice] the derived list is [0],
    although slot 1 has the winner's normalized address as well. *)
Lemma highlight_misses_repeated_participant :
  ~ (forall (winners participants : list string) (indices : list Z),
       validAddresses winners -> validAddresses participants ->
       winnerIndicesOf winners participants Sample.offline [] = (Ok indices, []) ->
       forall n p,
         nth_error participants n = Some p ->
         (In (Z.of_nat n) indices <-> matchesWinner winners p)).
Proof.
  intros H.
  specialize (H [Sample.alice] [Sample.alice; Sample.alice] [0]).
  assert (Hv1 : validAddresses [Sample.alice])
    by (repeat constructor).
  assert (Hv2 : validAddresses [Sample.alice; Sample.alice])
    by (repeat constructor).
  specialize (H Hv1 Hv2).
  assert (Hrun : winnerIndicesOf [Sample.alice] [Sample.alice; Sample.alice]
                   Sample.offline [] = (Ok [0], []))
    by (vm_compute; reflexivity).
  specialize (H Hrun 1%nat Sample.alice eq_refl).
  destruct H as [_ H].
  assert (Hin : In (Z.of_nat 1) [0]).
  { apply H. exists Sample.alice. split; [left; reflexivity | reflexivity]. }
  simpl in Hin. destruct Hin as [Hin | []]. discriminate.
Qed.

End Highlight.

(** ** The creation form *)
Section Creation.
Import Eff Api Client CreateDropPage Trace.

Lemma remoteWrites_app h1 h2 :
  remoteWrites (h1 ++ h2) = remoteWrites h1 ++ remoteWrites h2.
Proof. unfold remoteWrites. apply List.filter_app. Qed.

Lemma withinLimits_dec f : withinLimits f \/ ~ withinLimits f.
Proof.
  unfold withinLimits.
  destruct (Js.parseInt (maxParticipants f)) as [p|] eqn:Hp.
  - destruct (Z_le_dec 1 p); [| right; intros (q & [= <-] & ? & ?); lia].
    destruct (Z_le_dec p 100); [| right; intros (q & [= <-] & ? & ?); lia].
    destruct (Z_le_dec 1 (numWinners f));
      [| right; intros (q & [= <-] & ? & ?); lia].
    destruct (Z_le_dec (numWinners f) (Z.min 3 (p - 1)));
      [| right; intros (q & [= <-] & ? & ?); lia].
    left. exists p. auto.
  - right. intros (q & [=] & _).
Qed.

Lemma validateInputs_outside_limits js f (env : Env) h :
  ~ withinLimits f ->
  exists msg,
    validateInputs js f env h
    = (Ok false,
       h ++ [ESet (SetErrorMessage None); ESet (SetErrorMessage (Some msg))]).
Proof.
  intros Hout. unfold validateInputs, withinLimits in *.
  unfold bind at 1. unfold set at 1. unfold emit at 1.
  destruct (Js.parseInt (maxParticipants f)) as [p|] eqn:Hp.
  - destruct ((p <=? 0) || (MAX_PARTICIPANTS_LIMIT <? p)) eqn:H1.
    + eexists. unfold reject, bind, set, emit, ret. simpl.
      rewrite <- app_assoc. reflexivity.
    + destruct ((numWinners f <=? 0) || (MAX_WINNERS_LIMIT <? numWinners f)
                || (p <=? numWinners f)) eqn:H2.
      * eexists. unfold reject, bind, set, emit, ret. simpl.
        rewrite <- app_assoc. reflexivity.
      * exfalso. apply Hout. exists p.
        unfold MAX_PARTICIPANTS_LIMIT, MAX_WINNERS_LIMIT in *.
        apply orb_false_iff in H1. destruct H1 as [H1a H1b].
        apply orb_false_iff in H2. destruct H2 as [H2 H2c].
        apply orb_false_iff in H2. destruct H2 as [H2a H2b].
        apply Z.leb_gt in H1a, H2a. apply Z.ltb_ge in H1b, H2b.
        apply Z.leb_gt in H2c. repeat split; try lia.
  - eexists. unfold reject, bind, set, emit, ret. simpl.
    rewrite <- app_assoc. reflexivity.
Qed.

(** C10. A form outside the limits (1 to 100 participants, 1 to
    [min 3 (participants - 1)] winners) is refused by [validateInputs] with
    an error message, and [handleSubmit] then ends with an error toast and
    without a write; so a form that validates is within the limits, and in
    particular asks for fewer winners than participants. *)
Theorem creation_limits_enforced :
  forall (js : Numeric) (env : Env) (h : list Event) (f : FormState),
    (~ withinLimits f ->
     (exists msg,
        validateInputs js f env h
        = (Ok false,
           h ++ [ESet (SetErrorMessage None);
                 ESet (SetErrorMessage (Some msg))]))
     /\ (forall w,
           fst (handleSubmit js w f env h) = Ok tt
           /\ remoteWrites (snd (handleSubmit js w f env h)) = remoteWrites h
           /\ exists msg, In (EToast TError msg) (snd (handleSubmit js w f env h))))
    /\ (forall h',
          validateInputs js f env h = (Ok true, h') ->
          withinLimits f
          /\ exists participants,
               Js.parseInt (maxParticipants f) = Some participants
               /\ numWinners f < participants).
Proof.
  intros js env h f. split.
  - intros Hout. split; [apply validateInputs_outside_limits; assumption |].
    intros w. unfold handleSubmit.
    assert (Htoast : forall h0 m,
              remoteWrites (h0 ++ [EToast TError m]) = remoteWrites h0).
    { intros h0 m. rewrite remoteWrites_app. apply app_nil_r. }
    destruct (address w) as [a|].
    2: { simpl. split; [reflexivity |]. split; [apply Htoast |].
         eexists. apply in_or_app. right. left. reflexivity. }
    destruct (negb (isConnected w) || negb (walletClient w)
              || negb (Js.truthy a)).
    { simpl. split; [reflexivity |]. split; [apply Htoast |].
      eexists. apply in_or_app. right. left. reflexivity. }
    destruct (validateInputs_outside_limits js f env h Hout) as (msg & Hv).
    rewrite (bind_ok _ _ _ _ _ _ Hv). simpl.
    split; [reflexivity |]. split.
    + rewrite Htoast, remoteWrites_app. apply app_nil_r.
    + eexists. apply in_or_app. right. left. reflexivity.
  - intros h' Hv.
    destruct (withinLimits_dec f) as [Hin | Hout].
    + split; [assumption |]. destruct Hin as (p & Hp & Hr & Hw).
      exists p. split; [assumption | lia].
    + destruct (validateInputs_outside_limits js f env h Hout) as (msg & Hno).
      rewrite Hno in Hv. discriminate.
Qed.

End Creation.

(** ** The frame handler's fallback *)
Section Frame.
Import Eff Api FrameHandler FrameTrace.

Lemma serveOriginalIndex_run reason (env : Env) h :
  serveOriginalIndex reason env h
  = (Ok tt,
     h ++ fallbackEvents reason
            (readFileSync env (h ++ [fallbackLog reason]) indexPath)).
Proof.
  unfold serveOriginalIndex, fallbackEvents, fallbackLog.
  unfold bind at 1. unfold emit at 1.
  unfold tryCatch. unfold bind at 1. unfold call at 1.
  destruct (readFileSync env _ indexPath) as [html|e]; simpl.
  - unfold bind, emit. simpl. repeat rewrite <- app_assoc. reflexivity.
  - unfold emit. simpl. repeat rewrite <- app_assoc. reflexivity.
Qed.

Lemma importOnce_run loaded path (env : Env) h :
  exists r hx,
    importOnce loaded path env h = (r, h ++ hx) /\ remoteReads hx = [].
Proof.
  unfold importOnce. destruct loaded as [b|].
  - exists (Ok (Some b)), []. rewrite app_nil_r. split; reflexivity.
  - unfold bind, call, ret. destruct (importModule env h path).
    + eexists; eexists; split; reflexivity.
    + eexists; eexists; split; reflexivity.
Qed.

(** Loading the modules reads nothing from the node. *)
Lemma ensureModulesLoaded_run mods (env : Env) h :
  exists r hx,
    ensureModulesLoaded mods env h = (r, h ++ hx) /\ remoteReads hx = [].
Proof.
  unfold ensureModulesLoaded.
  destruct (importOnce_run (FIREBALL_DROP_ABI_MODULE mods)
              "../src/utils/cjs/FireballDropAbi.cjs" env h)
    as ([a|e] & h1 & H1 & Hq1).
  2: { rewrite (bind_throw _ _ _ _ _ _ H1). eauto. }
  rewrite (bind_ok _ _ _ _ _ _ H1).
  destruct (importOnce_run (ERC20_MINIMAL_ABI_MODULE mods)
              "../src/utils/cjs/erc20.cjs" env (h ++ h1))
    as ([b|e] & h2 & H2 & Hq2).
  2: { rewrite (bind_throw _ _ _ _ _ _ H2). rewrite <- app_assoc.
       eexists; eexists; split; [reflexivity |].
       unfold remoteReads in *. rewrite List.filter_app, Hq1, Hq2. reflexivity. }
  rewrite (bind_ok _ _ _ _ _ _ H2).
  destruct (importOnce_run (REWARD_TYPE_MODULE mods)
              "../src/types/cjs/global.cjs" env ((h ++ h1) ++ h2))
    as ([c|e] & h3 & H3 & Hq3).
  2: { rewrite (bind_throw _ _ _ _ _ _ H3). repeat rewrite <- app_assoc.
       eexists; eexists; split; [reflexivity |].
       unfold remoteReads in *.
       repeat rewrite List.filter_app. rewrite Hq1, Hq2, Hq3. reflexivity. }
  rewrite (bind_ok _ _ _ _ _ _ H3). unfold ret.
  repeat rewrite <- app_assoc.
  eexists; eexists; split; [reflexivity |].
  unfold remoteReads in *.
  repeat rewrite List.filter_app. rewrite Hq1, Hq2, Hq3. reflexivity.
Qed.

Lemma fallbackEvents_no_read reason answer :
  remoteReads (fallbackEvents reason answer) = [].
Proof. destruct answer; reflexivity. Qed.

(** C8, as the code has it.  Once the handler's modules are loaded, a request
    whose drop id is not a string of decimal digits is answered by the
    fallback routine and nothing else, so no remote read is made; and a
    request with a well-formed id whose processing throws is answered by the
    same routine.  The routine serves [index.html] as read, with status 200,
    when the file can be read, and a critical error with status 500 when it
    cannot. *)
Theorem frame_fallback_on_bad_id_or_throw :
  forall (env : Env) (mods mods' : Modules) (dropId : QueryValue)
         (h h1 : list Event),
    ensureModulesLoaded mods env h = (Ok mods', h1) ->
    (invalidDropId dropId ->
     handler mods dropId env h
     = (Ok tt,
        h1 ++ fallbackEvents "Invalid Drop ID format."
                (readFileSync env
                   (h1 ++ [fallbackLog "Invalid Drop ID format."]) indexPath))
     /\ remoteReads (snd (handler mods dropId env h)) = remoteReads h)
    /\ (forall s error h2,
          dropId = QString s ->
          Js.isDecimalDigits s = true ->
          frame mods' s env h1 = (Throw error, h2) ->
          let reason :=
            "Error processing request: " +:+ Js.show (message error) in
          handler mods dropId env h
          = (Ok tt,
             h2 ++ fallbackEvents reason
                     (readFileSync env (h2 ++ [fallbackLog reason])
                        indexPath))).
Proof.
  intros env mods mods' dropId h h1 Hload. split.
  - intros Hinv.
    assert (Hrun : handler mods dropId env h
                   = serveOriginalIndex "Invalid Drop ID format." env h1).
    { unfold handler. rewrite (bind_ok _ _ _ _ _ _ Hload).
      destruct dropId as [|s|l]; simpl in Hinv; try reflexivity.
      rewrite Hinv. reflexivity. }
    rewrite Hrun, serveOriginalIndex_run. split; [reflexivity |].
    destruct (ensureModulesLoaded_run mods env h) as (r & hx & Hx & Hq).
    rewrite Hload in Hx. injection Hx as _ ->. simpl.
    unfold remoteReads in *. repeat rewrite List.filter_app.
    rewrite Hq. fold (remoteReads (fallbackEvents "Invalid Drop ID format."
      (readFileSync env
         ((h ++ hx) ++ [fallbackLog "Invalid Drop ID format."]) indexPath))).
    rewrite fallbackEvents_no_read. repeat rewrite app_nil_r. reflexivity.
  - intros s error h2 -> Hdigits Hframe reason.
    unfold handler. rewrite (bind_ok _ _ _ _ _ _ Hload). rewrite Hdigits.
    rewrite (tryCatch_throw _ _ _ _ _ _ Hframe).
    apply serveOriginalIndex_run.
Qed.

(** The claim as written fails where [index.html] cannot be read: a request
    with a malformed id is answered with status 500 and an error text, and no
    page is served. *)
Lemma frame_fallback_without_index :
  ~ (forall (env : Env) (mods : Modules) (dropId : QueryValue),
       invalidDropId dropId ->
       exists page h',
         handler mods dropId env [] = (Ok tt, h')
         /\ In (ESend 200 page) h').
Proof.
  intros H.
  destruct (H (Sample.server Sample.missingFile) Sample.notLoaded
              (QString "12a") eq_refl) as (page & h' & Hrun & Hin).
  vm_compute in Hrun. injection Hrun as <-.
  simpl in Hin.
  repeat (destruct Hin as [Hin | Hin]; [discriminate |]).
  contradiction.
Qed.

End Frame.

(** ** The notification audience *)
Section Notify.
Import Eff Api SendNotification Audience.

Lemma quiet_app a b : quiet a -> quiet b -> quiet (a ++ b).
Proof.
  unfold quiet, sends. intros Ha Hb. rewrite List.filter_app, Ha, Hb.
  reflexivity.
Qed.

Lemma quiet_nil : quiet [].
Proof. reflexivity. Qed.

Lemma fidOf_nil_iff (o : option Profile) :
  fidOf o = [] <-> forall p, o = Some p -> truthyFid (fid p) = false.
Proof.
  unfold fidOf. destruct o as [p|].
  - destruct (fid p) as [n|] eqn:Hf.
    + destruct (truthyFid (Some n)) eqn:Ht.
      * split; [discriminate |]. intros H.
        specialize (H p eq_refl). rewrite Hf in H. congruence.
      * split; [| reflexivity]. intros _ q [= <-]. rewrite Hf. assumption.
    + split; [| reflexivity]. intros _ q [= <-]. rewrite Hf. reflexivity.
  - split; [| reflexivity]. intros _ q [=].
Qed.

Lemma noFid_empty winners : noFid winners ∅.
Proof. intros a _. rewrite lookup_empty. reflexivity. Qed.

Lemma noFid_insert winners (R : gmap string Profile) a p :
  noFid winners R ->
  (winnerKey winners a -> truthyFid (fid p) = false) ->
  noFid winners (<[a := p]> R).
Proof.
  intros HR Hp b Hb. destruct (decide (a = b)) as [<- | Hne].
  - rewrite lookup_insert_eq. apply fidOf_nil_iff.
    intros q [= <-]. auto.
  - rewrite lookup_insert_ne by assumption. auto.
Qed.

Lemma getAddress_run_s a x (env : Env) h :
  Viem.getAddress a = Some x -> getAddress a env h = (Ok x, h).
Proof. unfold getAddress. intros ->. reflexivity. Qed.

Lemma mapM_getAddress_run l (env : Env) h :
  exists r, mapM getAddress l env h = (r, h).
Proof.
  induction l as [|a l (r & IH)]; simpl; [eexists; reflexivity |].
  unfold bind at 1. unfold getAddress at 1.
  destruct (Viem.getAddress a); simpl; [| eexists; reflexivity].
  unfold bind at 1. rewrite IH. destruct r; eexists; reflexivity.
Qed.

Lemma cachedResults_run winners l : forall R (env : Env) h,
  noCachedFid env h winners -> noFid winners R ->
  exists R', cachedResults l R env h = (Ok R', h) /\ noFid winners R'.
Proof.
  induction l as [|a l IH]; intros R env h Hc HR; simpl.
  - eexists; split; [reflexivity | assumption].
  - unfold bind at 1. unfold cacheGet at 1.
    apply IH; [assumption |].
    destruct (cacheAfter env h !! a) as [p|] eqn:Hp; [| assumption].
    apply noFid_insert; [assumption |]. intros Hk. eapply Hc; eassumption.
Qed.

Lemma notCached_run l (env : Env) h :
  exists l', notCached l env h = (Ok l', h).
Proof.
  induction l as [|a l (l' & IH)]; simpl; [eexists; reflexivity |].
  unfold bind at 1. unfold cacheGet at 1.
  rewrite (bind_ok _ _ _ _ _ _ IH). eexists; reflexivity.
Qed.

Lemma markUnknown_run chunk : forall (env : Env) h,
  exists hx, markUnknown chunk env h = (Ok tt, h ++ hx) /\ quiet hx.
Proof.
  induction chunk as [|a l IH]; intros env h; simpl.
  - exists []. rewrite app_nil_r. split; [reflexivity | apply quiet_nil].
  - unfold bind at 1. unfold cacheGet at 1.
    destruct (cacheAfter env h !! a).
    + unfold bind at 1. unfold ret at 1. apply IH.
    + unfold bind at 1. unfold cacheSet, emit.
      destruct (IH env (h ++ [ECacheSet a (unknownProfile a)])) as (hx & Hx & Hq).
      rewrite Hx. rewrite <- app_assoc.
      eexists; split; [reflexivity |].
      apply (quiet_app [_]); [reflexivity | assumption].
Qed.

Lemma storeEntries_run winners entries : forall R (env : Env) h,
  (forall addr a user users,
     In (addr, user :: users) entries ->
     Viem.getAddress addr = Some a -> winnerKey winners a ->
     truthyFid (u_fid user) = false) ->
  noFid winners R ->
  exists R' hx,
    storeEntries entries R env h = (Ok R', h ++ hx)
    /\ quiet hx /\ noFid winners R'.
Proof.
  induction entries as [|[addr users] l IH]; intros R env h Hent HR; simpl.
  - exists R, []. rewrite app_nil_r. repeat split; auto using quiet_nil.
  - assert (Hl : forall addr a user users,
               In (addr, user :: users) l ->
               Viem.getAddress addr = Some a -> winnerKey winners a ->
               truthyFid (u_fid user) = false).
    { intros ? ? ? ? Hin. eapply Hent. right. exact Hin. }
    destruct (Viem.isAddress addr) eqn:Ha; simpl; [| apply IH; assumption].
    apply isAddress_regex, getAddress_of_regex in Ha.
    rewrite (bind_ok _ _ _ _ _ _ (getAddress_run_s _ _ env h Ha)).
    destruct users as [|user users].
    + unfold bind at 1. unfold cacheSet, emit.
      destruct (IH R env (h ++ [ECacheSet (Viem.checksumAddress addr)
                                  (unknownProfile (Viem.checksumAddress addr))])
                  Hl HR) as (R' & hx & Hx & Hq & HR').
      rewrite Hx, <- app_assoc. eexists; eexists; split; [reflexivity |].
      split; [apply (quiet_app [_]); [reflexivity | assumption] | assumption].
    + unfold bind at 1. unfold cacheSet, emit.
      match goal with
      | |- context [storeEntries l ?R1 env ?h1] =>
          destruct (IH R1 env h1 Hl) as (R' & hx & Hx & Hq & HR')
      end.
      { apply noFid_insert; [assumption |]. intros Hk. simpl.
        eapply Hent; [left; reflexivity | exact Ha | exact Hk]. }
      rewrite Hx, <- app_assoc. eexists; eexists; split; [reflexivity |].
      split; [apply (quiet_app [_]); [reflexivity | assumption] | assumption].
Qed.

Lemma fetchChunk_run winners chunk R (env : Env) h :
  noFetchedFid env winners -> noFid winners R ->
  exists R' hx,
    fetchChunk chunk R env h = (Ok R', h ++ hx)
    /\ quiet hx /\ noFid winners R'.
Proof.
  intros Hf HR. unfold fetchChunk.
  set (url := NEYNAR_API_USER_BULK_BY_ADDRESS_URL +:+ "?addresses="
              +:+ joinWith "," chunk).
  unfold tryCatch. unfold bind at 1. unfold call at 1.
  destruct (fetchProfiles env h url) as [response|e] eqn:Hresp.
  2: { exists R, [EFetchProfiles url]. repeat split; auto. }
  destruct (b_ok response); simpl.
  - unfold bind at 1. unfold liftRes.
    destruct (b_json response) as [entries|e] eqn:Hjson.
    + unfold ret at 1.
      destruct (storeEntries_run winners entries R env
                  (h ++ [EFetchProfiles url])) as (R' & hx & Hx & Hq & HR');
        [| assumption |].
      { intros addr a user users Hin Ha Hk.
        eapply Hf; eassumption. }
      rewrite Hx, <- app_assoc. exists R'. eexists. split; [reflexivity |].
      split; [apply (quiet_app [_]); [reflexivity | assumption] | assumption].
    + unfold throw at 1. exists R, [EFetchProfiles url]. repeat split; auto.
  - unfold bind at 1.
    destruct (markUnknown_run chunk env (h ++ [EFetchProfiles url]))
      as (hx & Hx & Hq).
    rewrite Hx. unfold ret. rewrite <- app_assoc.
    exists R. eexists. split; [reflexivity |].
    split; [apply (quiet_app [_]); [reflexivity | assumption] | assumption].
Qed.

Lemma fetchChunks_run winners chunks : forall R (env : Env) h,
  noFetchedFid env winners -> noFid winners R ->
  exists R' hx,
    fetchChunks chunks R env h = (Ok R', h ++ hx)
    /\ quiet hx /\ noFid winners R'.
Proof.
  induction chunks as [|chunk l IH]; intros R env h Hf HR; simpl.
  - exists R, []. rewrite app_nil_r. repeat split; auto.
  - destruct (fetchChunk_run winners chunk R env h Hf HR)
      as (R1 & h1 & H1 & Hq1 & HR1).
    rewrite (bind_ok _ _ _ _ _ _ H1).
    destruct (IH R1 env (h ++ h1) Hf HR1) as (R2 & h2 & H2 & Hq2 & HR2).
    rewrite H2, <- app_assoc. exists R2. eexists. split; [reflexivity |].
    split; [apply quiet_app; assumption | assumption].
Qed.

(** The profile lookup sends no notification, and gives no winner a FID when
    neither the cache nor the identity API has one. *)
Lemma fetchFarcasterProfiles_run winners addresses (env : Env) h :
  noCachedFid env h winners -> noFetchedFid env winners ->
  exists r hx,
    fetchFarcasterProfiles addresses env h = (r, h ++ hx)
    /\ quiet hx
    /\ forall R, r = Ok R -> noFid winners R.
Proof.
  intros Hc Hf. unfold fetchFarcasterProfiles.
  assert (Hempty : exists r hx,
            ret (Env := Env) (Event := Event) (∅ : gmap string Profile) env h
            = (r, h ++ hx)
            /\ quiet hx /\ forall R, r = Ok R -> noFid winners R).
  { exists (Ok ∅), []. rewrite app_nil_r. split; [reflexivity |].
    split; [reflexivity |]. intros R [= <-]. apply noFid_empty. }
  destruct addresses as [|a0 rest]; [exact Hempty |].
  unfold bind at 1. unfold ask at 1.
  destruct (negb (Js.truthyOpt (NEYNAR_API_KEY env))); [exact Hempty |].
  destruct (mapM_getAddress_run (a0 :: rest) env h) as ([normalized|e] & Hn).
  2: { rewrite (bind_throw _ _ _ _ _ _ Hn). exists (Throw e), [].
       rewrite app_nil_r. repeat split; auto. intros R [=]. }
  rewrite (bind_ok _ _ _ _ _ _ Hn).
  destruct (cachedResults_run winners (dedupe normalized) ∅ env h Hc
              (noFid_empty winners)) as (R0 & H0 & HR0).
  rewrite (bind_ok _ _ _ _ _ _ H0).
  destruct (notCached_run (dedupe normalized) env h) as (toFetch & Ht).
  rewrite (bind_ok _ _ _ _ _ _ Ht).
  destruct (fetchChunks_run winners
              (Viem.chunks (S (List.length toFetch)) CHUNK_SIZE toFetch)
              R0 env h Hf HR0) as (R' & hx & Hx & Hq & HR').
  rewrite Hx. exists (Ok R'), hx. split; [reflexivity |].
  split; [assumption |]. intros R [= <-]. assumption.
Qed.

Lemma pushIfAddress_run a (env : Env) h :
  exists l, pushIfAddress a env h = (Ok l, h).
Proof.
  unfold pushIfAddress. destruct a as [s|]; [| eexists; reflexivity].
  destruct (Js.truthy s); simpl; [| eexists; reflexivity].
  destruct (Viem.isAddress s) eqn:Ha; [| eexists; reflexivity].
  apply isAddress_regex, getAddress_of_regex in Ha.
  rewrite (bind_ok _ _ _ _ _ _ (getAddress_run_s _ _ env h Ha)).
  eexists; reflexivity.
Qed.

Lemma mapM_getAddress_keys l : forall normalized (env : Env) h h',
  mapM getAddress l env h = (Ok normalized, h') ->
  forall a, In a normalized -> exists w, In w l /\ Viem.getAddress w = Some a.
Proof.
  induction l as [|w l IH]; intros normalized env h h' Hrun a Hin; simpl in Hrun.
  - injection Hrun as <- _. contradiction.
  - unfold bind at 1 in Hrun. unfold getAddress at 1 in Hrun.
    destruct (Viem.getAddress w) as [x|] eqn:Hw; simpl in Hrun;
      [| discriminate].
    unfold bind at 1 in Hrun.
    destruct (mapM getAddress l env h) as [[rest|e] h1] eqn:Hrest;
      [| discriminate].
    injection Hrun as <- _. destruct Hin as [<- | Hin].
    + exists w. split; [left; reflexivity | assumption].
    + destruct (IH rest env h h1 Hrest a Hin) as (w' & Hw' & Ha).
      exists w'. split; [right; assumption | assumption].
Qed.

(** The winners case with no FID to be found: a failure value, or a throw. *)
Lemma winnersCase_run n (profiles : gmap string Profile) dropUrl rewardDisplay
  (env : Env) h :
  noFid (winnersOf n) profiles ->
  (exists text,
     winnersCase n profiles dropUrl rewardDisplay env h
     = (Ok (inl (failure text)), h))
  \/ (exists e,
       winnersCase n profiles dropUrl rewardDisplay env h = (Throw e, h)).
Proof.
  intros HR. unfold winnersCase, winnersOf in *.
  destruct (winnerAddresses n) as [l|]; [| right; eexists; reflexivity].
  destruct (existsb _ l); [right; eexists; reflexivity |].
  destruct (mapM_getAddress_run l env h) as ([normalized|e] & Hn).
  2: { right. rewrite (bind_throw _ _ _ _ _ _ Hn). eexists; reflexivity. }
  rewrite (bind_ok _ _ _ _ _ _ Hn).
  assert (Hnone : flat_map (fun a => fidOf (profiles !! a)) normalized = []).
  { assert (Hall : forall a, In a normalized -> fidOf (profiles !! a) = []).
    { intros a Hin. apply HR.
      eapply mapM_getAddress_keys; eassumption. }
    clear Hn. induction normalized as [|a r IH]; [reflexivity |].
    simpl. rewrite (Hall a) by (left; reflexivity). simpl.
    apply IH. intros b Hb. apply Hall. right. assumption. }
  rewrite Hnone. left. eexists. reflexivity.
Qed.

(** C3. A [winners-selected] dispatch in which no winner resolves to a FID,
    neither from the cache nor from the identity API, returns a failure value
    ([success] false, with a message) and never calls the notification-send
    API. *)
Theorem winners_without_fids_not_sent :
  forall (env : Env) (h : list Event) (n : NotificationData),
    category n = Some "winners-selected" ->
    noCachedFid env h (winnersOf n) ->
    noFetchedFid env (winnersOf n) ->
    exists text hx,
      handleNotificationLogic n env h = (Ok (failure text), h ++ hx)
      /\ sends hx = [].
Proof.
  intros env h n Hcat Hc Hf. unfold handleNotificationLogic.
  rewrite Hcat.
  set (host := if Js.truthyOpt (creatorAddress n)
                  && negb (Js.truthyOpt (hostAddress n))
               then creatorAddress n else hostAddress n).
  unfold tryCatch.
  assert (Hneeds : needsDropId (Some "winners-selected") = true)
    by reflexivity.
  rewrite Hneeds.
  destruct (negb (Js.truthyOpt (dropId n))); cbn [andb].
  { eexists. exists []. rewrite app_nil_r. split; reflexivity. }
  destruct (pushIfAddress_run host env h) as (l1 & H1).
  rewrite (bind_ok _ _ _ _ _ _ H1).
  destruct (pushIfAddress_run (sponsorAddress n) env h) as (l2 & H2).
  rewrite (bind_ok _ _ _ _ _ _ H2).
  destruct (pushIfAddress_run (participantAddress n) env h) as (l3 & H3).
  rewrite (bind_ok _ _ _ _ _ _ H3).
  assert (H4 : exists r,
            match winnerAddresses n with
            | Some l => mapM getAddress (List.filter Viem.isAddress l)
            | None => ret []
            end env h = (r, h)).
  { destruct (winnerAddresses n) as [l|]; [| eexists; reflexivity].
    apply mapM_getAddress_run. }
  destruct H4 as ([l4|e] & H4).
  2: { rewrite (bind_throw _ _ _ _ _ _ H4).
       eexists. exists []. rewrite app_nil_r. split; reflexivity. }
  rewrite (bind_ok _ _ _ _ _ _ H4).
  destruct (fetchFarcasterProfiles_run (winnersOf n)
              (l1 ++ l2 ++ l3 ++ l4) env h Hc Hf)
    as ([profiles|e] & hx & Hx & Hq & HR).
  2: { rewrite (bind_throw _ _ _ _ _ _ Hx).
       eexists. exists hx. split; [reflexivity | assumption]. }
  rewrite (bind_ok _ _ _ _ _ _ Hx).
  destruct (winnersCase_run n profiles (dropUrlOf (dropId n))
              (rewardDisplayOf n) env (h ++ hx) (HR profiles eq_refl))
    as [(text & Hw) | (e & Hw)].
  - rewrite (bind_ok _ _ _ _ _ _ Hw). unfold ret.
    exists text, hx. split; [reflexivity | assumption].
  - rewrite (bind_throw _ _ _ _ _ _ Hw).
    eexists. exists hx. split; [reflexivity | assumption].
Qed.

Lemma quiet_not_in hx fids notification uuid :
  quiet hx -> ~ In (EFetchNotifications fids notification uuid) hx.
Proof.
  unfold quiet, sends. intros Hq Hin.
  assert (Hf : In (EFetchNotifications fids notification uuid)
                  (List.filter isSend hx))
    by (apply List.filter_In; split; [assumption | reflexivity]).
  rewrite Hq in Hf. contradiction.
Qed.

Lemma noCachedFid_nil (env : Env) h : noCachedFid env h [].
Proof. intros a p (w & [] & _). Qed.

Lemma noFetchedFid_nil (env : Env) : noFetchedFid env [].
Proof. intros h url resp entries addr a user users _ _ _ _ (w & [] & _). Qed.

(** What is sent goes to the audience it was given. *)
Lemma sendNeynarNotification_run targets notification (env : Env) h :
  exists r hx,
    sendNeynarNotification targets notification env h = (r, h ++ hx)
    /\ forall fids n' uuid,
         In (EFetchNotifications fids n' uuid) hx ->
         fids = targets /\ n' = notification.
Proof.
  unfold sendNeynarNotification. unfold bind at 1. unfold ask at 1.
  destruct (negb (Js.truthyOpt (NEYNAR_API_KEY env))).
  { eexists. exists []. rewrite app_nil_r. split; [reflexivity |].
    intros ? ? ? []. }
  destruct targets as [|t ts].
  { eexists. exists []. rewrite app_nil_r. split; [reflexivity |].
    intros ? ? ? []. }
  unfold bind at 1. unfold call at 1. unfold tryCatch.
  unfold bind at 1. unfold call at 1.
  set (uuid := uuidv4 env h).
  set (ev := EFetchNotifications (t :: ts) notification uuid).
  assert (Hin : forall fids n' u,
            In (EFetchNotifications fids n' u) [EUuid; ev] ->
            fids = t :: ts /\ n' = notification).
  { intros fids n' u [H | [H | []]]; [discriminate |].
    unfold ev in H. injection H as <- <- _. auto. }
  destruct (fetchNotifications env (h ++ [EUuid]) (t :: ts) notification uuid)
    as [response|e].
  - unfold bind at 1. unfold liftRes.
    destruct (s_json response) as [[]|e]; simpl.
    + destruct (s_ok response); simpl.
      * eexists. exists [EUuid; ev]. rewrite <- app_assoc.
        split; [reflexivity | exact Hin].
      * eexists. exists [EUuid; ev]. rewrite <- app_assoc.
        split; [reflexivity | exact Hin].
    + eexists. exists [EUuid; ev]. rewrite <- app_assoc.
      split; [reflexivity | exact Hin].
  - eexists. exists [EUuid; ev]. rewrite <- app_assoc.
    split; [reflexivity | exact Hin].
Qed.

Lemma pushIfAddress_valid s (env : Env) h :
  Viem.isAddress s = true ->
  pushIfAddress (Some s) env h = (Ok [Viem.checksumAddress s], h).
Proof.
  intros Ha. unfold pushIfAddress. rewrite Ha.
  apply isAddress_regex in Ha.
  rewrite (regex_truthy _ Ha). cbn [andb].
  rewrite (bind_ok _ _ _ _ _ _
             (getAddress_run_s _ _ env h (getAddress_of_regex _ Ha))).
  reflexivity.
Qed.

(** C4, on the code.  The payload the join flow posts names no host.  So the
    handler looks up the participant's profile only, and a notification it
    sends for that payload is addressed to the FID of that profile alone:
    the host is neither looked up nor notified. *)
Theorem join_flow_audience_lacks_host :
  forall (env : Env) (h : list Event) (dropId address participantName : string)
         (dropInfo : Client.ExtendedDropInfo) (hash : string),
    exists r hx,
      handleNotificationLogic
        (DropDetailPage.joinPayload dropId address participantName dropInfo
           hash) env h
      = (r, h ++ hx)
      /\ forall fids notification uuid,
           In (EFetchNotifications fids notification uuid) hx ->
           exists (profiles : gmap string Profile) hp,
             fetchFarcasterProfiles [Viem.checksumAddress address] env h
             = (Ok profiles, hp)
             /\ fids = fidOf (profiles !! address).
Proof.
  intros env h dropId address participantName dropInfo hash.
  unfold handleNotificationLogic, DropDetailPage.joinPayload.
  cbn [category Api.dropId creatorAddress hostAddress sponsorAddress
       participantAddress winnerAddresses Js.truthyOpt andb negb].
  unfold tryCatch.
  assert (Hneeds : needsDropId (Some "game-joined") = true) by reflexivity.
  rewrite Hneeds.
  destruct (negb (Js.truthy dropId)); cbn [andb].
  { eexists. exists []. rewrite app_nil_r. split; [reflexivity |].
    intros ? ? ? []. }
  unfold bind at 1. unfold pushIfAddress at 1. unfold ret at 1.
  unfold bind at 1. unfold pushIfAddress at 1. unfold ret at 1.
  destruct (Viem.isAddress address) eqn:Hvalid.
  - rewrite (bind_ok _ _ _ _ _ _ (pushIfAddress_valid _ env h Hvalid)).
    unfold bind at 1. unfold ret at 1. cbn [app].
    destruct (fetchFarcasterProfiles_run [] [Viem.checksumAddress address]
                env h (noCachedFid_nil env h) (noFetchedFid_nil env))
      as ([profiles|e] & hx & Hx & Hq & _).
    2: { rewrite (bind_throw _ _ _ _ _ _ Hx).
         eexists. exists hx. split; [reflexivity |].
         intros fids n' u Hin. exfalso. eapply quiet_not_in; eassumption. }
    rewrite (bind_ok _ _ _ _ _ _ Hx).
    unfold joinedCase.
    cbn [participantAddress hostAddress isAddressOpt profileOf
         Api.participantName].
    rewrite Hvalid. cbn [negb].
    unfold bind at 1. unfold ret at 1.
    match goal with
    | |- context [sendNeynarNotification ?t ?n env (h ++ hx)] =>
        destruct (sendNeynarNotification_run t n env (h ++ hx))
          as (r & hs & Hs & Hsent);
        rewrite Hs
    end.
    rewrite <- app_assoc.
    assert (Hall : forall fids n' u,
              In (EFetchNotifications fids n' u) (hx ++ hs) ->
              exists (profiles0 : gmap string Profile) hp,
                fetchFarcasterProfiles [Viem.checksumAddress address] env h
                = (Ok profiles0, hp)
                /\ fids = fidOf (profiles0 !! address)).
    { intros fids n' u Hin. apply in_app_or in Hin.
      destruct Hin as [Hin | Hin].
      - exfalso. eapply quiet_not_in; eassumption.
      - destruct (Hsent fids n' u Hin) as [-> _].
        exists profiles, (h ++ hx). split; [exact Hx | reflexivity]. }
    destruct r; (eexists; exists (hx ++ hs); split; [reflexivity | exact Hall]).
  - destruct (pushIfAddress_run (Some address) env h) as (l3 & H3).
    rewrite (bind_ok _ _ _ _ _ _ H3).
    unfold bind at 1. unfold ret at 1.
    destruct (fetchFarcasterProfiles_run [] ([] ++ [] ++ l3 ++ []) env h
                (noCachedFid_nil env h) (noFetchedFid_nil env))
      as ([profiles|e] & hx & Hx & Hq & _).
    2: { rewrite (bind_throw _ _ _ _ _ _ Hx).
         eexists. exists hx. split; [reflexivity |].
         intros fids n' u Hin. exfalso. eapply quiet_not_in; eassumption. }
    rewrite (bind_ok _ _ _ _ _ _ Hx).
    unfold joinedCase.
    cbn [participantAddress hostAddress isAddressOpt profileOf
         Api.participantName].
    rewrite Hvalid. cbn [negb].
    unfold bind at 1. unfold throw at 1.
    eexists. exists hx. split; [reflexivity |].
    intros fids n' u Hin. exfalso. eapply quiet_not_in; eassumption.
Qed.

End Notify.

(** ** Worked cases *)
Section Worked.
Import Eff Api Client DropDetailPage Trace Sample.


Lemma formatters_default_on_lookup_failure_witness :
  isToken ERC20 = true
  /\ formatRewardDisplay 1500000 ERC20 token 1 [] offline []
     = (Ok "0.0000000000015 Tokens",
        [readEvent token "decimals"; readEvent token "symbol"]).
Proof.
  split; [reflexivity |].
  destruct (formatters_default_on_lookup_failure
              offline [] 1500000 ERC20 token 1 [] true)
    as (_ & _ & H).
  destruct (H eq_refl) as (d & sym & Hrun & _ & Hd & Hs).
  rewrite Hrun.
  rewrite (Hd (Error "network unreachable") eq_refl).
  rewrite (Hs (Error "network unreachable") eq_refl).
  vm_compute. reflexivity.
Defined.

Lemma entry_fee_free_without_read_witness :
  (true = false \/ 0 = 0)
  /\ formatEntryFeeDisplay 0 true ERC20 token offline [] = (Ok "Free", []).
Proof.
  split; [right; reflexivity |].
  apply (entry_fee_free_without_read offline [] 0 true ERC20 token).
  right; reflexivity.
Defined.

Lemma join_by_host_rejected_locally_witness :
  Viem.getAddress alice = Some alice
  /\ Viem.getAddress aliceLower = Some alice
  /\ exists msg,
       joinDrop (page alice aliceLower) offline []
       = (Ok tt, [] ++ [EToast TError msg]).
Proof.
  split; [vm_compute; reflexivity |].
  split; [vm_compute; reflexivity |].
  apply (join_by_host_rejected_locally offline [] (page alice aliceLower)
           alice alice (drop aliceLower)).
  - reflexivity.
  - reflexivity.
  - vm_compute; reflexivity.
  - vm_compute; reflexivity.
  - repeat constructor.
Defined.

Lemma select_winners_too_few_participants_witness :
  currentParticipants (drop alice) < numWinners (drop alice)
  /\ remoteWrites (snd (selectWinnersManually (page alice alice) offline []))
     = remoteWrites [].
Proof.
  split; [reflexivity |].
  apply (select_winners_too_few_participants offline [] (page alice alice)
           (drop alice)); reflexivity.
Defined.

Lemma unfunded_sponsored_not_rendered_witness :
  fetchAndSetDropInfo "7" true (answering (details alice)) []
  = (Ok tt,
     [ESet (SetLoadingData true);
      EReadContract fireballDrop "getDropInfo" [AInt 7];
      EToast TError "This sponsored game is not funded yet.";
      ENavigate "/available";
      ESet (SetError (Some "Unfunded sponsored game"));
      ESet (SetLoadingData false)]).
Proof.
  apply (unfunded_sponsored_not_rendered (answering (details alice)) [] "7"
           true 7 (details alice)); reflexivity.
Defined.

Lemma winner_highlight_first_match_witness :
  validAddresses [alice; carol]
  /\ validAddresses [bob; aliceLower]
  /\ exists indices,
       winnerIndicesOf [alice; carol] [bob; aliceLower] offline []
       = (Ok indices, [])
       /\ In 1 indices /\ ~ In 0 indices.
Proof.
  assert (Hw : validAddresses [alice; carol]) by (repeat constructor).
  assert (Hp : validAddresses [bob; aliceLower]) by (repeat constructor).
  split; [exact Hw |]. split; [exact Hp |].
  destruct (proj1 winner_highlight_first_match offline [] [alice; carol]
              [bob; aliceLower] Hw Hp) as (indices & Hrun & _ & Hiff & _).
  exists indices. split; [exact Hrun |].
  split.
  - apply (Hiff 1%nat aliceLower eq_refl). split.
    + exists alice. split; [left; reflexivity | vm_compute; reflexivity].
    + intros m p q Hm Hq Hp'.
      destruct m as [|[|m]]; [| lia | lia].
      simpl in Hq, Hp'. injection Hq as <-. injection Hp' as <-.
      vm_compute. discriminate.
  - intros Hin. apply (Hiff 0%nat bob eq_refl) in Hin.
    destruct Hin as [(w & [<- | [<- | []]] & Hsame) _];
      vm_compute in Hsame; discriminate.
Defined.

Lemma creation_limits_enforced_witness :
  ~ withinLimits form
  /\ fst (CreateDropPage.handleSubmit numeric wallet form offline [])
     = Ok tt
  /\ remoteWrites
       (snd (CreateDropPage.handleSubmit numeric wallet form offline []))
     = remoteWrites [].
Proof.
  assert (Hout : ~ withinLimits form).
  { intros (p & Hp & _ & Hw). vm_compute in Hp. injection Hp as <-.
    simpl in Hw. lia. }
  split; [exact Hout |].
  destruct (creation_limits_enforced numeric offline [] form) as [H _].
  destruct (H Hout) as [_ Hsubmit].
  destruct (Hsubmit wallet) as (Hok & Hw & _).
  split; assumption.
Defined.

Lemma frame_fallback_on_bad_id_or_throw_witness :
  FrameHandler.ensureModulesLoaded notLoaded (server missingFile) []
  = (Ok loaded,
     [FrameHandler.EImport "../src/utils/cjs/FireballDropAbi.cjs";
      FrameHandler.EImport "../src/utils/cjs/erc20.cjs";
      FrameHandler.EImport "../src/types/cjs/global.cjs"])
  /\ FrameTrace.invalidDropId (FrameHandler.QString "12a")
  /\ FrameTrace.remoteReads
       (snd (FrameHandler.handler notLoaded (FrameHandler.QString "12a")
               (server missingFile) []))
     = FrameTrace.remoteReads []
  /\ exists h2,
       FrameHandler.handler notLoaded (FrameHandler.QString "12")
         (server missingFile) []
       = (Ok tt,
          h2 ++ FrameTrace.fallbackEvents
                  ("Error processing request: "
                   +:+ "ENOENT: no such file or directory, open 'dist/index.html'")
                  missingFile).
Proof.
  split; [reflexivity |]. split; [reflexivity |].
  split.
  - destruct (frame_fallback_on_bad_id_or_throw (server missingFile)
                notLoaded loaded (FrameHandler.QString "12a") [] _ eq_refl)
      as [H _].
    destruct (H eq_refl) as [_ Hreads]. exact Hreads.
  - destruct (frame_fallback_on_bad_id_or_throw (server missingFile)
                notLoaded loaded (FrameHandler.QString "12") [] _ eq_refl)
      as [_ H].
    eexists.
    apply (H "12" (Error "ENOENT: no such file or directory, open 'dist/index.html'")
             _ eq_refl eq_refl).
    vm_compute. reflexivity.
Defined.

(** A drop-info read that fails is no failure of the request: the page goes
    out with the frame's metadata and the generic prize in it. *)
Example frame_read_failure_generic_prize :
  exists body,
    snd (FrameHandler.handler notLoaded (FrameHandler.QString "12")
           (server (Ok page0)) [])
    = [FrameHandler.EImport "../src/utils/cjs/FireballDropAbi.cjs";
       FrameHandler.EImport "../src/utils/cjs/erc20.cjs";
       FrameHandler.EImport "../src/types/cjs/global.cjs";
       FrameHandler.EReadContract fireballDrop "getDropInfo" [12];
       FrameHandler.EReadFile FrameHandler.indexPath;
       FrameHandler.ESetHeader "Content-Type" "text/html";
       FrameHandler.ESend 200 body]
    /\ body <> page0
    /\ Js.includes body "View Drop #12 - an exciting prize!" = true.
Proof.
  eexists. split; [vm_compute; reflexivity |].
  split; [vm_compute; discriminate | vm_compute; reflexivity].
Qed.

Lemma winners_without_fids_not_sent_witness :
  Audience.noCachedFid directory []
    (Audience.winnersOf (winnersSelected [carol]))
  /\ Audience.noFetchedFid directory
       (Audience.winnersOf (winnersSelected [carol]))
  /\ exists text hx,
       SendNotification.handleNotificationLogic (winnersSelected [carol])
         directory []
       = (Ok (SendNotification.failure text), [] ++ hx)
       /\ Audience.sends hx = [].
Proof.
  assert (Hc : Audience.noCachedFid directory []
                 (Audience.winnersOf (winnersSelected [carol]))).
  { intros a p _ Hp.
    change (SendNotification.cacheAfter directory [])
      with (∅ : gmap string SendNotification.Profile) in Hp.
    rewrite lookup_empty in Hp. discriminate. }
  assert (Hf : Audience.noFetchedFid directory
                 (Audience.winnersOf (winnersSelected [carol]))).
  { intros h url resp entries addr a u us Hresp Hjson Hin Ha (w & Hw & Hk).
    injection Hresp as <-. injection Hjson as <-.
    destruct Hw as [<- | []].
    destruct Hin as [Hin | [Hin | []]]; injection Hin as <- <- <-;
      vm_compute in Ha, Hk; congruence. }
  split; [exact Hc |]. split; [exact Hf |].
  apply (winners_without_fids_not_sent directory [] (winnersSelected [carol])
           eq_refl Hc Hf).
Defined.

(** The failing case of C4: alice hosts, bob joins, the identity service
    knows both; the notification goes to bob's FID 22 only. *)
Example join_notification_reaches_participant_only :
  Audience.sends
    (snd (SendNotification.handleNotificationLogic
            (joinPayload "7" bob "Bob" (drop alice) "0xfeed") directory []))
  = [SendNotification.EFetchNotifications [22]
       {| SendNotification.title := "New Participant! ðŸ™Œ";
          SendNotification.body := "Bob joined Drop #7! Prize: N/A.";
          SendNotification.target_url :=
            "https://fireball-rho.vercel.app/drop/7" |}
       "uuid-1"]
  /\ SendNotification.cacheAfter directory
       (snd (SendNotification.handleNotificationLogic
               (joinPayload "7" bob "Bob" (drop alice) "0xfeed") directory []))
     !! alice
     = Some {| SendNotification.fid := Some 11;
               SendNotification.username := Some "alice";
               SendNotification.displayName := Some "alice";
               SendNotification.pfpUrl := None;
               SendNotification.custodyAddress := alice |}.
Proof. split; vm_compute; reflexivity. Qed.

(** For contrast: where the gates pass, the writes are submitted. *)
Example join_by_other_submits_write :
  remoteWrites (snd (joinDrop (page carol alice) online []))
  = [EWriteContract fireballDrop "joinDrop" [AInt 7; AStr "User-C6FB"]
       (Some 0)].
Proof. vm_compute. reflexivity. Qed.

Example form_within_limits_submits_write :
  remoteWrites
    (snd (CreateDropPage.handleSubmit eighths wallet formOfTen online []))
  = [EWriteContract fireballDrop "createDrop"
       [AInt 0; AInt 125000000000000000; AStr ZERO_ADDRESS; AReward ETH;
        AInts []; AInt 10; ABool false; ABool true; AInt 3]
       (Some 125000000000000000)].
Proof. vm_compute. reflexivity. Qed.

Example select_with_enough_participants_submits_write :
  let st :=
    {| st_dropId := Some "7"; st_address := Some alice;
       st_isConnected := true; st_isConnecting := false;
       st_isWalletClientLoading := false; st_walletClient := true;
       st_dropInfo := Some (dropWith alice 1);
       st_participants := [] |} in
  remoteWrites (snd (selectWinnersManually st online []))
  = [EWriteContract fireballDrop "selectWinnersManually" [AInt 7] None].
Proof. vm_compute. reflexivity. Qed.

(** A winner the identity service does not know: the profiles are looked up
    and nothing is sent. *)
Example unknown_winner_not_notified :
  SendNotification.handleNotificationLogic (winnersSelected [carol])
    directory []
  = (Ok (SendNotification.failure "No valid FIDs for winners"),
     [SendNotification.EFetchProfiles
        (SendNotification.NEYNAR_API_USER_BULK_BY_ADDRESS_URL
         +:+ "?addresses=" +:+ carol);
      SendNotification.ECacheSet alice
        {| SendNotification.fid := Some 11;
           SendNotification.username := Some "alice";
           SendNotification.displayName := Some "alice";
           SendNotification.pfpUrl := None;
           SendNotification.custodyAddress := alice |};
      SendNotification.ECacheSet bob
        {| SendNotification.fid := Some 22;
           SendNotification.username := Some "bob";
           SendNotification.displayName := Some "bob";
           SendNotification.pfpUrl := None;
           SendNotification.custodyAddress := bob |}]).
Proof. vm_compute. reflexivity. Qed.

End Worked.

(** * Further properties *)

(** ** Rules for computations *)
Section Rules.
Context {Env Event : Type}.
Import Eff Logic.
Variable env : Env.
Variable P : list Event -> Prop.
Hypothesis HP : Stable P.

Lemma yields_ret {A} (R : A -> Prop) E a :
  R a -> yields env P R E (ret a).
Proof.
  intros Ha h. exists (Ok a), []. rewrite app_nil_r.
  repeat split; [apply (stable_nil _ HP) | exact Ha].
Qed.

Lemma yields_throw {A} (R : A -> Prop) (E : JsError -> Prop) e :
  E e -> yields env P R E (throw e).
Proof.
  intros He h. exists (Throw e), []. rewrite app_nil_r.
  repeat split; [apply (stable_nil _ HP) | exact He].
Qed.

Lemma yields_bind {A B} (R1 : A -> Prop) (R : B -> Prop) E
  (m : Eff.M Env Event A) (k : A -> Eff.M Env Event B) :
  yields env P R1 E m ->
  (forall a, R1 a -> yields env P R E (k a)) ->
  yields env P R E (bind m k).
Proof.
  intros Hm Hk h. destruct (Hm h) as (r & hx & Hrun & Hx & Hr).
  unfold bind. rewrite Hrun. destruct r as [a|e].
  - destruct (Hk a Hr (h ++ hx)) as (r' & hy & Hrun' & Hy & Hr').
    exists r', (hx ++ hy). rewrite Hrun', app_assoc.
    repeat split; [apply (stable_app _ HP); assumption | exact Hr'].
  - exists (Throw e), hx. repeat split; assumption.
Qed.

Lemma yields_tryCatch {A} (R : A -> Prop) (E1 E : JsError -> Prop)
  (m : Eff.M Env Event A) handler :
  yields env P R E1 m ->
  (forall e, E1 e -> yields env P R E (handler e)) ->
  yields env P R E (tryCatch m handler).
Proof.
  intros Hm Hk h. destruct (Hm h) as (r & hx & Hrun & Hx & Hr).
  unfold tryCatch. rewrite Hrun. destruct r as [a|e].
  - exists (Ok a), hx. repeat split; assumption.
  - destruct (Hk e Hr (h ++ hx)) as (r' & hy & Hrun' & Hy & Hr').
    exists r', (hx ++ hy). rewrite Hrun', app_assoc.
    repeat split; [apply (stable_app _ HP); assumption | exact Hr'].
Qed.

Lemma yields_tryFinally {A} (R : A -> Prop) (E : JsError -> Prop)
  (m : Eff.M Env Event A) f :
  yields env P R E m -> yields env P any E f ->
  yields env P R E (tryFinally m f).
Proof.
  intros Hm Hf h. destruct (Hm h) as (r & hx & Hrun & Hx & Hr).
  unfold tryFinally. rewrite Hrun.
  destruct (Hf (h ++ hx)) as (r' & hy & Hrun' & Hy & Hr').
  rewrite Hrun'. destruct r' as [u|e].
  - exists r, (hx ++ hy). rewrite app_assoc.
    repeat split; [apply (stable_app _ HP); assumption | exact Hr].
  - exists (Throw e), (hx ++ hy). rewrite app_assoc.
    repeat split; [apply (stable_app _ HP); assumption | exact Hr'].
Qed.

Lemma yields_emit (R : unit -> Prop) (E : JsError -> Prop) e :
  P [e] -> R tt -> yields env P R E (emit e).
Proof.
  intros He Hr h. exists (Ok tt), [e]. repeat split; assumption.
Qed.

Lemma yields_call {A} (R : A -> Prop) (E : JsError -> Prop) e
  (answer : Env -> list Event -> Res A) :
  P [e] ->
  (forall h, match answer env h with Ok a => R a | Throw x => E x end) ->
  yields env P R E (call e answer).
Proof.
  intros He Hr h. exists (answer env h), [e].
  repeat split; [exact He | apply Hr].
Qed.

Lemma yields_ask {A} (R : A -> Prop) (E : JsError -> Prop) (f : Env -> A) :
  R (f env) -> yields env P R E (ask f).
Proof.
  intros Hr h. exists (Ok (f env)), []. rewrite app_nil_r.
  repeat split; [apply (stable_nil _ HP) | exact Hr].
Qed.

Lemma yields_orThrow {A} (R : A -> Prop) (E : JsError -> Prop) o e :
  (forall a, o = Some a -> R a) -> (o = None -> E e) ->
  yields env P R E (orThrow o e).
Proof.
  intros Hs Hn. destruct o as [a|]; simpl.
  - apply yields_ret. apply Hs. reflexivity.
  - apply yields_throw. apply Hn. reflexivity.
Qed.

Lemma yields_liftRes {A} (R : A -> Prop) (E : JsError -> Prop) r :
  match r with Ok a => R a | Throw x => E x end ->
  yields env P R E (liftRes r).
Proof.
  destruct r as [a|x]; simpl; intros H;
    [apply yields_ret | apply yields_throw]; exact H.
Qed.

Lemma yields_when (E : JsError -> Prop) b m :
  yields env P any E m -> yields env P any E (when b m).
Proof.
  intros Hm. destruct b; simpl; [exact Hm | apply yields_ret; exact I].
Qed.

Lemma yields_mapM {A B} (R : B -> Prop) (E : JsError -> Prop)
  (f : A -> Eff.M Env Event B) l :
  (forall x, In x l -> yields env P R E (f x)) ->
  yields env P (Forall R) E (mapM f l).
Proof.
  induction l as [|x l IH]; intros Hf; simpl.
  - apply yields_ret. constructor.
  - apply (yields_bind R).
    + apply Hf. left. reflexivity.
    + intros y Hy. apply (yields_bind (Forall R)).
      * apply IH. intros z Hz. apply Hf. right. exact Hz.
      * intros ys Hys. apply yields_ret. constructor; assumption.
Qed.

Lemma yields_weaken {A} (R R' : A -> Prop) (E E' : JsError -> Prop) m :
  (forall a, R a -> R' a) -> (forall e, E e -> E' e) ->
  yields env P R E m -> yields env P R' E' m.
Proof.
  intros HR HE Hm h. destruct (Hm h) as (r & hx & Hrun & Hx & Hr).
  exists r, hx. repeat split; [exact Hrun | exact Hx |].
  destruct r; [apply HR | apply HE]; exact Hr.
Qed.

End Rules.
